(** * gitporter: the migration orchestration engine, embedded in Rocq

    The development follows the JavaScript sources:
    - [utils.js]: [RateLimiter], [MarkdownConverter], [StatusMapper];
    - [migrator.js]: [Migrator] ([processIssue], [migrateComments],
      [processIssuesBatch], [chunkArray], [migrate]);
    - [jiraClient.js]: [filterIssuesByType], [getAllIssues];
    - [githubClient.js]: [findExistingIssue], [ensureLabelsExist],
      [handleAttachments], [createIssue].

    JavaScript numbers that count things (attempts, counters, indices) are
    [nat]; numbers that are measured or received (delays, HTTP status codes)
    are [Z].  Strings are [string] (ASCII text); objects used as dictionaries
    are [gmap string _].  Asynchronous code is sequential here: every [await]
    is a plain call on an explicit state. *)

From Stdlib Require Import ZArith Lia Bool List Ascii String.
From stdpp Require Import gmap strings list fin_maps.

Open Scope string_scope.

(** ** JavaScript strings *)

Module JsString.

(** [s.startsWith(p)] *)
Fixpoint startsWith (p s : string) : bool :=
  match p, s with
  | EmptyString, _ => true
  | String a p', String b s' => if Ascii.eqb a b then startsWith p' s' else false
  | String _ _, EmptyString => false
  end.

(** [s.includes(needle)] *)
Fixpoint includes (needle s : string) : bool :=
  startsWith needle s
  || match s with
     | EmptyString => false
     | String _ s' => includes needle s'
     end.

Definition lowerChar (c : ascii) : ascii :=
  let n := Ascii.nat_of_ascii c in
  if (65 <=? n)%nat && (n <=? 90)%nat then Ascii.ascii_of_nat (n + 32) else c.

(** [s.toLowerCase()] on ASCII text *)
Fixpoint toLowerCase (s : string) : string :=
  match s with
  | EmptyString => EmptyString
  | String c s' => String (lowerChar c) (toLowerCase s')
  end.

(** White space as [trim] sees it in ASCII text: TAB, LF, VT, FF, CR, SPACE. *)
Definition isSpace (c : ascii) : bool :=
  let n := Ascii.nat_of_ascii c in
  ((9 <=? n)%nat && (n <=? 13)%nat) || (n =? 32)%nat.

Fixpoint trimStart (s : string) : string :=
  match s with
  | EmptyString => EmptyString
  | String c s' => if isSpace c then trimStart s' else s
  end.

Fixpoint trimEnd (s : string) : string :=
  match s with
  | EmptyString => EmptyString
  | String c s' =>
      match trimEnd s' with
      | EmptyString => if isSpace c then EmptyString else String c EmptyString
      | t => String c t
      end
  end.

(** [s.trim()] *)
Definition trim (s : string) : string := trimEnd (trimStart s).

(** [parts.join('')] *)
Definition join (parts : list string) : string :=
  fold_right String.append EmptyString parts.

(** [c.repeat(n)] for a one-character string *)
Fixpoint repeatChar (c : ascii) (n : nat) : string :=
  match n with
  | O => EmptyString
  | S n' => String c (repeatChar c n')
  end.

(** Decimal rendering of a count, as in a template literal. *)
Definition digit (n : nat) : ascii := Ascii.ascii_of_nat (48 + n).

Fixpoint decimalAux (fuel n : nat) (acc : string) : string :=
  match fuel with
  | O => acc
  | S fuel' =>
      let acc' := String (digit (n mod 10)) acc in
      if (n / 10 =? 0)%nat then acc' else decimalAux fuel' (n / 10) acc'
  end.

Definition ofNat (n : nat) : string := decimalAux (S n) n EmptyString.

(** The line feed, ['\n']. *)
Definition LF : string := String (Ascii.ascii_of_nat 10) EmptyString.

(** [s.split('\n')] *)
Fixpoint splitLinesAux (s cur : string) : list string :=
  match s with
  | EmptyString => [String.rev cur]
  | String c s' =>
      if Ascii.eqb c "010"%char then String.rev cur :: splitLinesAux s' EmptyString
      else splitLinesAux s' (String c cur)
  end.

Definition lines (s : string) : list string := splitLinesAux s EmptyString.

(** [p] holds of every character of [s]. *)
Fixpoint every (p : ascii -> bool) (s : string) : bool :=
  match s with
  | EmptyString => true
  | String c s' => p c && every p s'
  end.

(** A character that is no white space other than the plain space. *)
Definition plain (c : ascii) : bool := negb (isSpace c) || Ascii.eqb c " ".

(** [s] does not start with white space. *)
Definition startsClean (s : string) : bool :=
  match s with
  | EmptyString => true
  | String c _ => negb (isSpace c)
  end.

End JsString.

(** ** Completions: a call either returns or throws *)

Inductive Completion (A E : Type) : Type :=
| Returned (a : A)
| Thrown (e : E).
Arguments Returned {A E} a.
Arguments Thrown {A E} e.

(** The error objects the code inspects: [error.response?.status],
    [error.message] and [error.stack]. *)
Record JsError : Type := mkJsError {
  responseStatus : option Z;
  message : option string;
  stack : option string
}.

(** ** utils.js: RateLimiter *)

Module RateLimiter.

Record t : Type := mk { maxRetries : nat; baseDelay : Z }.

(** [new RateLimiter()] *)
Definition default : t := {| maxRetries := 3; baseDelay := 1000 |}.

(** What one call of [executeWithRetry] does to the outside. *)
Inductive Event : Type :=
| Invoke                                   (* fn() *)
| LogWarn (attempt total : nat) (msg : option string)
| LogDebug (delay : Z)
| Sleep (delay : Z).                       (* await setTimeout(delay) *)

Definition messageIncludes (needle : string) (error : JsError) : bool :=
  match message error with
  | Some m => JsString.includes needle m
  | None => false
  end.

(** [error.response?.status === 429 || error.message?.includes('rate limit')
     || error.message?.includes('too many requests')] *)
Definition isRateLimit (error : JsError) : bool :=
  match responseStatus error with Some s => (s =? 429)%Z | None => false end
  || messageIncludes "rate limit" error
  || messageIncludes "too many requests" error.

(** [error.response?.status < 500]; [undefined < 500] is false. *)
Definition statusBelow500 (error : JsError) : bool :=
  match responseStatus error with Some s => (s <? 500)%Z | None => false end.

Section Execute.
Context {W A : Type}.
Variable rl : t.
(** The wrapped operation, acting on the outside world. *)
Variable fn : W -> Completion A JsError * W.

(** The [for] loop of [executeWithRetry], one iteration per unit of fuel.
    The thrown value is [lastError], which is [undefined] ([None]) until
    an attempt has failed. *)
Fixpoint retryLoop (fuel attempt : nat) (lastError : option JsError) (w : W)
  : option (Completion A (option JsError) * W * list Event) :=
  match fuel with
  | O => None
  | S fuel' =>
      if (attempt <=? maxRetries rl)%nat then
        match fn w with
        | (Returned a, w') => Some (Returned a, w', [Invoke])
        | (Thrown error, w') =>
            if (attempt =? maxRetries rl)%nat then
              Some (Thrown (Some error), w', [Invoke])
            else if negb (isRateLimit error) && statusBelow500 error then
              Some (Thrown (Some error), w', [Invoke])
            else
              let delay := (baseDelay rl * 2 ^ Z.of_nat attempt)%Z in
              match retryLoop fuel' (S attempt) (Some error) w' with
              | Some (r, w'', evs) =>
                  Some (r, w'',
                        Invoke
                          :: LogWarn (attempt + 1) (maxRetries rl + 1) (message error)
                          :: LogDebug delay
                          :: Sleep delay
                          :: evs)
              | None => None
              end
        end
      else Some (Thrown lastError, w, [])
  end.

Definition executeWithRetry (w : W)
  : option (Completion A (option JsError) * W * list Event) :=
  retryLoop (S (S (maxRetries rl))) 0 None w.

(** The world after [k] invocations of [fn]. *)
Definition worldAfter (k : nat) (w : W) : W :=
  Nat.iter k (fun w => snd (fn w)) w.
End Execute.

(** Observations on a trace. *)
Definition isInvoke (e : Event) : bool :=
  match e with Invoke => true | _ => false end.

Definition invocations (evs : list Event) : nat :=
  length (List.filter isInvoke evs).

Fixpoint sleeps (evs : list Event) : list Z :=
  match evs with
  | [] => []
  | Sleep d :: evs' => d :: sleeps evs'
  | _ :: evs' => sleeps evs'
  end.

(** The calls and the sleeps, in order, without the log lines. *)
Fixpoint timeline (evs : list Event) : list Event :=
  match evs with
  | [] => []
  | (LogWarn _ _ _ | LogDebug _) :: evs' => timeline evs'
  | e :: evs' => e :: timeline evs'
  end.

(** A call, then [remaining] times a sleep of [base * 2^attempt] and
    another call. *)
Fixpoint backoff (base : Z) (attempt remaining : nat) : list Event :=
  match remaining with
  | O => [Invoke]
  | S r => Invoke :: Sleep (base * 2 ^ Z.of_nat attempt)%Z :: backoff base (S attempt) r
  end.

(** The test of the loop that lets an attempt be followed by another: the
    error is a rate-limit error, or its status is not below 500 (server
    errors, and errors that carry no response). *)
Definition retried (error : JsError) : bool :=
  negb (negb (isRateLimit error) && statusBelow500 error).

(** The delay before the retry that follows attempt [a]. *)
Definition delayOf (rl : t) (a : nat) : Z := (baseDelay rl * 2 ^ Z.of_nat a)%Z.

(** The time slept over a whole trace. *)
Definition totalDelay (evs : list Event) : Z := fold_right Z.add 0%Z (sleeps evs).

(** Error classes of the retry policy. *)
Definition serverClass (error : JsError) : Prop :=
  exists s, responseStatus error = Some s /\ (500 <= s)%Z.

Definition transient (error : JsError) : Prop :=
  isRateLimit error = true \/ serverClass error.

Definition clientClass (error : JsError) : Prop :=
  exists s, responseStatus error = Some s /\ (400 <= s < 500)%Z.

End RateLimiter.

(** ** utils.js: StatusMapper *)

Module StatusMapper.

(** A string in a condition: every string but the empty one is truthy. *)
Definition truthy (s : string) : bool := negb (String.eqb s "").

(** The default mapping, used when the table gives nothing. *)
Definition defaultState (jiraStatus : string) : string :=
  let lowerStatus := JsString.toLowerCase jiraStatus in
  if JsString.includes "done" lowerStatus
     || JsString.includes "closed" lowerStatus
     || JsString.includes "resolved" lowerStatus
     || JsString.includes "complete" lowerStatus
  then "closed"
  else "open".

(** [mapStatus(jiraStatus)]: [this.mapping[jiraStatus]] is used when it is
    truthy. *)
Definition mapStatus (mapping : gmap string string) (jiraStatus : string) : string :=
  match mapping !! jiraStatus with
  | Some mapped => if truthy mapped then mapped else defaultState jiraStatus
  | None => defaultState jiraStatus
  end.


End StatusMapper.

(** ** utils.js: MarkdownConverter *)

Module MarkdownConverter.

#[local] Set Warnings "-register-all".

(** A value met while walking a rich document: an object with the fields
    the walk reads ([type], [text], [attrs.level], [attrs.alt], [content]),
    or anything that is not an object ([null], a string, a number). *)
Inductive Adf : Type :=
| NotObject
| Node (type : option string) (text : option string)
       (level : option nat) (alt : option string)
       (content : option (list Adf)).

Definition isType (ty : option string) (name : string) : bool :=
  match ty with
  | Some t => String.eqb t name
  | None => false
  end.

(** The prefix of the child at [index] of a list node. *)
Definition listPrefix (ordered : bool) (index : nat) : string :=
  if ordered then JsString.ofNat (index + 1) ++ ". " else "- ".

(** The body of the [forEach] of a list node, on the rendered child. *)
Definition listLine (ordered : bool) (index : nat) (rendered : string) : string :=
  listPrefix ordered index ++ JsString.trim rendered ++ JsString.LF.

Definition orElse (o : option string) (d : string) : string :=
  match o with
  | Some s => if String.eqb s "" then d else s
  | None => d
  end.

(** [attrs?.level || 1] *)
Definition headingLevel (level : option nat) : nat :=
  match level with
  | Some (S n) => S n
  | _ => 1
  end.

Fixpoint extractTextFromADF (adfContent : Adf) : string :=
  match adfContent with
  | NotObject => ""
  | Node type text level alt content =>
      let children := option_map (List.map extractTextFromADF) content in
      if isType type "text" then orElse text ""
      else if isType type "hardBreak" then JsString.LF
      else if isType type "paragraph" then
        match children with
        | Some parts => JsString.join parts ++ JsString.LF ++ JsString.LF
        | None => ""
        end
      else if isType type "orderedList" || isType type "bulletList" then
        match children with
        | Some parts =>
            JsString.join (imap (listLine (isType type "orderedList")) parts)
              ++ JsString.LF
        | None => ""
        end
      else if isType type "listItem" then
        match children with
        | Some parts => JsString.trim (JsString.join parts)
        | None => ""
        end
      else if isType type "codeBlock" then
        match children with
        | Some parts => "```" ++ JsString.LF ++ JsString.join parts
              ++ JsString.LF ++ "```" ++ JsString.LF ++ JsString.LF
        | None => ""
        end
      else if isType type "heading" then
        match children with
        | Some parts =>
            JsString.repeatChar "#" (headingLevel level) ++ " " ++ JsString.join parts
              ++ JsString.LF ++ JsString.LF
        | None => ""
        end
      else if isType type "media" || isType type "mediaSingle" || isType type "mediaGroup" then
        "[" ++ orElse alt "attachment" ++ "]"
      else
        match children with
        | Some parts => JsString.join parts
        | None => ""
        end
  end.

(** What [toMarkdown] is given: nothing ([null], [undefined]), a string, or
    an object. *)
Inductive Content : Type :=
| Absent
| Text (s : string)
| Object (o : Adf).

Definition hasContent (o : Adf) : bool :=
  match o with
  | Node _ _ _ _ (Some _) => true
  | _ => false
  end.

Definition typeOf (o : Adf) : option string :=
  match o with
  | Node ty _ _ _ _ => ty
  | NotObject => None
  end.

Section ToMarkdown.
(** The wiki-markup substitutions followed by [turndown], and the
    coercion of an object that is not a document to a string: both are
    taken as given. *)
Variable wikiToMarkdown : string -> string.
Variable coerce : Adf -> string.

Definition toMarkdown (content : Content) : string :=
  match content with
  | Absent => ""
  | Text s => if String.eqb s "" then "" else wikiToMarkdown s
  | Object o =>
      if isType (typeOf o) "doc" && hasContent o then extractTextFromADF o
      else wikiToMarkdown (coerce o)
  end.
End ToMarkdown.

(** Builders for document trees. *)
Definition text (s : string) : Adf := Node (Some "text") (Some s) None None None.
Definition paragraph (l : list Adf) : Adf := Node (Some "paragraph") None None None (Some l).
Definition listItem (l : list Adf) : Adf := Node (Some "listItem") None None None (Some l).
Definition bulletList (l : list Adf) : Adf := Node (Some "bulletList") None None None (Some l).
Definition orderedList (l : list Adf) : Adf := Node (Some "orderedList") None None None (Some l).
Definition doc (l : list Adf) : Adf := Node (Some "doc") None None None (Some l).

End MarkdownConverter.

(** ** utils.js: textUtils and LabelMapper *)

Module TextUtils.

(** [s.replace(/p+/g, by)]: every maximal run of characters satisfying [p]
    becomes [by]. *)
Fixpoint replaceRuns (p : ascii -> bool) (by_ : string) (inRun : bool) (s : string) : string :=
  match s with
  | EmptyString => EmptyString
  | String c s' =>
      if p c then
        if inRun then replaceRuns p by_ true s'
        else by_ ++ replaceRuns p by_ true s'
      else String c (replaceRuns p by_ false s')
  end.

Definition isLineBreak (c : ascii) : bool :=
  let n := Ascii.nat_of_ascii c in (n =? 10)%nat || (n =? 13)%nat.

(** [sanitizeTitle(text)] *)
Definition sanitizeTitle (text : string) : string :=
  if String.eqb text "" then ""
  else
    String.substring 0 255
      (JsString.trim
         (replaceRuns JsString.isSpace " " false
            (replaceRuns isLineBreak " " false text))).

(** [s.toLowerCase().replace(/\s+/g, '-')] *)
Definition slug (s : string) : string :=
  replaceRuns JsString.isSpace "-" false (JsString.toLowerCase s).

(** [truncate(text, maxLength)]; [substring(0, n)] with a negative [n]
    takes nothing. *)
Definition truncate (text : string) (maxLength : Z) : string :=
  if String.eqb text "" || (Z.of_nat (String.length text) <=? maxLength)%Z then text
  else String.substring 0 (Z.to_nat (maxLength - 3)) text ++ "...".

End TextUtils.

(** ** migrator.js: the data the orchestrator handles *)

Module Migrator.

Import MarkdownConverter.

(** One value of [mapping.json], as [processIssue] writes it. *)
Record MappingEntry : Type := mkEntry {
  githubNumber : option nat;
  githubUrl : option string;
  error : option string;
  errorStack : option string;
  migratedAt : string;
  status : string
}.

(** [this.stats] *)
Record Stats : Type := mkStats {
  processed : nat;
  created : nat;
  skipped : nat;
  errors : nat;
  comments : nat;
  attachments : nat
}.

Definition zeroStats : Stats := mkStats 0 0 0 0 0 0.

Record Attachment : Type := mkAttachment {
  filename : string;
  attachmentSize : nat;
  contentUrl : string
}.

Record JiraComment : Type := mkComment {
  author : option string;          (* author?.displayName *)
  commentCreated : option string;
  commentUpdated : option string;
  body : Content;
  renderedBody : Content
}.

Record JiraIssue : Type := mkIssue {
  key : string;
  summary : option string;
  description : Content;
  renderedDescription : Content;
  acceptanceCriteria : Content;    (* customfield_10100 || customfield_10000 *)
  issuetypeName : option string;
  statusName : option string;
  priorityName : option string;
  reporterName : option string;
  assigneeName : option string;
  issueCreated : option string;
  issueUpdated : option string;
  components : list string;
  fixVersions : list string;
  attachment : list Attachment
}.

Record GitHubIssue : Type := mkGitHubIssue {
  number : nat;
  html_url : string
}.

Record IssueData : Type := mkIssueData {
  title : string;
  issueBody : string;
  labels : list string;
  state : string
}.

(** The part of the configuration the orchestrator reads. *)
Record Config : Type := mkConfig {
  jiraUrl : string;
  batchSize : nat;
  dryRun : bool;
  includeSummary : bool;
  attachmentStrategy : string;
  statusMapping : gmap string string;
  labelMapping : gmap string string
}.

(** The collaborators: the two remote clients, the summarizer, the file
    utilities, the clock and the date formatter.  Each call acts on the
    outside world [W] and returns or throws. *)
Record Services (W : Type) : Type := mkServices {
  jiraTestAuthentication : W -> Completion unit JsError * W;
  githubTestAuthentication : W -> Completion unit JsError * W;
  githubTestRepositoryAccess : W -> Completion unit JsError * W;
  summarizerTestConnection : W -> Completion bool JsError * W;
  summarizerIsAvailable : W -> bool;
  summarizeIssuesBatch : list JiraIssue -> W -> Completion (gmap string string) JsError * W;
  formatSummaryForGitHub : string -> string -> string;
  (* buildJqlQuery, getAllIssues and filterIssuesByType of the Jira client *)
  getAllIssues : W -> Completion (list JiraIssue) JsError * W;
  getComments : string -> W -> Completion (list JiraComment) JsError * W;
  findExistingIssue : string -> W -> Completion (option GitHubIssue) JsError * W;
  ensureLabelsExist : list string -> W -> Completion unit JsError * W;
  createIssue : IssueData -> W -> Completion GitHubIssue JsError * W;
  createComment : nat -> string -> W -> Completion unit JsError * W;
  handleAttachments : list Attachment -> string -> string -> W -> Completion string JsError * W;
  readJsonFile : string -> W -> Completion (option (gmap string MappingEntry)) JsError * W;
  writeJsonFile : string -> gmap string MappingEntry -> W -> Completion unit JsError * W;
  isoNow : W -> string;            (* new Date().toISOString() *)
  localeToday : W -> string;       (* new Date().toLocaleDateString() *)
  formatDate : string -> string;   (* Date#toLocaleString of dateUtils.formatJiraDate *)
  wikiToMarkdown : string -> string;
  coerce : Adf -> string
}.
Arguments jiraTestAuthentication {W}.
Arguments githubTestAuthentication {W}.
Arguments githubTestRepositoryAccess {W}.
Arguments summarizerTestConnection {W}.
Arguments summarizerIsAvailable {W}.
Arguments summarizeIssuesBatch {W}.
Arguments formatSummaryForGitHub {W}.
Arguments getAllIssues {W}.
Arguments getComments {W}.
Arguments findExistingIssue {W}.
Arguments ensureLabelsExist {W}.
Arguments createIssue {W}.
Arguments createComment {W}.
Arguments handleAttachments {W}.
Arguments readJsonFile {W}.
Arguments writeJsonFile {W}.
Arguments isoNow {W}.
Arguments localeToday {W}.
Arguments formatDate {W}.
Arguments wikiToMarkdown {W}.
Arguments coerce {W}.

(** The calls the orchestrator makes on its collaborators, as they leave
    it. *)
Inductive Call : Type :=
| TestConnection (service : string)
| SummarizeIssuesBatch (keys : list string)
| GetAllIssues
| GetComments (jiraKey : string)
| FindExistingIssue (jiraKey : string)
| EnsureLabelsExist (names : list string)
| CreateIssue (data : IssueData)
| CreateComment (issueNumber : nat) (commentBody : string)
| HandleAttachments (jiraKey : string) (count : nat)
| ReadJsonFile (file : string)
| WriteJsonFile (file : string) (snapshot : gmap string MappingEntry).

Inductive Level : Type := Debug | Info | Warn | Error | Success.

(** The orchestrator and the world it acts on. *)
Record State (W : Type) : Type := mkState {
  config : Config;
  mapping : gmap string MappingEntry;
  stats : Stats;
  world : W;
  calls : list Call;
  logged : list (Level * string)
}.
Arguments mkState {W}.
Arguments config {W}.
Arguments mapping {W}.
Arguments stats {W}.
Arguments world {W}.
Arguments calls {W}.
Arguments logged {W}.

Definition mappingFile : string := "mapping.json".

(** [new Migrator(config)] *)
Definition create {W : Type} (cfg : Config) (w : W) : State W :=
  mkState cfg ∅ zeroStats w [] [].

(** Which calls change the destination. *)
Definition createsAtDestination (c : Call) : bool :=
  match c with
  | EnsureLabelsExist _ | CreateIssue _ | CreateComment _ _ => true
  | _ => false
  end.

Definition mutatesDestination (c : Call) : bool :=
  match c with
  | EnsureLabelsExist _ | CreateIssue _ | CreateComment _ _ | HandleAttachments _ _ => true
  | _ => false
  end.

Definition isWrite (c : Call) : bool :=
  match c with
  | WriteJsonFile _ _ => true
  | _ => false
  end.

(** The snapshots written to the mapping file, oldest first. *)
Fixpoint writes (cs : list Call) : list (gmap string MappingEntry) :=
  match cs with
  | [] => []
  | WriteJsonFile _ snapshot :: cs' => snapshot :: writes cs'
  | _ :: cs' => writes cs'
  end.

Definition isCreateComment (c : Call) : bool :=
  match c with
  | CreateComment _ _ => true
  | _ => false
  end.

Definition isWarn (l : Level * string) : bool :=
  match fst l with
  | Warn => true
  | _ => false
  end.

(** [this.mapping[jiraKey] && this.mapping[jiraKey].status === name] *)
Definition hasStatus (m : gmap string MappingEntry) (jiraKey name : string) : bool :=
  match m !! jiraKey with
  | Some entry => String.eqb (status entry) name
  | None => false
  end.

(** Truthiness of the values met in conditions. *)
Definition truthyText (o : option string) : bool :=
  match o with
  | Some s => negb (String.eqb s "")
  | None => false
  end.

Definition truthyContent (c : Content) : bool :=
  match c with
  | Absent => false
  | Text s => negb (String.eqb s "")
  | Object _ => true
  end.

(** [a || b] on contents *)
Definition contentOr (a b : Content) : Content :=
  if truthyContent a then a else b.

(** [name || fallback] *)
Definition textOr (o : option string) (fallback : string) : string :=
  if truthyText o then default fallback o else fallback.

(** ** migrator.js: state updates and the monad of the orchestrator *)

Definition incProcessed (s : Stats) : Stats :=
  mkStats (processed s + 1) (created s) (skipped s) (errors s) (comments s) (attachments s).
Definition incCreated (s : Stats) : Stats :=
  mkStats (processed s) (created s + 1) (skipped s) (errors s) (comments s) (attachments s).
Definition incSkipped (s : Stats) : Stats :=
  mkStats (processed s) (created s) (skipped s + 1) (errors s) (comments s) (attachments s).
Definition incErrors (s : Stats) : Stats :=
  mkStats (processed s) (created s) (skipped s) (errors s + 1) (comments s) (attachments s).
Definition incComments (s : Stats) : Stats :=
  mkStats (processed s) (created s) (skipped s) (errors s) (comments s + 1) (attachments s).
Definition addAttachments (n : nat) (s : Stats) : Stats :=
  mkStats (processed s) (created s) (skipped s) (errors s) (comments s) (attachments s + n).

(** [error.message] inside a template literal *)
Definition messageText (e : JsError) : string := default "undefined" (message e).
Definition stackText (e : JsError) : string := default "undefined" (stack e).

Section Operations.
Context {W : Type}.
Variable svc : Services W.

(** A method of the orchestrator: it runs on the state and returns or
    throws; what it did before throwing stays done. *)
Definition M (A : Type) : Type := State W -> Completion A JsError * State W.

Definition ret {A : Type} (a : A) : M A := fun st => (Returned a, st).

Definition throw {A : Type} (e : JsError) : M A := fun st => (Thrown e, st).

Definition bind {A B : Type} (m : M A) (k : A -> M B) : M B :=
  fun st =>
    match m st with
    | (Returned a, st') => k a st'
    | (Thrown e, st') => (Thrown e, st')
    end.

(** [try { m } catch (error) { handler(error) }] *)
Definition tryCatch {A : Type} (m : M A) (handler : JsError -> M A) : M A :=
  fun st =>
    match m st with
    | (Returned a, st') => (Returned a, st')
    | (Thrown e, st') => handler e st'
    end.

Definition get : M (State W) := fun st => (Returned st, st).

(** [this.config] *)
Definition getConfig : M Config := fun st => (Returned (config st), st).

Definition modifyStats (f : Stats -> Stats) : M unit :=
  fun st =>
    (Returned tt,
     mkState (config st) (mapping st) (f (stats st)) (world st) (calls st) (logged st)).

(** [this.mapping[jiraKey] = entry] *)
Definition setMapping (jiraKey : string) (entry : MappingEntry) : M unit :=
  fun st =>
    (Returned tt,
     mkState (config st) (<[jiraKey := entry]> (mapping st)) (stats st) (world st)
             (calls st) (logged st)).

Definition replaceMapping (m : gmap string MappingEntry) : M unit :=
  fun st =>
    (Returned tt, mkState (config st) m (stats st) (world st) (calls st) (logged st)).

(** [this.config.migration.includeSummary = b] *)
Definition setIncludeSummary (b : bool) : M unit :=
  fun st =>
    let c := config st in
    (Returned tt,
     mkState (mkConfig (jiraUrl c) (batchSize c) (dryRun c) b (attachmentStrategy c)
                       (statusMapping c) (labelMapping c))
             (mapping st) (stats st) (world st) (calls st) (logged st)).

(** [logger.<level>(msg)] *)
Definition log (level : Level) (msg : string) : M unit :=
  fun st =>
    (Returned tt,
     mkState (config st) (mapping st) (stats st) (world st) (calls st)
             (logged st ++ [(level, msg)])).

(** [await collaborator.method(...)] *)
Definition call {A : Type} (c : Call) (f : W -> Completion A JsError * W) : M A :=
  fun st =>
    let (r, w') := f (world st) in
    (r, mkState (config st) (mapping st) (stats st) w' (calls st ++ [c]) (logged st)).

(** Reading the clock is no call on a collaborator. *)
Definition clock (f : W -> string) : M string :=
  fun st => (Returned (f (world st)), st).

Notation "'let!' x ':=' m 'in' k" := (bind m (fun x => k))
  (at level 10, x name, m at level 100, k at level 200, only parsing).
Notation "m ';;;' k" := (bind m (fun _ => k))
  (at level 100, k at level 200, right associativity, only parsing).

(** [for (const x of xs) { await f(x); }] *)
Fixpoint forEach {A : Type} (f : A -> M unit) (xs : list A) : M unit :=
  match xs with
  | [] => ret tt
  | x :: xs' => f x ;;; forEach f xs'
  end.

(** *** Text of the destination issue *)

Definition toMarkdown (c : Content) : string :=
  MarkdownConverter.toMarkdown (wikiToMarkdown svc) (coerce svc) c.

(** [dateUtils.formatJiraDate] *)
Definition formatJiraDate (jiraDate : option string) : string :=
  if truthyText jiraDate then formatDate svc (default "" jiraDate) else "".

Definition buildGitHubTitle (jiraIssue : JiraIssue) : string :=
  let title := textOr (summary jiraIssue) "Untitled Issue" in
  "[" ++ key jiraIssue ++ "] " ++ TextUtils.sanitizeTitle title.

Definition browseLink (cfg : Config) (jiraIssue : JiraIssue) : string :=
  "[" ++ key jiraIssue ++ "](" ++ jiraUrl cfg ++ "/browse/" ++ key jiraIssue ++ ")".

Definition row (name value : string) : string :=
  "| **" ++ name ++ "** | " ++ value ++ " |" ++ JsString.LF.

Definition buildIssueMetadata (cfg : Config) (jiraIssue : JiraIssue) : string :=
  "## Issue Details" ++ JsString.LF ++ JsString.LF
  ++ "| Field | Value |" ++ JsString.LF
  ++ "|-------|-------|" ++ JsString.LF
  ++ row "Jira Key" (browseLink cfg jiraIssue)
  ++ row "Issue Type" (textOr (issuetypeName jiraIssue) "Unknown")
  ++ row "Status" (textOr (statusName jiraIssue) "Unknown")
  ++ row "Priority" (textOr (priorityName jiraIssue) "Unknown")
  ++ row "Reporter" (textOr (reporterName jiraIssue) "Unknown")
  ++ row "Assignee" (textOr (assigneeName jiraIssue) "Unassigned")
  ++ row "Created" (formatJiraDate (issueCreated jiraIssue))
  ++ row "Updated" (formatJiraDate (issueUpdated jiraIssue))
  ++ (if (0 <? length (components jiraIssue))%nat
      then row "Components" (String.concat ", " (components jiraIssue)) else "")
  ++ (if (0 <? length (fixVersions jiraIssue))%nat
      then row "Fix Versions" (String.concat ", " (fixVersions jiraIssue)) else "")
  ++ JsString.LF ++ "---" ++ JsString.LF ++ JsString.LF.

Definition buildMigrationFooter (cfg : Config) (jiraIssue : JiraIssue) (today : string)
  : string :=
  JsString.LF ++ "---" ++ JsString.LF ++ JsString.LF
  ++ "*This issue was migrated from " ++ browseLink cfg jiraIssue
  ++ " on " ++ today ++ "*".

Definition section (heading : string) (c : Content) : string :=
  if truthyContent c
  then "## " ++ heading ++ JsString.LF ++ JsString.LF ++ toMarkdown c
       ++ JsString.LF ++ JsString.LF
  else "".

Definition buildGitHubBody (jiraIssue : JiraIssue) (aiSummary : option string) : M string :=
  let! cfg := getConfig in
  let summaryBlock :=
    if truthyText aiSummary && includeSummary cfg
    then formatSummaryForGitHub svc (default "" aiSummary) (key jiraIssue)
    else "" in
  let description :=
    contentOr (contentOr (description jiraIssue) (renderedDescription jiraIssue)) (Text "") in
  let attachments := attachment jiraIssue in
  let! attachmentText :=
    (if (0 <? length attachments)%nat then
       let! text :=
         call (HandleAttachments (key jiraIssue) (length attachments))
              (handleAttachments svc attachments (key jiraIssue) (attachmentStrategy cfg)) in
       modifyStats (addAttachments (length attachments)) ;;;
       ret text
     else ret "") in
  let! today := clock (localeToday svc) in
  ret (summaryBlock
       ++ buildIssueMetadata cfg jiraIssue
       ++ section "Description" description
       ++ section "Acceptance Criteria" (acceptanceCriteria jiraIssue)
       ++ attachmentText
       ++ buildMigrationFooter cfg jiraIssue today).

(** [LabelMapper.mapLabels] *)
Definition mapLabels (labelMapping : gmap string string) (jiraIssue : JiraIssue)
  : list string :=
  let typeLabel :=
    if truthyText (issuetypeName jiraIssue) then
      match labelMapping !! default "" (issuetypeName jiraIssue) with
      | Some l => if StatusMapper.truthy l then [l] else []
      | None => []
      end
    else [] in
  let priorityLabel :=
    if truthyText (priorityName jiraIssue)
    then ["priority:" ++ TextUtils.slug (default "" (priorityName jiraIssue))] else [] in
  let componentLabels :=
    List.map (fun name => "component:" ++ TextUtils.slug name)
             (List.filter StatusMapper.truthy (components jiraIssue)) in
  let statusLabel :=
    if truthyText (statusName jiraIssue)
    then ["jira-status:" ++ TextUtils.slug (default "" (statusName jiraIssue))] else [] in
  List.filter StatusMapper.truthy
    (typeLabel ++ priorityLabel ++ componentLabels ++ statusLabel ++ ["migrated-from-jira"]).

(** [this.statusMapper.mapStatus(fields.status?.name)]: without a status
    name the table is read at [undefined] and, when that gives nothing,
    [toLowerCase] is called on [undefined]. *)
Definition typeErrorMessage : string :=
  "Cannot read properties of undefined (reading 'toLowerCase')".

Definition mapStatusOf (statusMapping : gmap string string) (name : option string)
  : M string :=
  match name with
  | Some n => ret (StatusMapper.mapStatus statusMapping n)
  | None =>
      match statusMapping !! "undefined" with
      | Some mapped =>
          if StatusMapper.truthy mapped then ret mapped
          else throw (mkJsError None (Some typeErrorMessage) None)
      | None => throw (mkJsError None (Some typeErrorMessage) None)
      end
  end.

Definition convertAndCreateIssue (jiraIssue : JiraIssue) (aiSummary : option string)
  : M GitHubIssue :=
  let title := buildGitHubTitle jiraIssue in
  let! body := buildGitHubBody jiraIssue aiSummary in
  let! cfg := getConfig in
  let labels := mapLabels (labelMapping cfg) jiraIssue in
  let! state := mapStatusOf (statusMapping cfg) (statusName jiraIssue) in
  call (EnsureLabelsExist labels) (ensureLabelsExist svc labels) ;;;
  let issueData := mkIssueData title body labels state in
  call (CreateIssue issueData) (createIssue svc issueData).

(** *** Comments *)

Definition migrateComment (jiraComment : JiraComment) (githubIssueNumber : nat) : M unit :=
  let author := textOr (author jiraComment) "Unknown User" in
  let created := formatJiraDate (commentCreated jiraComment) in
  let updated :=
    if truthyText (commentUpdated jiraComment)
    then Some (formatJiraDate (commentUpdated jiraComment)) else None in
  let originalBody :=
    contentOr (contentOr (body jiraComment) (renderedBody jiraComment)) (Text "") in
  let convertedBody := toMarkdown originalBody in
  let header := "**" ++ author ++ "** commented on " ++ created in
  let header :=
    if truthyText updated && negb (String.eqb (default "" updated) created)
    then header ++ " (updated " ++ default "" updated ++ ")" else header in
  let githubCommentBody := header ++ ":" ++ JsString.LF ++ JsString.LF ++ convertedBody in
  call (CreateComment githubIssueNumber githubCommentBody)
       (createComment svc githubIssueNumber githubCommentBody).

(** The [try] block of [migrateComments]. *)
Definition replicateComments (jiraIssue : JiraIssue) (githubIssueNumber : nat) : M unit :=
  let! comments := call (GetComments (key jiraIssue)) (getComments svc (key jiraIssue)) in
  if (length comments =? 0)%nat then ret tt
  else
    log Debug ("Migrating " ++ JsString.ofNat (length comments) ++ " comments for "
               ++ key jiraIssue) ;;;
    forEach
      (fun comment =>
         migrateComment comment githubIssueNumber ;;;
         modifyStats incComments)
      comments.

Definition migrateComments (jiraIssue : JiraIssue) (githubIssueNumber : nat) : M unit :=
  tryCatch
    (replicateComments jiraIssue githubIssueNumber)
    (fun error =>
       log Warn ("Failed to migrate comments for " ++ key jiraIssue ++ ": "
                 ++ messageText error)).

(** *** One issue *)

Definition numberText (entry : option MappingEntry) : string :=
  match entry with
  | Some e =>
      match githubNumber e with
      | Some n => JsString.ofNat n
      | None => "undefined"
      end
  | None => "undefined"
  end.

Definition errorText (entry : option MappingEntry) : string :=
  match entry with
  | Some e => default "undefined" (error e)
  | None => "undefined"
  end.

Definition processIssue (jiraIssue : JiraIssue) (aiSummary : option string) : M unit :=
  let jiraKey := key jiraIssue in
  tryCatch
    (modifyStats incProcessed ;;;
     let! st := get in
     if hasStatus (mapping st) jiraKey "migrated" then
       log Debug ("Skipping " ++ jiraKey ++ " - already migrated to #"
                  ++ numberText (mapping st !! jiraKey)) ;;;
       modifyStats incSkipped
     else if hasStatus (mapping st) jiraKey "existing" then
       log Debug ("Skipping " ++ jiraKey ++ " - already exists as #"
                  ++ numberText (mapping st !! jiraKey)) ;;;
       modifyStats incSkipped
     else
       (if hasStatus (mapping st) jiraKey "error"
        then log Info ("Retrying " ++ jiraKey ++ " after previous error: "
                       ++ errorText (mapping st !! jiraKey))
        else ret tt) ;;;
       let! existingIssue :=
         call (FindExistingIssue jiraKey) (findExistingIssue svc jiraKey) in
       match existingIssue with
       | Some existing =>
           log Info ("Found existing GitHub issue for " ++ jiraKey ++ ": #"
                     ++ JsString.ofNat (number existing)) ;;;
           let! now := clock (isoNow svc) in
           setMapping jiraKey
             (mkEntry (Some (number existing)) (Some (html_url existing)) None None
                      now "existing") ;;;
           modifyStats incSkipped
       | None =>
           if dryRun (config st) then
             log Info ("[DRY RUN] Would migrate " ++ jiraKey ++ ": "
                       ++ default "undefined" (summary jiraIssue)) ;;;
             modifyStats incCreated
           else
             let! githubIssue := convertAndCreateIssue jiraIssue aiSummary in
             let! now := clock (isoNow svc) in
             setMapping jiraKey
               (mkEntry (Some (number githubIssue)) (Some (html_url githubIssue)) None None
                        now "migrated") ;;;
             migrateComments jiraIssue (number githubIssue) ;;;
             modifyStats incCreated ;;;
             log Success ("Migrated " ++ jiraKey ++ " → GitHub #"
                          ++ JsString.ofNat (number githubIssue))
       end)
    (fun error =>
       modifyStats incErrors ;;;
       log Error ("Failed to migrate " ++ jiraKey ++ ": " ++ messageText error) ;;;
       log Error ("Stack trace: " ++ stackText error) ;;;
       let! now := clock (isoNow svc) in
       setMapping jiraKey
         (mkEntry None None (message error) (stack error) now "error")).

(** *** Batches *)

(** [array.slice(i, j)] *)
Definition slice {A : Type} (i j : nat) (array : list A) : list A :=
  take (j - i) (drop i array).

(** The loop of [chunkArray], one iteration per unit of fuel; [None] when
    the fuel runs out. *)
Fixpoint chunkLoop {A : Type} (fuel : nat) (array : list A) (size i : nat)
  : option (list (list A)) :=
  match fuel with
  | O => None
  | S fuel' =>
      if (i <? length array)%nat then
        match chunkLoop fuel' array size (i + size) with
        | Some chunks => Some (slice i (i + size) array :: chunks)
        | None => None
        end
      else Some []
  end.

(** [chunkArray(array, size)]: with [size = 0] and a non-empty array the
    loop never ends, which is [None] here. *)
Definition chunkArray {A : Type} (array : list A) (size : nat) : option (list (list A)) :=
  chunkLoop (S (length array)) array size 0.

Definition saveMapping : M unit :=
  let! st := get in
  call (WriteJsonFile mappingFile (mapping st)) (writeJsonFile svc mappingFile (mapping st)) ;;;
  log Debug ("Saved mappings to " ++ mappingFile).

(** The inner loop of [processIssuesBatch]. *)
Definition processBatchItems (summaries : gmap string string) (batch : list JiraIssue)
  : M unit :=
  forEach (fun jiraIssue => processIssue jiraIssue (summaries !! key jiraIssue)) batch.

(** The outer loop of [processIssuesBatch] from batch [i] on. *)
Fixpoint processBatches (summaries : gmap string string) (total i : nat)
         (batches : list (list JiraIssue)) : M unit :=
  match batches with
  | [] => ret tt
  | batch :: rest =>
      processBatchItems summaries batch ;;;
      saveMapping ;;;
      log Info ("Completed batch " ++ JsString.ofNat (i + 1) ++ "/" ++ JsString.ofNat total) ;;;
      processBatches summaries total (i + 1) rest
  end.

Definition processIssuesBatch (jiraIssues : list JiraIssue) (summaries : gmap string string)
           (st : State W) : option (Completion unit JsError * State W) :=
  match chunkArray jiraIssues (batchSize (config st)) with
  | Some batches => Some (processBatches summaries (length batches) 0 batches st)
  | None => None
  end.

(** *** The run.  The spinner only shows progress and is left out. *)

Definition testConnections : M unit :=
  call (TestConnection "jira") (jiraTestAuthentication svc) ;;;
  log Debug "✓ Jira connection successful" ;;;
  call (TestConnection "github") (githubTestAuthentication svc) ;;;
  call (TestConnection "github repository") (githubTestRepositoryAccess svc) ;;;
  log Debug "✓ GitHub connection successful" ;;;
  let! st := get in
  if includeSummary (config st) then
    let! openaiWorking := call (TestConnection "openai") (summarizerTestConnection svc) in
    if negb openaiWorking then
      log Warn "OpenAI connection failed - summaries will be disabled" ;;;
      setIncludeSummary false
    else log Debug "✓ OpenAI connection successful"
  else ret tt.

Definition loadMapping : M unit :=
  let! existingMapping := call (ReadJsonFile mappingFile) (readJsonFile svc mappingFile) in
  match existingMapping with
  | Some m =>
      replaceMapping m ;;;
      log Info ("Loaded existing mappings for " ++ JsString.ofNat (size m) ++ " issues")
  | None => log Info "No existing mapping file found - starting fresh migration"
  end.

Definition fetchJiraIssues : M (list JiraIssue) :=
  let! filteredIssues := call GetAllIssues (getAllIssues svc) in
  log Info ("Found " ++ JsString.ofNat (length filteredIssues) ++ " issues to migrate") ;;;
  ret filteredIssues.

Definition unmapped (m : gmap string MappingEntry) (issue : JiraIssue) : bool :=
  match m !! key issue with
  | Some _ => false
  | None => true
  end.

Definition generateSummaries (jiraIssues : list JiraIssue) : M (gmap string string) :=
  let! st := get in
  if negb (includeSummary (config st)) || negb (summarizerIsAvailable svc (world st))
  then ret ∅
  else
    let issuesToSummarize := List.filter (unmapped (mapping st)) jiraIssues in
    if (length issuesToSummarize =? 0)%nat then
      log Debug "No new issues to summarize" ;;; ret ∅
    else
      call (SummarizeIssuesBatch (List.map key issuesToSummarize))
           (summarizeIssuesBatch svc issuesToSummarize).

Definition printStats : M unit :=
  let! st := get in
  let s := stats st in
  log Info "Migration Statistics:" ;;;
  log Info ("  Total Processed: " ++ JsString.ofNat (processed s)) ;;;
  log Info ("  Successfully Created: " ++ JsString.ofNat (created s)) ;;;
  log Info ("  Skipped (already exists): " ++ JsString.ofNat (skipped s)) ;;;
  log Info ("  Errors: " ++ JsString.ofNat (errors s)) ;;;
  log Info ("  Comments Migrated: " ++ JsString.ofNat (comments s)) ;;;
  log Info ("  Attachments Processed: " ++ JsString.ofNat (attachments s)) ;;;
  if (0 <? errors s)%nat
  then log Warn "Some issues failed to migrate. Check the mapping.json file for details."
  else ret tt.

(** The steps of [migrate] before the summaries. *)
Definition prepare : M (list JiraIssue) :=
  testConnections ;;; loadMapping ;;; fetchJiraIssues.

(** [migrate()]; [None] when a loop inside does not end. *)
Definition migrate (st : State W) : option (Completion Stats JsError * State W) :=
  match prepare st with
  | (Thrown e, st1) => Some (Thrown e, st1)
  | (Returned jiraIssues, st1) =>
      if (length jiraIssues =? 0)%nat then Some (Returned (stats st1), st1)
      else
        match generateSummaries jiraIssues st1 with
        | (Thrown e, st2) => Some (Thrown e, st2)
        | (Returned summaries, st2) =>
            match processIssuesBatch jiraIssues summaries st2 with
            | None => None
            | Some (Thrown e, st3) => Some (Thrown e, st3)
            | Some (Returned _, st3) =>
                match (saveMapping ;;; printStats) st3 with
                | (Thrown e, st4) => Some (Thrown e, st4)
                | (Returned _, st4) => Some (Returned (stats st4), st4)
                end
            end
        end
  end.

End Operations.

(** ** What a method leaves alone *)

Section Relations.
Context {W : Type}.
Variable svc : Services W.

(** The four counters of the run summary. *)
Definition sameCounters (s s' : Stats) : Prop :=
  processed s' = processed s
  /\ created s' = created s
  /\ skipped s' = skipped s
  /\ errors s' = errors s.

(** [st'] comes from [st] by calls that write no file, by log lines and by
    updates of the comment and attachment counters. *)
Record Frame (st st' : State W) : Prop := mkFrame {
  frame_config : config st' = config st;
  frame_mapping : mapping st' = mapping st;
  frame_counters : sameCounters (stats st) (stats st');
  frame_calls : exists cs, calls st' = (calls st ++ cs)%list /\ writes cs = [];
  frame_logged : exists ls, logged st' = (logged st ++ ls)%list
}.

Definition framed {A : Type} (m : @M W A) : Prop :=
  forall st, Frame st (snd (m st)).

(** A method that writes no file. *)
Definition writesNothing {A : Type} (m : @M W A) : Prop :=
  forall st, writes (calls (snd (m st))) = writes (calls st).

(** Two states that differ in the mapping table and in the log only. *)
Definition agree (a b : State W) : Prop :=
  config a = config b /\ stats a = stats b /\ world a = world b /\ calls a = calls b.

(** A method that reads neither the mapping table nor the log. *)
Definition respects {A : Type} (m : @M W A) : Prop :=
  forall a b, agree a b -> fst (m a) = fst (m b) /\ agree (snd (m a)) (snd (m b)).

(** The note [processIssue] logs before it retries a failed item. *)
Definition retryNote (m : gmap string MappingEntry) (jiraKey : string)
  : list (Level * string) :=
  if hasStatus m jiraKey "error"
  then [(Info, "Retrying " ++ jiraKey ++ " after previous error: "
               ++ errorText (m !! jiraKey))]
  else [].

(** The state of [processIssue] when the search at the destination has
    answered and left the world at [w]. *)
Definition searched (jiraIssue : JiraIssue) (st : State W) (w : W) : State W :=
  mkState (config st) (mapping st) (incProcessed (stats st)) w
          (calls st ++ [FindExistingIssue (key jiraIssue)])
          (logged st ++ retryNote (mapping st) (key jiraIssue)).

(** The entry [processIssue] records for a created issue, and for a failure. *)
Definition migratedEntry (githubIssue : GitHubIssue) (now : string) : MappingEntry :=
  mkEntry (Some (number githubIssue)) (Some (html_url githubIssue)) None None now "migrated".

Definition errorEntry (e : JsError) (now : string) : MappingEntry :=
  mkEntry None None (message e) (stack e) now "error".

(** The state with [entry] recorded for [jiraKey]. *)
Definition withEntry (jiraKey : string) (entry : MappingEntry) (st : State W) : State W :=
  mkState (config st) (<[jiraKey := entry]> (mapping st)) (stats st) (world st) (calls st)
          (logged st).

(** The state with the entry of [jiraKey] removed from the table. *)
Definition forget (jiraKey : string) (st : State W) : State W :=
  mkState (config st) (delete jiraKey (mapping st)) (stats st) (world st) (calls st)
          (logged st).

(** The state of a fresh orchestrator that has loaded the table [m]. *)
Definition loaded (cfg : Config) (m : gmap string MappingEntry) (w : W) : State W :=
  mkState cfg m zeroStats w [] [].

(** From [s] to [s']: one more item processed, counted once as created, as
    skipped or as an error. *)
Definition countedOnce (s s' : Stats) : Prop :=
  processed s' = processed s + 1
  /\ ((created s' = created s + 1 /\ skipped s' = skipped s /\ errors s' = errors s)
      \/ (created s' = created s /\ skipped s' = skipped s + 1 /\ errors s' = errors s)
      \/ (created s' = created s /\ skipped s' = skipped s /\ errors s' = errors s + 1)).

(** The processed items are all accounted for. *)
Definition balanced (s : Stats) : Prop :=
  processed s = created s + skipped s + errors s.

End Relations.

End Migrator.

(** ** migrator.js: further notions used to state what the orchestrator does *)

Module MigratorNotions.

Import Migrator.

(** The item of key [k] needs no more work: its entry says migrated or
    existing. *)
Definition isDone (m : gmap string MappingEntry) (k : string) : bool :=
  hasStatus m k "migrated" || hasStatus m k "existing".

(** The statuses [processIssue] writes. *)
Definition knownStatus (s : string) : Prop :=
  s = "migrated" \/ s = "existing" \/ s = "error".

Definition isSearch (c : Call) : bool :=
  match c with
  | FindExistingIssue _ => true
  | _ => false
  end.

Definition isCreateIssue (c : Call) : bool :=
  match c with
  | CreateIssue _ => true
  | _ => false
  end.

(** Calls made before the issues are fetched. *)
Definition isStartup (c : Call) : bool :=
  match c with
  | TestConnection _ | ReadJsonFile _ => true
  | _ => false
  end.

(** The fetch of the issues at the source. *)
Definition isFetch (c : Call) : bool :=
  match c with
  | GetAllIssues => true
  | _ => false
  end.

(** A method that leaves the counters alone and makes calls of the kind [P]
    only. *)
Definition makesOnly {W A : Type} (P : Call -> bool) (m : @M W A) : Prop :=
  forall st,
    stats (snd (m st)) = stats st
    /\ exists cs, calls (snd (m st)) = (calls st ++ cs)%list /\ forallb P cs = true.

Section Texts.
Context {W : Type}.
Variable svc : Services W.

(** The text [migrateComment] posts for a comment. *)
Definition githubCommentBody (jiraComment : JiraComment) : string :=
  let author := textOr (author jiraComment) "Unknown User" in
  let created := formatJiraDate svc (commentCreated jiraComment) in
  let updated :=
    if truthyText (commentUpdated jiraComment)
    then Some (formatJiraDate svc (commentUpdated jiraComment)) else None in
  let originalBody :=
    contentOr (contentOr (body jiraComment) (renderedBody jiraComment))
              (MarkdownConverter.Text "") in
  let header := "**" ++ author ++ "** commented on " ++ created in
  let header :=
    if truthyText updated && negb (String.eqb (default "" updated) created)
    then header ++ " (updated " ++ default "" updated ++ ")" else header in
  header ++ ":" ++ JsString.LF ++ JsString.LF ++ toMarkdown svc originalBody.

End Texts.


End MigratorNotions.
(** ** jiraClient.js: what is fetched from the source *)

Module JiraClient.

#[local] Open Scope list_scope.

Section Filter.
Context {Issue : Type}.
(** [issue.fields.issuetype?.subtask] and [issue.fields.status?.name] *)
Variable subtask : Issue -> bool.
Variable statusName : Issue -> option string.

(** [!statusFilter || statusFilter.length === 0
     || statusFilter.includes(currentStatus)] *)
Definition passes (statusFilter : option (list string)) (currentStatus : option string)
  : bool :=
  match statusFilter with
  | None => true
  | Some [] => true
  | Some names =>
      match currentStatus with
      | Some s => existsb (String.eqb s) names
      | None => false
      end
  end.

Record Filtered : Type := mkFiltered {
  parentIssues : list Issue;
  subtasks : list Issue;
  allIssues : list Issue
}.

(** The loop of [filterIssuesByType] over the issues still to sort, with the
    two arrays it pushes to.  [enabled] is [config.jira.subtasks?.enabled],
    [statusFilter] is [config.jira.subtasks.filterByStatus].  The log lines
    are left out. *)
Fixpoint filterLoop (enabled : bool) (statusFilter : option (list string))
         (issues parentIssues subtasks : list Issue) : list Issue * list Issue :=
  match issues with
  | [] => (parentIssues, subtasks)
  | issue :: rest =>
      if subtask issue then
        if enabled then
          if passes statusFilter (statusName issue)
          then filterLoop enabled statusFilter rest parentIssues (subtasks ++ [issue])
          else filterLoop enabled statusFilter rest parentIssues subtasks
        else filterLoop enabled statusFilter rest (parentIssues ++ [issue]) subtasks
      else filterLoop enabled statusFilter rest (parentIssues ++ [issue]) subtasks
  end.

Definition filterIssuesByType (issues : list Issue) (enabled : bool)
           (statusFilter : option (list string)) : Filtered :=
  let (parentIssues, subtasks) := filterLoop enabled statusFilter issues [] [] in
  mkFiltered parentIssues subtasks (parentIssues ++ subtasks).

End Filter.

(** What [searchIssues] returns for one page. *)
Record SearchResult (Issue : Type) : Type := mkSearchResult {
  issues : list Issue;
  total : nat;
  startAt : nat;
  maxResults : nat;
  hasMore : bool
}.
Arguments mkSearchResult {Issue}.
Arguments issues {Issue}.
Arguments total {Issue}.
Arguments startAt {Issue}.
Arguments maxResults {Issue}.
Arguments hasMore {Issue}.

Section Paging.
Context {W Issue : Type}.
(** [this.searchIssues(jql, { startAt, maxResults })] *)
Variable searchIssues :
  string -> nat -> nat -> W -> Completion (SearchResult Issue) JsError * W.

(** The [while (hasMore)] loop of [getAllIssues], one page per unit of fuel;
    [None] when the fuel runs out.  The next page starts [result.maxResults]
    further, the page size of the answer. *)
Fixpoint pageLoop (fuel : nat) (jql : string) (pageSize from : nat) (allIssues : list Issue)
         (w : W) : option (Completion (list Issue) JsError * W) :=
  match fuel with
  | O => None
  | S fuel' =>
      match searchIssues jql from pageSize w with
      | (Thrown e, w') => Some (Thrown e, w')
      | (Returned result, w') =>
          let allIssues := allIssues ++ issues result in
          let from := from + maxResults result in
          if hasMore result then pageLoop fuel' jql pageSize from allIssues w'
          else Some (Returned allIssues, w')
      end
  end.

(** [getAllIssues(jql, { batchSize })]; the page size is
    [options.batchSize || 50]. *)
Definition getAllIssues (fuel : nat) (jql : string) (batchSize : nat) (w : W)
  : option (Completion (list Issue) JsError * W) :=
  pageLoop fuel jql (if (batchSize =? 0)%nat then 50 else batchSize) 0 [] w.

(** A source that holds [all], serves it in pages of at most [cap] issues
    and says so in its answers, as the search of Jira does. *)
Definition serves (all : list Issue) (cap : nat) : Prop :=
  forall jql from pageSize w,
    fst (searchIssues jql from pageSize w)
    = Returned
        (let page := take (Nat.min pageSize cap) (drop from all) in
         mkSearchResult page (length all) from (Nat.min pageSize cap)
                        (from + length page <? length all)%nat).

End Paging.

End JiraClient.

(** ** githubClient.js: what is done at the destination *)

Module GitHubClient.

Record Issue : Type := mkIssue {
  number : nat;
  title : string;
  body : option string;
  html_url : string
}.

(** A Jira attachment as [handleAttachments] reads it; [content] is the
    download URL. *)
Record Attachment : Type := mkAttachment {
  filename : string;
  content : string;
  size : option Z;
  mimeType : option string
}.

(** The argument of [createIssue]. *)
Record IssueData : Type := mkIssueData {
  dataTitle : string;
  dataBody : string;
  dataLabels : list string;
  dataState : option string;
  dataAssignee : option string
}.

(** The requests a method sends, through Octokit or through the methods of
    the client that wrap one request. *)
Inductive Request : Type :=
| SearchIssues (query : string)
| CreateLabel (name description : string)
| DownloadAttachment (url file : string)
| UploadReleaseAsset (tagName fileName : string) (contentType : option string)
| IssuesCreate (issueTitle issueBody : string) (labels : list string)
               (assignee : option string)
| IssuesUpdate (issueNumber : nat) (state : string).

(** The other end of the requests, acting on a world [W]; [Blob] is the
    content of a downloaded file.  [createLabel] is the method of the client
    with its colour argument left out; [uploadReleaseAsset] answers the
    [browser_download_url]; [formatFileSize] computes on floating-point
    numbers and is kept abstract. *)
Record Api (W Blob : Type) : Type := mkApi {
  searchIssues : string -> W -> Completion (list Issue) JsError * W;
  createLabel : string -> string -> W -> Completion unit JsError * W;
  downloadAttachment : string -> string -> W -> Completion Blob JsError * W;
  uploadReleaseAsset :
    string -> Blob -> string -> option string -> W -> Completion string JsError * W;
  formatFileSize : option Z -> string;
  issuesCreate :
    string -> string -> list string -> option string -> W -> Completion Issue JsError * W;
  issuesUpdate : nat -> string -> W -> Completion unit JsError * W
}.
Arguments searchIssues {W Blob}.
Arguments createLabel {W Blob}.
Arguments downloadAttachment {W Blob}.
Arguments uploadReleaseAsset {W Blob}.
Arguments formatFileSize {W Blob}.
Arguments issuesCreate {W Blob}.
Arguments issuesUpdate {W Blob}.

(** The world, the requests sent so far and the warnings logged so far. *)
Record St (W : Type) : Type := mkSt {
  world : W;
  requests : list Request;
  warnings : list string
}.
Arguments mkSt {W}.
Arguments world {W}.
Arguments requests {W}.
Arguments warnings {W}.

Definition isIssuesCreate (r : Request) : bool :=
  match r with
  | IssuesCreate _ _ _ _ => true
  | _ => false
  end.

Definition isIssuesUpdate (r : Request) : bool :=
  match r with
  | IssuesUpdate _ _ => true
  | _ => false
  end.

(** How many issues have been asked for, and how many updates of an issue. *)
Definition creations {W : Type} (st : St W) : nat :=
  length (List.filter isIssuesCreate (requests st)).

Definition updates {W : Type} (st : St W) : nat :=
  length (List.filter isIssuesUpdate (requests st)).

(** The double quote. *)
Definition quote : string := String (Ascii.ascii_of_nat 34) EmptyString.

Section Client.
Context {W Blob : Type}.
Variable api : Api W Blob.
(** [this.rateLimiter] *)
Variable rateLimiter : RateLimiter.t.

Definition G (A : Type) : Type := St W -> Completion A JsError * St W.

Definition ret {A : Type} (a : A) : G A := fun st => (Returned a, st).

Definition bind {A B : Type} (m : G A) (k : A -> G B) : G B :=
  fun st =>
    match m st with
    | (Returned a, st') => k a st'
    | (Thrown e, st') => (Thrown e, st')
    end.

Definition tryCatch {A : Type} (m : G A) (handler : JsError -> G A) : G A :=
  fun st =>
    match m st with
    | (Returned a, st') => (Returned a, st')
    | (Thrown e, st') => handler e st'
    end.

Definition request {A : Type} (r : Request) (f : W -> Completion A JsError * W) : G A :=
  fun st =>
    let (c, w') := f (world st) in
    (c, mkSt w' (requests st ++ [r])%list (warnings st)).

(** [logger.warn(msg)]; the other log lines are left out. *)
Definition warn (msg : string) : G unit :=
  fun st => (Returned tt, mkSt (world st) (requests st) (warnings st ++ [msg])%list).

Notation "'let!' x ':=' m 'in' k" := (bind m (fun x => k))
  (at level 10, x name, m at level 100, k at level 200, only parsing).
Notation "m ';;;' k" := (bind m (fun _ => k))
  (at level 100, k at level 200, right associativity, only parsing).

(** [issue.title.includes(jiraKey) || issue.body?.includes(jiraKey)] *)
Definition mentions (jiraKey : string) (issue : Issue) : bool :=
  JsString.includes jiraKey (title issue)
  || match body issue with
     | Some b => JsString.includes jiraKey b
     | None => false
     end.

Definition searchQuery (jiraKey : string) : string :=
  quote ++ jiraKey ++ quote ++ " in:title,body".

(** [findExistingIssue(jiraKey)] *)
Definition findExistingIssue (jiraKey : string) : G (option Issue) :=
  tryCatch
    (let! found := request (SearchIssues (searchQuery jiraKey))
                           (searchIssues api (searchQuery jiraKey)) in
     ret (List.find (mentions jiraKey) found))
    (fun error =>
       warn ("Error searching for existing issue " ++ jiraKey ++ ": "
             ++ Migrator.messageText error) ;;;
       ret None).

Definition labelDescription (labelName : string) : string :=
  if String.eqb labelName "migrated-from-jira" then "Issue migrated from Jira"
  else "Issue type: " ++ labelName.

(** The body of the loop of [ensureLabelsExist]. *)
Definition ensureLabel (labelName : string) : G unit :=
  tryCatch
    (request (CreateLabel labelName (labelDescription labelName))
             (createLabel api labelName (labelDescription labelName)))
    (fun error =>
       warn ("Failed to create label " ++ labelName ++ ": " ++ Migrator.messageText error)).

(** [ensureLabelsExist(labelNames)] *)
Fixpoint ensureLabelsExist (labelNames : list string) : G unit :=
  match labelNames with
  | [] => ret tt
  | labelName :: rest => ensureLabel labelName ;;; ensureLabelsExist rest
  end.

(** The three lines [handleAttachments] writes for an attachment. *)
Definition linkPrefix (a : Attachment) (url : string) : string :=
  "- [" ++ filename a ++ "](" ++ url ++ ") (" ++ formatFileSize api (size a) ++ ")".

Definition uploadedLine (a : Attachment) (url : string) : string :=
  linkPrefix a url ++ JsString.LF.

Definition linkLine (a : Attachment) : string :=
  linkPrefix a (content a) ++ " - *From Jira*" ++ JsString.LF.

Definition fallbackLine (a : Attachment) : string :=
  linkPrefix a (content a) ++ " - *From Jira (upload failed)*" ++ JsString.LF.

(** [line] is one of the three lines for [a]. *)
Definition lineOf (a : Attachment) (line : string) : Prop :=
  line = linkLine a \/ line = fallbackLine a \/ exists url, line = uploadedLine a url.

(** The body of the loop of [handleAttachments]: the line for one
    attachment. *)
Definition attachmentLine (jiraKey strategy : string) (jiraClient : bool) (a : Attachment)
  : G string :=
  tryCatch
    (if String.eqb strategy "upload" && jiraClient then
       let! fileContent := request (DownloadAttachment (content a) (filename a))
                                   (downloadAttachment api (content a) (filename a)) in
       let releaseTag := "attachments-" ++ JsString.toLowerCase jiraKey in
       let! url := request (UploadReleaseAsset releaseTag (filename a) (mimeType a))
                           (uploadReleaseAsset api releaseTag fileContent (filename a)
                                               (mimeType a)) in
       ret (uploadedLine a url)
     else ret (linkLine a))
    (fun error =>
       warn ("Failed to handle attachment " ++ filename a ++ ": "
             ++ Migrator.messageText error) ;;;
       ret (fallbackLine a)).

Fixpoint attachmentLoop (jiraKey strategy : string) (jiraClient : bool)
         (attachments : list Attachment) (attachmentText : string) : G string :=
  match attachments with
  | [] => ret attachmentText
  | a :: rest =>
      let! line := attachmentLine jiraKey strategy jiraClient a in
      attachmentLoop jiraKey strategy jiraClient rest (attachmentText ++ line)
  end.

Definition attachmentsHeader : string :=
  JsString.LF ++ JsString.LF ++ "## Attachments" ++ JsString.LF ++ JsString.LF.

(** [handleAttachments(attachments, jiraKey, strategy, jiraClient)];
    [jiraClient] says whether a client was given. *)
Definition handleAttachments (attachments : list Attachment) (jiraKey strategy : string)
           (jiraClient : bool) : G string :=
  match attachments with
  | [] => ret ""
  | _ :: _ => attachmentLoop jiraKey strategy jiraClient attachments attachmentsHeader
  end.

(** [this.rateLimiter.executeWithRetry(fn)] on the state of the client; the
    waits and the log lines of the retries are not recorded.  The loop of
    [executeWithRetry] runs at least once and within its fuel, so the value
    is never the one of the last two cases. *)
Definition retrying {A : Type} (fn : G A) : G A :=
  fun st =>
    match RateLimiter.executeWithRetry rateLimiter fn st with
    | Some (Returned a, st', _) => (Returned a, st')
    | Some (Thrown (Some e), st', _) => (Thrown e, st')
    | Some (Thrown None, st', _) => (Thrown (mkJsError None None None), st')
    | None => (Thrown (mkJsError None None None), st)
    end.

(** [updateIssueState(issueNumber, state)] *)
Definition updateIssueState (issueNumber : nat) (state : string) : G unit :=
  retrying (request (IssuesUpdate issueNumber state) (issuesUpdate api issueNumber state)).

(** The operation [createIssue] hands to the retry: create the issue, then
    close it when the state asked for is closed. *)
Definition createOnce (issueData : IssueData) : G Issue :=
  let assignee :=
    if Migrator.truthyText (dataAssignee issueData) then dataAssignee issueData else None in
  let! issue := request (IssuesCreate (dataTitle issueData) (dataBody issueData)
                                      (dataLabels issueData) assignee)
                        (issuesCreate api (dataTitle issueData) (dataBody issueData)
                                      (dataLabels issueData) assignee) in
  (if String.eqb (default "open" (dataState issueData)) "closed"
   then updateIssueState (number issue) "closed"
   else ret tt) ;;;
  ret issue.

(** [createIssue(issueData)] *)
Definition createIssue (issueData : IssueData) : G Issue :=
  retrying (createOnce issueData).

End Client.

End GitHubClient.
(** * Concrete operations and worlds used to exercise the definitions *)

Module Scenarios.

Import RateLimiter.

(** An operation that counts its calls and always answers 503. *)
Definition alwaysUnavailable (calls : nat) : Completion unit JsError * nat :=
  (Thrown (mkJsError (Some 503%Z) (Some "Service Unavailable") None), S calls).

(** The operations of the test suite: one that succeeds, one that is rate
    limited once and then succeeds, one that always fails with an error that
    carries no response. *)
Definition succeeds (calls : nat) : Completion string JsError * nat :=
  (Returned "success", S calls).

Definition rateLimitedOnce (calls : nat) : Completion string JsError * nat :=
  match calls with
  | O => (Thrown (mkJsError None (Some "rate limit") None), S calls)
  | S _ => (Returned "success", S calls)
  end.

Definition persistentError (calls : nat) : Completion string JsError * nat :=
  (Thrown (mkJsError None (Some "persistent error") None), S calls).

(** An operation that always answers 404. *)
Definition alwaysNotFound (calls : nat) : Completion unit JsError * nat :=
  (Thrown (mkJsError (Some 404%Z) (Some "Not Found") None), S calls).

(** A destination that holds nothing yet and numbers the issues it creates
    from 1; the world is the number of issues created so far.  The source
    serves [issues] and, for every issue, [comments]; posting a comment fails
    with a 500 when [commentsFail] is set.  [broken] is the same destination
    when it refuses every new issue with a 500. *)

Import Migrator.

Definition serverError : JsError :=
  mkJsError (Some 500%Z) (Some "Internal Server Error") None.

Definition quiet (issues : list JiraIssue) (comments : list JiraComment) (commentsFail : bool)
  : Services nat :=
  {| jiraTestAuthentication := fun w => (Returned tt, w);
     githubTestAuthentication := fun w => (Returned tt, w);
     githubTestRepositoryAccess := fun w => (Returned tt, w);
     summarizerTestConnection := fun w => (Returned false, w);
     summarizerIsAvailable := fun _ => false;
     summarizeIssuesBatch := fun _ w => (Returned ∅, w);
     formatSummaryForGitHub := fun text _ => text;
     getAllIssues := fun w => (Returned issues, w);
     getComments := fun _ w => (Returned comments, w);
     findExistingIssue := fun _ w => (Returned None, w);
     ensureLabelsExist := fun _ w => (Returned tt, w);
     createIssue := fun _ w => (Returned (mkGitHubIssue (S w) "https://github.example/issue"), S w);
     createComment := fun _ _ w =>
       if commentsFail then (Thrown serverError, w) else (Returned tt, w);
     handleAttachments := fun _ _ _ w => (Returned "", w);
     readJsonFile := fun _ w => (Returned None, w);
     writeJsonFile := fun _ _ w => (Returned tt, w);
     isoNow := fun _ => "2024-01-01T00:00:00.000Z";
     localeToday := fun _ => "1/1/2024";
     formatDate := fun d => d;
     wikiToMarkdown := fun text => text;
     coerce := fun _ => "[object Object]" |}.

Definition broken : Services nat :=
  let q := quiet [] [] false in
  {| jiraTestAuthentication := jiraTestAuthentication q;
     githubTestAuthentication := githubTestAuthentication q;
     githubTestRepositoryAccess := githubTestRepositoryAccess q;
     summarizerTestConnection := summarizerTestConnection q;
     summarizerIsAvailable := summarizerIsAvailable q;
     summarizeIssuesBatch := summarizeIssuesBatch q;
     formatSummaryForGitHub := formatSummaryForGitHub q;
     getAllIssues := getAllIssues q;
     getComments := getComments q;
     findExistingIssue := findExistingIssue q;
     ensureLabelsExist := ensureLabelsExist q;
     createIssue := fun _ w => (Thrown serverError, w);
     createComment := createComment q;
     handleAttachments := handleAttachments q;
     readJsonFile := readJsonFile q;
     writeJsonFile := writeJsonFile q;
     isoNow := isoNow q;
     localeToday := localeToday q;
     formatDate := formatDate q;
     wikiToMarkdown := wikiToMarkdown q;
     coerce := coerce q |}.

(** [q] with another search at the destination. *)
Definition withSearch (q : Services nat) (f : string -> nat -> Completion (option GitHubIssue) JsError * nat) : Services nat :=
  {| jiraTestAuthentication := jiraTestAuthentication q;
     githubTestAuthentication := githubTestAuthentication q;
     githubTestRepositoryAccess := githubTestRepositoryAccess q;
     summarizerTestConnection := summarizerTestConnection q;
     summarizerIsAvailable := summarizerIsAvailable q;
     summarizeIssuesBatch := summarizeIssuesBatch q;
     formatSummaryForGitHub := formatSummaryForGitHub q;
     getAllIssues := getAllIssues q;
     getComments := getComments q;
     findExistingIssue := f;
     ensureLabelsExist := ensureLabelsExist q;
     createIssue := createIssue q;
     createComment := createComment q;
     handleAttachments := handleAttachments q;
     readJsonFile := readJsonFile q;
     writeJsonFile := writeJsonFile q;
     isoNow := isoNow q;
     localeToday := localeToday q;
     formatDate := formatDate q;
     wikiToMarkdown := wikiToMarkdown q;
     coerce := coerce q |}.

(** [q] with another [writeJsonFile]. *)
Definition withWrite (q : Services nat) (f : string -> gmap string MappingEntry -> nat -> Completion unit JsError * nat) : Services nat :=
  {| jiraTestAuthentication := jiraTestAuthentication q;
     githubTestAuthentication := githubTestAuthentication q;
     githubTestRepositoryAccess := githubTestRepositoryAccess q;
     summarizerTestConnection := summarizerTestConnection q;
     summarizerIsAvailable := summarizerIsAvailable q;
     summarizeIssuesBatch := summarizeIssuesBatch q;
     formatSummaryForGitHub := formatSummaryForGitHub q;
     getAllIssues := getAllIssues q;
     getComments := getComments q;
     findExistingIssue := findExistingIssue q;
     ensureLabelsExist := ensureLabelsExist q;
     createIssue := createIssue q;
     createComment := createComment q;
     handleAttachments := handleAttachments q;
     readJsonFile := readJsonFile q;
     writeJsonFile := f;
     isoNow := isoNow q;
     localeToday := localeToday q;
     formatDate := formatDate q;
     wikiToMarkdown := wikiToMarkdown q;
     coerce := coerce q |}.

(** [q] with another [readJsonFile]. *)
Definition withRead (q : Services nat) (f : string -> nat -> Completion (option (gmap string MappingEntry)) JsError * nat) : Services nat :=
  {| jiraTestAuthentication := jiraTestAuthentication q;
     githubTestAuthentication := githubTestAuthentication q;
     githubTestRepositoryAccess := githubTestRepositoryAccess q;
     summarizerTestConnection := summarizerTestConnection q;
     summarizerIsAvailable := summarizerIsAvailable q;
     summarizeIssuesBatch := summarizeIssuesBatch q;
     formatSummaryForGitHub := formatSummaryForGitHub q;
     getAllIssues := getAllIssues q;
     getComments := getComments q;
     findExistingIssue := findExistingIssue q;
     ensureLabelsExist := ensureLabelsExist q;
     createIssue := createIssue q;
     createComment := createComment q;
     handleAttachments := handleAttachments q;
     readJsonFile := f;
     writeJsonFile := writeJsonFile q;
     isoNow := isoNow q;
     localeToday := localeToday q;
     formatDate := formatDate q;
     wikiToMarkdown := wikiToMarkdown q;
     coerce := coerce q |}.

Definition configOf (batch : nat) (dry : bool) : Config :=
  mkConfig "https://jira.example" batch dry false "link" ∅ ∅.

Definition issueOf (jiraKey : string) : JiraIssue :=
  mkIssue jiraKey (Some "A title") MarkdownConverter.Absent MarkdownConverter.Absent
          MarkdownConverter.Absent (Some "Task") (Some "Open") None None None None None
          [] [] [].

Definition commentOf (text : string) : JiraComment :=
  mkComment (Some "Ann") (Some "2023-12-31") None (MarkdownConverter.Text text)
            MarkdownConverter.Absent.

(** X-1, ..., X-23 *)
Definition issues23 : list JiraIssue :=
  List.map (fun n => issueOf ("X-" ++ JsString.ofNat n)) (seq 1 23).

Definition migratedBefore : MappingEntry :=
  mkEntry (Some 7) (Some "https://github.example/7") None None "2023-12-31T00:00:00.000Z"
          "migrated".

Definition failedBefore : MappingEntry :=
  mkEntry None None (Some "boom") None "2023-12-31T00:00:00.000Z" "error".

(** A source that holds [all] and serves pages of at most [cap] issues; the
    world counts the searches. *)
Definition pagedSearch (all : list nat) (cap : nat) (jql : string) (from pageSize : nat)
           (w : nat) : Completion (JiraClient.SearchResult nat) JsError * nat :=
  let page := take (Nat.min pageSize cap) (drop from all) in
  (Returned (JiraClient.mkSearchResult page (length all) from (Nat.min pageSize cap)
                                       (from + length page <? length all)%nat),
   S w).

(** A destination that creates every issue asked for, numbering them from 1
    (the world is the number of issues created), and answers 503 to every
    update of an issue; its other requests succeed. *)
Definition neverCloses : GitHubClient.Api nat unit :=
  {| GitHubClient.searchIssues := fun _ w => (Returned [], w);
     GitHubClient.createLabel := fun _ _ w => (Returned tt, w);
     GitHubClient.downloadAttachment := fun _ _ w => (Returned tt, w);
     GitHubClient.uploadReleaseAsset :=
       fun _ _ file _ w => (Returned ("https://github.example/assets/" ++ file), w);
     GitHubClient.formatFileSize := fun _ => "1 KB";
     GitHubClient.issuesCreate :=
       fun t b _ _ w =>
         (Returned (GitHubClient.mkIssue (S w) t (Some b) "https://github.example/issue"),
          S w);
     GitHubClient.issuesUpdate :=
       fun _ _ w =>
         (Thrown (mkJsError (Some 503%Z) (Some "Service Unavailable") None), w) |}.

(** The same destination when no file can be downloaded from the source. *)
Definition noDownload : GitHubClient.Api nat unit :=
  {| GitHubClient.searchIssues := GitHubClient.searchIssues neverCloses;
     GitHubClient.createLabel := GitHubClient.createLabel neverCloses;
     GitHubClient.downloadAttachment := fun _ _ w => (Thrown serverError, w);
     GitHubClient.uploadReleaseAsset := GitHubClient.uploadReleaseAsset neverCloses;
     GitHubClient.formatFileSize := GitHubClient.formatFileSize neverCloses;
     GitHubClient.issuesCreate := GitHubClient.issuesCreate neverCloses;
     GitHubClient.issuesUpdate := GitHubClient.issuesUpdate neverCloses |}.

End Scenarios.
(** * Properties of the retry coordinator *)

Module RateLimiterProps.

Import RateLimiter.

Section Loop.
Context {W A : Type}.
Variable rl : t.
Variable fn : W -> Completion A JsError * W.

Lemma worldAfter_S (k : nat) (w : W) :
  worldAfter fn (S k) w = worldAfter fn k (snd (fn w)).
Proof. exact (Nat.iter_succ_r k (fun w0 => snd (fn w0)) w). Qed.

(** A transient error never takes the early exit. *)
Lemma transient_no_break (e : JsError) :
  transient e -> negb (isRateLimit e) && statusBelow500 e = false.
Proof.
  intros [Hrate | (s & Hs & Hge)].
  - rewrite Hrate. reflexivity.
  - unfold statusBelow500. rewrite Hs.
    replace (s <? 500)%Z with false by (symmetry; apply Z.ltb_ge; lia).
    apply andb_false_r.
Qed.

(** The loop from [attempt] on, when every remaining call fails with a
    transient error. *)
Lemma retryLoop_transient (remaining : nat) :
  forall (fuel attempt : nat) (lastError : option JsError) (w : W),
    attempt + remaining = maxRetries rl ->
    remaining < fuel ->
    (forall k, k <= remaining ->
               exists e, fst (fn (worldAfter fn k w)) = Thrown e /\ transient e) ->
    exists e evs,
      retryLoop rl fn fuel attempt lastError w
      = Some (Thrown (Some e), worldAfter fn (S remaining) w, evs)
      /\ fst (fn (worldAfter fn remaining w)) = Thrown e
      /\ invocations evs = S remaining
      /\ sleeps evs
         = List.map (fun a => (baseDelay rl * 2 ^ Z.of_nat a)%Z) (seq attempt remaining)
      /\ timeline evs = backoff (baseDelay rl) attempt remaining.
Proof.
  induction remaining as [| r IH]; intros fuel attempt lastError w Hsum Hfuel Hfail.
  - destruct fuel as [| fuel]; [lia |].
    destruct (Hfail 0 (le_n 0)) as (e & He & _). cbn in He.
    exists e, [Invoke]. simpl.
    replace (attempt <=? maxRetries rl)%nat with true by (symmetry; apply Nat.leb_le; lia).
    destruct (fn w) as [c w'] eqn:Hfn. cbn in He. subst c.
    replace (attempt =? maxRetries rl)%nat with true by (symmetry; apply Nat.eqb_eq; lia).
    cbn. auto.
  - destruct fuel as [| fuel]; [lia |].
    destruct (Hfail 0 (Nat.le_0_l _)) as (e0 & He0 & Ht0). cbn in He0.
    destruct (IH fuel (S attempt) (Some e0) (snd (fn w))) as (e & evs & Hrun & Hlast & Hinv & Hsl & Htl).
    + lia.
    + lia.
    + intros k Hk. rewrite <- worldAfter_S. apply Hfail. lia.
    + exists e. eexists.
      rewrite (worldAfter_S (S r) w), (worldAfter_S r w).
      cbn [retryLoop].
      replace (attempt <=? maxRetries rl)%nat with true by (symmetry; apply Nat.leb_le; lia).
      destruct (fn w) as [c w'] eqn:Hfn. cbn [fst snd] in *. subst c.
      replace (attempt =? maxRetries rl)%nat with false by (symmetry; apply Nat.eqb_neq; lia).
      rewrite (transient_no_break _ Ht0), Hrun.
      split; [reflexivity |].
      split; [exact Hlast |].
      split; [unfold invocations in *; cbn; rewrite Hinv; reflexivity |].
      split; [cbn; rewrite Hsl; reflexivity |].
      cbn. rewrite Htl. reflexivity.
Qed.

(** The loop always ends within the fuel [executeWithRetry] gives it. *)
Lemma retryLoop_enough_fuel (remaining : nat) :
  forall (fuel attempt : nat) (lastError : option JsError) (w : W),
    maxRetries rl - attempt <= remaining ->
    remaining < fuel ->
    exists r, retryLoop rl fn fuel attempt lastError w = Some r.
Proof.
  induction remaining as [| r IH]; intros fuel attempt lastError w Hrem Hfuel;
    (destruct fuel as [| fuel]; [lia |]); simpl.
  - destruct (attempt <=? maxRetries rl)%nat eqn:Hle; [| eauto].
    apply Nat.leb_le in Hle.
    destruct (fn w) as [[a | e] w']; [eauto |].
    replace (attempt =? maxRetries rl)%nat with true by (symmetry; apply Nat.eqb_eq; lia).
    eauto.
  - destruct (attempt <=? maxRetries rl)%nat eqn:Hle; [| eauto].
    destruct (fn w) as [[a | e] w']; [eauto |].
    destruct (attempt =? maxRetries rl)%nat; [eauto |].
    destruct (negb (isRateLimit e) && statusBelow500 e); [eauto |].
    destruct (IH fuel (S attempt) (Some e) w') as [[[c w''] evs] Hr]; [lia | lia |].
    rewrite Hr. eauto.
Qed.
End Loop.

(** [executeWithRetry] always completes: the fuel of the model never runs
    out. *)
Lemma executeWithRetry_total {W A : Type} (rl : t) (fn : W -> Completion A JsError * W)
      (w : W) :
  exists r, executeWithRetry rl fn w = Some r.
Proof.
  unfold executeWithRetry.
  apply (retryLoop_enough_fuel rl fn (S (maxRetries rl))); lia.
Qed.

(** C2. When every attempt fails with a transient error (rate limit or
    server class), [executeWithRetry] calls the operation exactly
    [maxRetries + 1] times, sleeps [baseDelay * 2^attempt] for
    [attempt = 0 .. maxRetries - 1] between consecutive calls and nowhere
    else, and throws the error of the last call. *)
Theorem executeWithRetry_transient_exhausts
        {W A : Type} (rl : t) (fn : W -> Completion A JsError * W) (w : W) :
  (forall k, k <= maxRetries rl ->
             exists e, fst (fn (worldAfter fn k w)) = Thrown e /\ transient e) ->
  exists lastError evs,
    executeWithRetry rl fn w
    = Some (Thrown (Some lastError), worldAfter fn (maxRetries rl + 1) w, evs)
    /\ fst (fn (worldAfter fn (maxRetries rl) w)) = Thrown lastError
    /\ invocations evs = maxRetries rl + 1
    /\ sleeps evs
       = List.map (fun attempt => (baseDelay rl * 2 ^ Z.of_nat attempt)%Z)
                  (seq 0 (maxRetries rl))
    /\ timeline evs = backoff (baseDelay rl) 0 (maxRetries rl).
Proof.
  intros Hfail. unfold executeWithRetry.
  destruct (retryLoop_transient rl fn (maxRetries rl) (S (S (maxRetries rl))) 0 None w)
    as (e & evs & Hrun & Hlast & Hinv & Hsl & Htl); [lia | lia | exact Hfail |].
  exists e, evs. rewrite Nat.add_1_r. auto.
Qed.

Lemma executeWithRetry_transient_exhausts_witness :
  exists lastError evs,
    executeWithRetry default Scenarios.alwaysUnavailable 0
    = Some (Thrown (Some lastError), 4, evs)
    /\ lastError = mkJsError (Some 503%Z) (Some "Service Unavailable") None
    /\ invocations evs = 4
    /\ sleeps evs = [1000; 2000; 4000]%Z.
Proof.
  destruct (executeWithRetry_transient_exhausts default Scenarios.alwaysUnavailable 0)
    as (e & evs & Hrun & Hlast & Hinv & Hsl & _).
  - intros k _. eexists. split; [reflexivity |].
    right. eexists. split; [reflexivity | lia].
  - exists e, evs. cbn in Hlast. inversion Hlast; subst e.
    repeat split; assumption.
Defined.

(** An error is no rate-limit error exactly when its status is not 429 and
    its message carries neither marker. *)
Lemma isRateLimit_false (error : JsError) :
  isRateLimit error = false
  <-> responseStatus error <> Some 429%Z
      /\ messageIncludes "rate limit" error = false
      /\ messageIncludes "too many requests" error = false.
Proof.
  unfold isRateLimit. rewrite !orb_false_iff.
  destruct (responseStatus error) as [s |].
  - rewrite Z.eqb_neq. split.
    + intros [[Hs H1] H2]. repeat split; [congruence | assumption | assumption].
    + intros (Hs & H1 & H2). repeat split; [congruence | assumption | assumption].
  - split.
    + intros [[_ H1] H2]. repeat split; [discriminate | assumption | assumption].
    + intros (_ & H1 & H2). repeat split; assumption.
Qed.

(** C4. A first failure with a client-class error that is no rate-limit
    error ends [executeWithRetry] at once: one call, no sleep, no log line,
    and that error is thrown. *)
Theorem executeWithRetry_client_error_fatal
        {W A : Type} (rl : t) (fn : W -> Completion A JsError * W) (w w' : W)
        (error : JsError) :
  fn w = (Thrown error, w') ->
  clientClass error ->
  isRateLimit error = false ->
  executeWithRetry rl fn w = Some (Thrown (Some error), w', [Invoke])
  /\ invocations [Invoke] = 1
  /\ sleeps [Invoke] = [].
Proof.
  intros Hfn (s & Hs & Hrange) Hrate.
  split; [| split; reflexivity].
  unfold executeWithRetry. simpl. rewrite Hfn.
  destruct (maxRetries rl) as [| n]; [reflexivity |].
  simpl. rewrite Hrate. unfold statusBelow500. rewrite Hs.
  replace (s <? 500)%Z with true by (symmetry; apply Z.ltb_lt; lia).
  reflexivity.
Qed.

Lemma executeWithRetry_client_error_fatal_witness :
  executeWithRetry default Scenarios.alwaysNotFound 0
  = Some (Thrown (Some (mkJsError (Some 404%Z) (Some "Not Found") None)), 1, [Invoke])
  /\ invocations [Invoke] = 1
  /\ sleeps [Invoke] = [].
Proof.
  apply (executeWithRetry_client_error_fatal default Scenarios.alwaysNotFound 0 1).
  - reflexivity.
  - exists 404%Z. split; [reflexivity | lia].
  - reflexivity.
Defined.

(** The cases of the test suite. *)
Example executeWithRetry_first_try :
  executeWithRetry (mk 3 100) Scenarios.succeeds 0 = Some (Returned "success", 1, [Invoke]).
Proof. reflexivity. Qed.

Example executeWithRetry_retries_rate_limit :
  exists evs,
    executeWithRetry (mk 2 50) Scenarios.rateLimitedOnce 0 = Some (Returned "success", 2, evs)
    /\ invocations evs = 2
    /\ sleeps evs = [50%Z].
Proof. eexists. split; [reflexivity | split; reflexivity]. Qed.

Example executeWithRetry_fails_after_max_retries :
  exists evs,
    executeWithRetry (mk 1 10) Scenarios.persistentError 0
    = Some (Thrown (Some (mkJsError None (Some "persistent error") None)), 2, evs)
    /\ invocations evs = 2
    /\ sleeps evs = [10%Z].
Proof. eexists. split; [reflexivity | split; reflexivity]. Qed.

End RateLimiterProps.

(** * Properties of the string helpers *)

Module JsStringProps.

Import JsString.

Lemma startsWith_spec (p s : string) :
  startsWith p s = true <-> exists post, s = p ++ post.
Proof.
  revert s. induction p as [| a p IH]; intros s; simpl.
  - split; [intros _; exists s; reflexivity | reflexivity].
  - destruct s as [| b s].
    + split; [discriminate | intros [post H]; discriminate].
    + destruct (Ascii.eqb_spec a b) as [-> | Hne].
      * rewrite IH. split; intros [post H]; exists post; [rewrite H; reflexivity |].
        simpl in H. injection H as H. exact H.
      * split; [discriminate |]. intros [post H]. simpl in H. injection H as Hab _.
        congruence.
Qed.

(** [includes] is substring containment. *)
Lemma includes_spec (needle s : string) :
  includes needle s = true <-> exists pre post, s = pre ++ needle ++ post.
Proof.
  induction s as [| c s IH]; simpl.
  - rewrite orb_false_r, startsWith_spec. split.
    + intros [post H]. exists EmptyString, post. exact H.
    + intros (pre & post & H). destruct pre as [| a pre]; [eauto | discriminate].
  - rewrite orb_true_iff, startsWith_spec, IH. split.
    + intros [[post H] | (pre & post & H)].
      * exists EmptyString, post. exact H.
      * exists (String c pre), post. simpl. rewrite H. reflexivity.
    + intros (pre & post & H). destruct pre as [| a pre].
      * left. exists post. exact H.
      * right. simpl in H. injection H as _ H. eauto.
Qed.

Lemma append_assoc (a b c : string) : (a ++ b) ++ c = a ++ b ++ c.
Proof.
  induction a as [| x a IH]; [reflexivity |].
  change (String x ((a ++ b) ++ c) = String x (a ++ b ++ c)).
  rewrite IH. reflexivity.
Qed.

Example ofNat_examples :
  ofNat 0 = "0" /\ ofNat 1 = "1" /\ ofNat 10 = "10" /\ ofNat 23 = "23" /\ ofNat 407 = "407".
Proof. repeat split; reflexivity. Qed.

Example trim_examples :
  trim "  A " = "A" /\ trim ("B" ++ LF ++ LF) = "B" /\ trim " a b " = "a b" /\ trim "  " = "".
Proof. repeat split; reflexivity. Qed.

Example toLowerCase_examples :
  toLowerCase "In Review" = "in review" /\ toLowerCase "RESOLVED-2" = "resolved-2".
Proof. repeat split; reflexivity. Qed.

End JsStringProps.

(** * Properties of the status mapper *)

Module StatusMapperProps.

Import StatusMapper.





(** The cases of the test suite. *)
Example mapStatus_custom_mapping :
  let mapping : gmap string string := {[ "In Progress" := "open"; "Done" := "closed" ]} in
  mapStatus mapping "In Progress" = "open" /\ mapStatus mapping "Done" = "closed".
Proof. split; reflexivity. Qed.

Example mapStatus_default_mapping :
  mapStatus ∅ "Closed" = "closed"
  /\ mapStatus ∅ "Resolved" = "closed"
  /\ mapStatus ∅ "Complete" = "closed"
  /\ mapStatus ∅ "To Do" = "open"
  /\ mapStatus ∅ "In Progress" = "open".
Proof. repeat split; reflexivity. Qed.

End StatusMapperProps.

(** * Properties of the document converter *)

Module MarkdownConverterProps.

Import MarkdownConverter.

(** A list node with children renders one [listLine] per child and a final
    line feed. *)
Lemma extract_list (ordered : bool) text level alt (items : list Adf) :
  extractTextFromADF
    (Node (Some (if ordered then "orderedList" else "bulletList")) text level alt (Some items))
  = JsString.join
      (imap (fun index item =>
               listPrefix ordered index
               ++ JsString.trim (extractTextFromADF item) ++ JsString.LF)
            items)
    ++ JsString.LF.
Proof.
  destruct ordered; cbn -[JsString.join JsString.LF imap];
    rewrite imap_fmap; reflexivity.
Qed.

(** C9. The document paragraph(Hello), bulletList[item(A), item(B)] is
    converted to the lines Hello, (blank), - A, - B, (blank); and every
    bulletList or orderedList node with children renders, for the child at
    index i, the prefix (a dash and a space, or i+1, a dot and a space), the
    trimmed text of the child and a line feed, and after the last child one
    more line feed. *)
Theorem adf_lists_render (wiki : string -> string) (coerce : Adf -> string) :
  let item := fun s => listItem [paragraph [text s]] in
  let document := doc [paragraph [text "Hello"]; bulletList [item "A"; item "B"]] in
  toMarkdown wiki coerce (Object document)
  = "Hello" ++ JsString.LF ++ JsString.LF
    ++ "- A" ++ JsString.LF ++ "- B" ++ JsString.LF ++ JsString.LF
  /\ JsString.lines (toMarkdown wiki coerce (Object document))
     = ["Hello"; ""; "- A"; "- B"; ""; ""]
  /\ toMarkdown wiki coerce
       (Object (doc [paragraph [text "Hello"];
                     bulletList [listItem [text "A"]; listItem [text "B"]]]))
     = toMarkdown wiki coerce (Object document)
  /\ (forall text level alt (items : list Adf),
        extractTextFromADF (Node (Some "bulletList") text level alt (Some items))
        = JsString.join
            (imap (fun index item =>
                     "- " ++ JsString.trim (extractTextFromADF item) ++ JsString.LF)
                  items)
          ++ JsString.LF)
  /\ (forall text level alt (items : list Adf),
        extractTextFromADF (Node (Some "orderedList") text level alt (Some items))
        = JsString.join
            (imap (fun index item =>
                     JsString.ofNat (index + 1) ++ ". "
                     ++ JsString.trim (extractTextFromADF item) ++ JsString.LF)
                  items)
          ++ JsString.LF).
Proof.
  cbv zeta. split; [reflexivity |]. split; [reflexivity |]. split; [reflexivity |].
  split; intros text level alt items.
  - apply (extract_list false).
  - rewrite (extract_list true). unfold listPrefix.
    f_equal. f_equal. apply imap_ext. intros index item0 _.
    apply JsStringProps.append_assoc.
Qed.

(** Nothing to convert gives the empty string. *)
Lemma toMarkdown_empty (wiki : string -> string) (coerce : Adf -> string) :
  toMarkdown wiki coerce Absent = "" /\ toMarkdown wiki coerce (Text "") = "".
Proof. split; reflexivity. Qed.

End MarkdownConverterProps.

(** * Properties of the orchestrator *)

Module MigratorProps.

Import Migrator.

#[local] Open Scope list_scope.

Section Combinators.
Context {W : Type}.
Variable svc : Services W.

Lemma writes_app (cs cs' : list Call) : writes (cs ++ cs') = writes cs ++ writes cs'.
Proof.
  induction cs as [| c cs IH]; [reflexivity |].
  destruct c; simpl; rewrite ?IH; reflexivity.
Qed.

Lemma sameCounters_refl (s : Stats) : sameCounters s s.
Proof. repeat split. Qed.

Lemma sameCounters_trans (s1 s2 s3 : Stats) :
  sameCounters s1 s2 -> sameCounters s2 s3 -> sameCounters s1 s3.
Proof. unfold sameCounters. intuition congruence. Qed.

Lemma Frame_refl (st : State W) : Frame st st.
Proof.
  split; try reflexivity.
  - apply sameCounters_refl.
  - exists []. rewrite app_nil_r. split; reflexivity.
  - exists []. rewrite app_nil_r. reflexivity.
Qed.

Lemma Frame_trans (st1 st2 st3 : State W) :
  Frame st1 st2 -> Frame st2 st3 -> Frame st1 st3.
Proof.
  intros [Hc1 Hm1 Hs1 (cs1 & Hcs1 & Hw1) (ls1 & Hl1)]
         [Hc2 Hm2 Hs2 (cs2 & Hcs2 & Hw2) (ls2 & Hl2)].
  split.
  - congruence.
  - congruence.
  - eapply sameCounters_trans; eassumption.
  - exists (cs1 ++ cs2). rewrite Hcs2, Hcs1, <- app_assoc, writes_app, Hw1, Hw2.
    split; reflexivity.
  - exists (ls1 ++ ls2). rewrite Hl2, Hl1, <- app_assoc. reflexivity.
Qed.

(** *** [framed] goes through the constructions of the monad *)

Lemma framed_ret {A : Type} (a : A) : framed (@ret W A a).
Proof. intros st. apply Frame_refl. Qed.

Lemma framed_throw {A : Type} (e : JsError) : framed (@throw W A e).
Proof. intros st. apply Frame_refl. Qed.

Lemma framed_getConfig : framed (@getConfig W).
Proof. intros st. apply Frame_refl. Qed.

Lemma framed_clock (f : W -> string) : framed (clock f).
Proof. intros st. apply Frame_refl. Qed.

Lemma framed_bind {A B : Type} (m : M A) (k : A -> @M W B) :
  framed m -> (forall a, framed (k a)) -> framed (bind m k).
Proof.
  intros Hm Hk st. unfold bind. specialize (Hm st).
  destruct (m st) as [[a | e] st1]; cbn in *; [| exact Hm].
  eapply Frame_trans; [exact Hm | apply Hk].
Qed.

Lemma framed_tryCatch {A : Type} (m : M A) (handler : JsError -> @M W A) :
  framed m -> (forall e, framed (handler e)) -> framed (tryCatch m handler).
Proof.
  intros Hm Hh st. unfold tryCatch. specialize (Hm st).
  destruct (m st) as [[a | e] st1]; cbn in *; [exact Hm |].
  eapply Frame_trans; [exact Hm | apply Hh].
Qed.

Lemma framed_log (level : Level) (msg : string) : framed (@log W level msg).
Proof.
  intros st. split; cbn; try reflexivity.
  - apply sameCounters_refl.
  - exists []. rewrite app_nil_r. split; reflexivity.
  - eexists. reflexivity.
Qed.

Lemma framed_call {A : Type} (c : Call) (f : W -> Completion A JsError * W) :
  isWrite c = false -> framed (call c f).
Proof.
  intros Hc st. unfold call. destruct (f (world st)) as [r w']. split; cbn; try reflexivity.
  - apply sameCounters_refl.
  - exists [c]. split; [reflexivity |]. destruct c; try reflexivity; discriminate.
  - exists []. rewrite app_nil_r. reflexivity.
Qed.

Lemma framed_modifyStats (f : Stats -> Stats) :
  (forall s, sameCounters s (f s)) -> framed (@modifyStats W f).
Proof.
  intros Hf st. split; cbn; try reflexivity.
  - apply Hf.
  - exists []. rewrite app_nil_r. split; reflexivity.
  - exists []. rewrite app_nil_r. reflexivity.
Qed.

Lemma framed_forEach {A : Type} (f : A -> @M W unit) (xs : list A) :
  (forall x, framed (f x)) -> framed (forEach f xs).
Proof.
  intros Hf. induction xs as [| x xs IH]; simpl.
  - apply framed_ret.
  - apply framed_bind; [apply Hf | intros _; exact IH].
Qed.

(** *** [respects] goes through them too *)

Lemma respects_ret {A : Type} (a : A) : respects (@ret W A a).
Proof. intros a0 b Hab. split; [reflexivity | exact Hab]. Qed.

Lemma respects_throw {A : Type} (e : JsError) : respects (@throw W A e).
Proof. intros a0 b Hab. split; [reflexivity | exact Hab]. Qed.

Lemma respects_getConfig : respects (@getConfig W).
Proof.
  intros a b Hab. split; [| exact Hab].
  destruct Hab as (Hc & _). cbn. rewrite Hc. reflexivity.
Qed.

Lemma respects_clock (f : W -> string) : respects (clock f).
Proof.
  intros a b Hab. split; [| exact Hab].
  destruct Hab as (_ & _ & Hw & _). cbn. rewrite Hw. reflexivity.
Qed.

Lemma respects_bind {A B : Type} (m : M A) (k : A -> @M W B) :
  respects m -> (forall a, respects (k a)) -> respects (bind m k).
Proof.
  intros Hm Hk a b Hab. unfold bind. destruct (Hm a b Hab) as [Hr Hs].
  destruct (m a) as [[x | e] a1], (m b) as [[y | e'] b1]; cbn in *; try discriminate.
  - injection Hr as ->. apply Hk, Hs.
  - injection Hr as ->. split; [reflexivity | exact Hs].
Qed.

Lemma respects_tryCatch {A : Type} (m : M A) (handler : JsError -> @M W A) :
  respects m -> (forall e, respects (handler e)) -> respects (tryCatch m handler).
Proof.
  intros Hm Hh a b Hab. unfold tryCatch. destruct (Hm a b Hab) as [Hr Hs].
  destruct (m a) as [[x | e] a1], (m b) as [[y | e'] b1]; cbn in *; try discriminate.
  - injection Hr as ->. split; [reflexivity | exact Hs].
  - injection Hr as ->. apply Hh, Hs.
Qed.

Lemma respects_log (level : Level) (msg : string) : respects (@log W level msg).
Proof. intros a b Hab. split; [reflexivity | exact Hab]. Qed.

Lemma respects_call {A : Type} (c : Call) (f : W -> Completion A JsError * W) :
  respects (call c f).
Proof.
  intros a b (Hc & Hs & Hw & Hcs). unfold call. rewrite Hw.
  destruct (f (world b)) as [r w']. cbn. rewrite Hcs. repeat split; assumption.
Qed.

Lemma respects_modifyStats (f : Stats -> Stats) : respects (@modifyStats W f).
Proof.
  intros a b (Hc & Hs & Hw & Hcs). cbn. rewrite Hs. repeat split; assumption.
Qed.

Lemma respects_forEach {A : Type} (f : A -> @M W unit) (xs : list A) :
  (forall x, respects (f x)) -> respects (forEach f xs).
Proof.
  intros Hf. induction xs as [| x xs IH]; simpl.
  - apply respects_ret.
  - apply respects_bind; [apply Hf | intros _; exact IH].
Qed.

End Combinators.

(** Take a monadic term apart along its binds, tests and loops. *)
Ltac framing :=
  repeat first
    [ progress intros
    | apply framed_bind
    | apply framed_tryCatch
    | apply framed_forEach
    | apply framed_ret
    | apply framed_throw
    | apply framed_getConfig
    | apply framed_clock
    | apply framed_log
    | apply framed_call; reflexivity
    | apply framed_modifyStats; intros ?; repeat split
    | match goal with
      | |- framed (if ?b then _ else _) => destruct b
      | |- framed (match ?x with _ => _ end) => destruct x
      end ].

Ltac respecting :=
  repeat first
    [ progress intros
    | apply respects_bind
    | apply respects_tryCatch
    | apply respects_forEach
    | apply respects_ret
    | apply respects_throw
    | apply respects_getConfig
    | apply respects_clock
    | apply respects_log
    | apply respects_call
    | apply respects_modifyStats
    | match goal with
      | |- respects (if ?b then _ else _) => destruct b
      | |- respects (match ?x with _ => _ end) => destruct x
      end ].

Section Methods.
Context {W : Type}.
Variable svc : Services W.

Lemma framed_buildGitHubBody (jiraIssue : JiraIssue) (aiSummary : option string) :
  framed (buildGitHubBody svc jiraIssue aiSummary).
Proof. unfold buildGitHubBody. framing. Qed.

Lemma framed_mapStatusOf (m : gmap string string) (name : option string) :
  framed (@mapStatusOf W m name).
Proof. unfold mapStatusOf. framing. Qed.

Lemma framed_convertAndCreateIssue (jiraIssue : JiraIssue) (aiSummary : option string) :
  framed (convertAndCreateIssue svc jiraIssue aiSummary).
Proof.
  unfold convertAndCreateIssue.
  apply framed_bind; [apply framed_buildGitHubBody |]. intros body.
  apply framed_bind; [apply framed_getConfig |]. intros cfg.
  apply framed_bind; [apply framed_mapStatusOf |]. framing.
Qed.

Lemma framed_migrateComment (c : JiraComment) (n : nat) :
  framed (migrateComment svc c n).
Proof. unfold migrateComment. framing. Qed.

Lemma framed_replicateComments (jiraIssue : JiraIssue) (n : nat) :
  framed (replicateComments svc jiraIssue n).
Proof.
  unfold replicateComments.
  apply framed_bind; [apply framed_call; reflexivity |]. intros comments.
  destruct (length comments =? 0)%nat; [apply framed_ret |].
  apply framed_bind; [apply framed_log |]. intros _.
  apply framed_forEach. intros c.
  apply framed_bind; [apply framed_migrateComment |]. framing.
Qed.

Lemma framed_migrateComments (jiraIssue : JiraIssue) (n : nat) :
  framed (migrateComments svc jiraIssue n).
Proof.
  unfold migrateComments.
  apply framed_tryCatch; [apply framed_replicateComments | intros e; apply framed_log].
Qed.

Lemma respects_buildGitHubBody (jiraIssue : JiraIssue) (aiSummary : option string) :
  respects (buildGitHubBody svc jiraIssue aiSummary).
Proof. unfold buildGitHubBody. respecting. Qed.

Lemma respects_mapStatusOf (m : gmap string string) (name : option string) :
  respects (@mapStatusOf W m name).
Proof. unfold mapStatusOf. respecting. Qed.

Lemma respects_convertAndCreateIssue (jiraIssue : JiraIssue) (aiSummary : option string) :
  respects (convertAndCreateIssue svc jiraIssue aiSummary).
Proof.
  unfold convertAndCreateIssue.
  apply respects_bind; [apply respects_buildGitHubBody |]. intros body.
  apply respects_bind; [apply respects_getConfig |]. intros cfg.
  apply respects_bind; [apply respects_mapStatusOf |]. respecting.
Qed.

Lemma respects_migrateComments (jiraIssue : JiraIssue) (n : nat) :
  respects (migrateComments svc jiraIssue n).
Proof.
  unfold migrateComments, replicateComments.
  apply respects_tryCatch; [| intros e; apply respects_log].
  apply respects_bind; [apply respects_call |]. intros comments.
  destruct (length comments =? 0)%nat; [apply respects_ret |].
  apply respects_bind; [apply respects_log |]. intros _.
  apply respects_forEach. intros c. unfold migrateComment. respecting.
Qed.

(** [migrateComments] never throws. *)
Lemma migrateComments_returns (jiraIssue : JiraIssue) (n : nat) (st : State W) :
  fst (migrateComments svc jiraIssue n st) = Returned tt.
Proof.
  unfold migrateComments, tryCatch.
  destruct (replicateComments svc jiraIssue n st) as [[[] | e] st1]; reflexivity.
Qed.

End Methods.

(** * One issue, path by path *)

Ltac run_processIssue :=
  unfold processIssue, tryCatch, bind, modifyStats, get, log, call, clock, setMapping, ret;
  cbn [config mapping stats world calls logged fst snd].

Section ProcessIssue.
Context {W : Type}.
Variable svc : Services W.
Variable jiraIssue : JiraIssue.
Variable aiSummary : option string.
Variable st : State W.

Let jiraKey : string := key jiraIssue.

(** An item already migrated, or already found at the destination. *)
Lemma processIssue_skip :
  hasStatus (mapping st) jiraKey "migrated" = true
  \/ hasStatus (mapping st) jiraKey "existing" = true ->
  exists note,
    processIssue svc jiraIssue aiSummary st
    = (Returned tt,
       mkState (config st) (mapping st) (incSkipped (incProcessed (stats st))) (world st)
               (calls st) (logged st ++ [(Debug, note)])).
Proof.
  subst jiraKey. intros H. run_processIssue.
  destruct (hasStatus (mapping st) (key jiraIssue) "migrated") eqn:Hm.
  - eexists. reflexivity.
  - destruct H as [H | H]; [discriminate |]. rewrite H. eexists. reflexivity.
Qed.

Hypothesis not_migrated : hasStatus (mapping st) jiraKey "migrated" = false.
Hypothesis not_existing : hasStatus (mapping st) jiraKey "existing" = false.

(** The search at the destination throws. *)
Lemma processIssue_search_failed (e : JsError) (w : W) :
  findExistingIssue svc jiraKey (world st) = (Thrown e, w) ->
  exists notes,
    processIssue svc jiraIssue aiSummary st
    = (Returned tt,
       mkState (config st) (<[jiraKey := errorEntry e (isoNow svc w)]> (mapping st))
               (incErrors (incProcessed (stats st))) w
               (calls st ++ [FindExistingIssue jiraKey])
               (logged st ++ retryNote (mapping st) jiraKey ++ notes)).
Proof.
  subst jiraKey. intros Hf. run_processIssue. rewrite not_migrated, not_existing.
  unfold retryNote.
  destruct (hasStatus (mapping st) (key jiraIssue) "error");
    cbn [config mapping stats world calls logged fst snd]; rewrite Hf;
    cbn [config mapping stats world calls logged fst snd];
    eexists; rewrite <- ?app_assoc; reflexivity.
Qed.

(** The search finds the issue. *)
Lemma processIssue_found (existing : GitHubIssue) (w : W) :
  findExistingIssue svc jiraKey (world st) = (Returned (Some existing), w) ->
  exists notes,
    processIssue svc jiraIssue aiSummary st
    = (Returned tt,
       mkState (config st)
               (<[jiraKey := mkEntry (Some (number existing)) (Some (html_url existing))
                                     None None (isoNow svc w) "existing"]> (mapping st))
               (incSkipped (incProcessed (stats st))) w
               (calls st ++ [FindExistingIssue jiraKey])
               (logged st ++ retryNote (mapping st) jiraKey ++ notes)).
Proof.
  subst jiraKey. intros Hf. run_processIssue. rewrite not_migrated, not_existing.
  unfold retryNote.
  destruct (hasStatus (mapping st) (key jiraIssue) "error");
    cbn [config mapping stats world calls logged fst snd]; rewrite Hf;
    cbn [config mapping stats world calls logged fst snd];
    eexists; rewrite <- ?app_assoc; reflexivity.
Qed.

(** The search finds nothing and the run is a dry run. *)
Lemma processIssue_dry_run (w : W) :
  findExistingIssue svc jiraKey (world st) = (Returned None, w) ->
  dryRun (config st) = true ->
  exists notes,
    processIssue svc jiraIssue aiSummary st
    = (Returned tt,
       mkState (config st) (mapping st) (incCreated (incProcessed (stats st))) w
               (calls st ++ [FindExistingIssue jiraKey])
               (logged st ++ retryNote (mapping st) jiraKey ++ notes)).
Proof.
  subst jiraKey. intros Hf Hdry. run_processIssue. rewrite not_migrated, not_existing.
  unfold retryNote.
  destruct (hasStatus (mapping st) (key jiraIssue) "error");
    cbn [config mapping stats world calls logged fst snd]; rewrite Hf;
    cbn [config mapping stats world calls logged fst snd]; rewrite Hdry;
    cbn [config mapping stats world calls logged fst snd];
    eexists; rewrite <- ?app_assoc; reflexivity.
Qed.

(** The search finds nothing and the creation throws. *)
Lemma processIssue_create_failed (w : W) (e : JsError) (st2 : State W) :
  findExistingIssue svc jiraKey (world st) = (Returned None, w) ->
  dryRun (config st) = false ->
  convertAndCreateIssue svc jiraIssue aiSummary (searched jiraIssue st w) = (Thrown e, st2) ->
  exists notes,
    processIssue svc jiraIssue aiSummary st
    = (Returned tt,
       mkState (config st2) (<[jiraKey := errorEntry e (isoNow svc (world st2))]> (mapping st2))
               (incErrors (stats st2)) (world st2) (calls st2) (logged st2 ++ notes)).
Proof.
  subst jiraKey. intros Hf Hdry Hc. run_processIssue. rewrite not_migrated, not_existing.
  unfold searched, retryNote in Hc.
  destruct (hasStatus (mapping st) (key jiraIssue) "error");
    cbn [config mapping stats world calls logged fst snd]; rewrite Hf;
    cbn [config mapping stats world calls logged fst snd]; rewrite Hdry;
    rewrite ?app_nil_r in Hc; rewrite Hc;
    cbn [config mapping stats world calls logged fst snd];
    eexists; rewrite <- ?app_assoc; reflexivity.
Qed.

(** The search finds nothing and the issue is created: the entry is
    recorded, then the comments are replicated. *)
Lemma processIssue_created (w : W) (githubIssue : GitHubIssue) (st2 : State W) :
  findExistingIssue svc jiraKey (world st) = (Returned None, w) ->
  dryRun (config st) = false ->
  convertAndCreateIssue svc jiraIssue aiSummary (searched jiraIssue st w)
  = (Returned githubIssue, st2) ->
  let recorded :=
    mkState (config st2)
            (<[jiraKey := migratedEntry githubIssue (isoNow svc (world st2))]> (mapping st2))
            (stats st2) (world st2) (calls st2) (logged st2) in
  let st3 := snd (migrateComments svc jiraIssue (number githubIssue) recorded) in
  exists note,
    processIssue svc jiraIssue aiSummary st
    = (Returned tt,
       mkState (config st3) (mapping st3) (incCreated (stats st3)) (world st3) (calls st3)
               (logged st3 ++ [(Success, note)])).
Proof.
  subst jiraKey. intros Hf Hdry Hc. cbv zeta. unfold migratedEntry. run_processIssue.
  rewrite not_migrated, not_existing.
  unfold searched, retryNote in Hc.
  destruct (hasStatus (mapping st) (key jiraIssue) "error");
    cbn [config mapping stats world calls logged fst snd]; rewrite Hf;
    cbn [config mapping stats world calls logged fst snd]; rewrite Hdry;
    rewrite ?app_nil_r in Hc; rewrite Hc;
    cbn [config mapping stats world calls logged fst snd];
    match goal with
    | |- context [migrateComments svc jiraIssue ?n ?r] =>
        pose proof (migrateComments_returns svc jiraIssue n r) as Hret;
        destruct (migrateComments svc jiraIssue n r) as [[[] | e] st3];
        cbn in Hret; try discriminate
    end;
    cbn [config mapping stats world calls logged fst snd];
    eexists; reflexivity.
Qed.

End ProcessIssue.

(** * What every call of [processIssue] does *)

Section Effects.
Context {W : Type}.
Variable svc : Services W.

Lemma Frame_writes (a b : State W) : Frame a b -> writes (calls b) = writes (calls a).
Proof.
  intros [_ _ _ (cs & Hcs & Hw) _]. rewrite Hcs, writes_app, Hw, app_nil_r. reflexivity.
Qed.

Lemma hasStatus_absent (m : gmap string MappingEntry) (k name : string) :
  m !! k = None -> hasStatus m k name = false.
Proof. intros H. unfold hasStatus. rewrite H. reflexivity. Qed.

Lemma hasStatus_entry (m : gmap string MappingEntry) (k name : string) (e : MappingEntry) :
  m !! k = Some e -> hasStatus m k name = String.eqb (status e) name.
Proof. intros H. unfold hasStatus. rewrite H. reflexivity. Qed.

Lemma hasStatus_in_dom (m : gmap string MappingEntry) (k name : string) :
  hasStatus m k name = true -> k ∈ dom m.
Proof.
  unfold hasStatus. destruct (m !! k) eqn:H; [| discriminate].
  intros _. apply elem_of_dom. eauto.
Qed.

Lemma processIssue_effect (jiraIssue : JiraIssue) (aiSummary : option string) (st : State W) :
  let r := processIssue svc jiraIssue aiSummary st in
  fst r = Returned tt
  /\ config (snd r) = config st
  /\ countedOnce (stats st) (stats (snd r))
  /\ writes (calls (snd r)) = writes (calls st)
  /\ (mapping (snd r) = mapping st
      \/ exists entry, mapping (snd r) = <[key jiraIssue := entry]> (mapping st))
  /\ (dryRun (config st) = false ->
      dom (mapping (snd r)) = {[key jiraIssue]} ∪ dom (mapping st)).
Proof.
  cbv zeta. unfold countedOnce.
  destruct (hasStatus (mapping st) (key jiraIssue) "migrated") eqn:Hm;
    [| destruct (hasStatus (mapping st) (key jiraIssue) "existing") eqn:He].
  1, 2:
    (destruct (processIssue_skip svc jiraIssue aiSummary st) as [note ->];
     [auto |]; cbn; repeat split; auto;
     intros _;
     symmetry; apply subseteq_union_1_L, singleton_subseteq_l;
     eapply hasStatus_in_dom; eassumption).
  destruct (findExistingIssue svc (key jiraIssue) (world st)) as [[[existing |] | e] w] eqn:Hf.
  - destruct (processIssue_found svc jiraIssue aiSummary st Hm He existing w Hf) as [notes ->].
    cbn. rewrite writes_app, app_nil_r.
    repeat split; eauto; try (intros _; apply dom_insert_L).
  - destruct (dryRun (config st)) eqn:Hdry.
    + destruct (processIssue_dry_run svc jiraIssue aiSummary st Hm He w Hf Hdry) as [notes ->].
      cbn. rewrite writes_app, app_nil_r. repeat split; auto. discriminate.
    + pose proof (framed_convertAndCreateIssue svc jiraIssue aiSummary
                    (searched jiraIssue st w)) as Hfr.
      destruct (convertAndCreateIssue svc jiraIssue aiSummary (searched jiraIssue st w))
        as [[githubIssue | e] st2] eqn:Hc; cbn [snd] in Hfr.
      * destruct (processIssue_created svc jiraIssue aiSummary st Hm He w githubIssue st2
                    Hf Hdry Hc) as [note ->].
        match goal with
        | |- context [migrateComments svc jiraIssue ?n ?r] =>
            pose proof (framed_migrateComments svc jiraIssue n r) as Hfc;
            destruct (migrateComments svc jiraIssue n r) as [c st3]
        end.
        cbn [fst snd config mapping stats world calls logged] in *.
        destruct Hfc as [Hc3 Hm3 (Hp3 & Hcr3 & Hsk3 & Her3) Hw3 _].
        pose proof (Frame_writes _ _ Hfr) as Hw2.
        destruct Hfr as [Hc2 Hm2 (Hp2 & Hcr2 & Hsk2 & Her2) _ _].
        destruct Hw3 as (cs3 & Hcs3 & Hws3). unfold searched in *.
        cbn [fst snd config mapping stats world calls logged processed created skipped
             errors incProcessed incCreated] in *.
        rewrite Hcs3, writes_app, Hws3, app_nil_r, Hw2, writes_app, app_nil_r.
        rewrite Hm3, Hm2, Hc3, Hc2.
        repeat split; eauto; try lia; try (intros _; apply dom_insert_L).
      * destruct (processIssue_create_failed svc jiraIssue aiSummary st Hm He w e st2
                    Hf Hdry Hc) as [notes ->].
        pose proof (Frame_writes _ _ Hfr) as Hw2.
        destruct Hfr as [Hc2 Hm2 (Hp2 & Hcr2 & Hsk2 & Her2) _ _]. unfold searched in *.
        cbn [fst snd config mapping stats world calls logged processed created skipped
             errors incProcessed incErrors] in *.
        rewrite Hw2, writes_app, app_nil_r, Hm2, Hc2.
        repeat split; eauto; try lia; try (intros _; apply dom_insert_L).
  - destruct (processIssue_search_failed svc jiraIssue aiSummary st Hm He e w Hf) as [notes ->].
    cbn. rewrite writes_app, app_nil_r.
    repeat split; eauto; try (intros _; apply dom_insert_L).
Qed.

End Effects.

(** * The items of a batch *)

Section Batch.
Context {W : Type}.
Variable svc : Services W.
Variable summaries : gmap string string.

Lemma processBatchItems_cons (x : JiraIssue) (xs : list JiraIssue) (st : State W) :
  processBatchItems svc summaries (x :: xs) st
  = processBatchItems svc summaries xs
      (snd (processIssue svc x (summaries !! key x) st)).
Proof.
  unfold processBatchItems. simpl. unfold bind at 1.
  pose proof (processIssue_effect svc x (summaries !! key x) st) as (Hr & _).
  destruct (processIssue svc x (summaries !! key x) st) as [[[] | e] st1];
    [reflexivity | discriminate].
Qed.

Lemma balanced_step (s s' : Stats) : balanced s -> countedOnce s s' -> balanced s'.
Proof. unfold balanced, countedOnce. lia. Qed.

Lemma processBatchItems_effect (items : list JiraIssue) :
  forall st : State W,
    let r := processBatchItems svc summaries items st in
    fst r = Returned tt
    /\ config (snd r) = config st
    /\ processed (stats (snd r)) = processed (stats st) + length items
    /\ writes (calls (snd r)) = writes (calls st)
    /\ (balanced (stats st) -> balanced (stats (snd r)))
    /\ (dryRun (config st) = false ->
        dom (mapping (snd r)) = list_to_set (key <$> items) ∪ dom (mapping st)).
Proof.
  induction items as [| x xs IH]; intros st.
  - cbn. repeat split; auto. intros _. symmetry. apply (left_id_L ∅ (∪)).
  - cbv zeta. rewrite processBatchItems_cons.
    pose proof (processIssue_effect svc x (summaries !! key x) st)
      as (_ & Hc & Hcount & Hw & _ & Hdom).
    specialize (IH (snd (processIssue svc x (summaries !! key x) st))).
    cbv zeta in IH. destruct IH as (Hr' & Hc' & Hp' & Hw' & Hb' & Hdom').
    split; [exact Hr' |]. split; [congruence |].
    split; [destruct Hcount as [Hp _]; cbn [length]; lia |].
    split; [congruence |].
    split; [intros Hb; apply Hb'; eapply balanced_step; eassumption |].
    intros Hdry. rewrite Hdom', Hdom by congruence. cbn [fmap list_fmap list_to_set].
    rewrite (assoc_L (∪)), (comm_L (∪) (list_to_set _) {[ key x ]}). reflexivity.
Qed.

End Batch.

(** * The batches and the run *)

Section Run.
Context {W : Type}.
Variable svc : Services W.

Lemma writesNothing_framed {A : Type} (m : @M W A) : framed m -> writesNothing m.
Proof. intros Hm st. apply Frame_writes, Hm. Qed.

Lemma writesNothing_bind {A B : Type} (m : M A) (k : A -> @M W B) :
  writesNothing m -> (forall a, writesNothing (k a)) -> writesNothing (bind m k).
Proof.
  intros Hm Hk st. unfold bind. specialize (Hm st).
  destruct (m st) as [[a | e] st1]; cbn in *; [| exact Hm].
  rewrite Hk. exact Hm.
Qed.

Lemma writesNothing_replaceMapping (m : gmap string MappingEntry) :
  writesNothing (@replaceMapping W m).
Proof. intros st. reflexivity. Qed.

Lemma writesNothing_setIncludeSummary (b : bool) : writesNothing (@setIncludeSummary W b).
Proof. intros st. reflexivity. Qed.

Lemma writesNothing_get : writesNothing (@get W).
Proof. intros st. reflexivity. Qed.

Ltac quieting :=
  repeat first
    [ progress intros
    | apply writesNothing_bind
    | apply writesNothing_replaceMapping
    | apply writesNothing_setIncludeSummary
    | apply writesNothing_get
    | match goal with
      | |- writesNothing (if ?b then _ else _) => destruct b
      | |- writesNothing (match ?x with _ => _ end) => destruct x
      end
    | apply writesNothing_framed; solve [framing] ].

Lemma writesNothing_prepare : writesNothing (prepare svc).
Proof. unfold prepare, testConnections, loadMapping, fetchJiraIssues. quieting. Qed.

Lemma writesNothing_generateSummaries (jiraIssues : list JiraIssue) :
  writesNothing (generateSummaries svc jiraIssues).
Proof. unfold generateSummaries. quieting. Qed.

Lemma printStats_effect (st : State W) :
  fst (printStats st) = Returned tt
  /\ stats (snd (printStats st)) = stats st
  /\ calls (snd (printStats st)) = calls st.
Proof.
  unfold printStats, bind, get, log, ret.
  cbn [config mapping stats world calls logged fst snd].
  destruct (0 <? errors (stats st))%nat; cbn [stats calls fst snd]; auto.
Qed.

Hypothesis writes_succeed :
  forall file m w, fst (writeJsonFile svc file m w) = Returned tt.

Lemma saveMapping_effect (st : State W) :
  let r := saveMapping svc st in
  fst r = Returned tt
  /\ config (snd r) = config st
  /\ mapping (snd r) = mapping st
  /\ stats (snd r) = stats st
  /\ calls (snd r) = calls st ++ [WriteJsonFile mappingFile (mapping st)].
Proof.
  cbv zeta. unfold saveMapping, bind, get, call, log, ret. cbn.
  pose proof (writes_succeed mappingFile (mapping st) (world st)) as Hw.
  destruct (writeJsonFile svc mappingFile (mapping st) (world st)) as [[[] | e] w'];
    cbn in *; [repeat split | discriminate].
Qed.

Variable summaries : gmap string string.

Lemma processBatches_cons (total i : nat) (batch : list JiraIssue)
      (rest : list (list JiraIssue)) (st : State W) :
  exists st1 : State W,
    processBatches svc summaries total i (batch :: rest) st
    = processBatches svc summaries total (i + 1) rest st1
    /\ config st1 = config st
    /\ mapping st1 = mapping (snd (processBatchItems svc summaries batch st))
    /\ stats st1 = stats (snd (processBatchItems svc summaries batch st))
    /\ calls st1
       = calls (snd (processBatchItems svc summaries batch st))
         ++ [WriteJsonFile mappingFile (mapping st1)].
Proof.
  cbn [processBatches]. unfold bind at 1.
  pose proof (processBatchItems_effect svc summaries batch st) as (Hr & Hc & _).
  destruct (processBatchItems svc summaries batch st) as [[[] | e] sa]; [| discriminate].
  cbn [fst snd] in *. unfold bind at 1.
  pose proof (saveMapping_effect sa) as (Hr' & Hc' & Hm' & Hs' & Hcs').
  destruct (saveMapping svc sa) as [[[] | e] sb]; [| discriminate].
  cbn [fst snd] in *. unfold bind at 1, log at 1.
  eexists. split; [reflexivity |]. cbn. rewrite Hm'. repeat split; congruence.
Qed.

(** One snapshot is written after each batch; it holds the keys of the
    batches done so far. *)
Lemma processBatches_effect (batches : list (list JiraIssue)) :
  forall (total i : nat) (st : State W),
    let r := processBatches svc summaries total i batches st in
    exists snaps : list (gmap string MappingEntry),
      fst r = Returned tt
      /\ config (snd r) = config st
      /\ processed (stats (snd r)) = processed (stats st) + length (concat batches)
      /\ writes (calls (snd r)) = writes (calls st) ++ snaps
      /\ length snaps = length batches
      /\ (batches <> [] -> last snaps = Some (mapping (snd r)))
      /\ (dryRun (config st) = false ->
          forall k snap,
            snaps !! k = Some snap ->
            dom snap = list_to_set (key <$> concat (take (S k) batches)) ∪ dom (mapping st)).
Proof.
  induction batches as [| batch rest IH]; intros total i st; cbv zeta.
  - exists []. cbn. rewrite app_nil_r. repeat split; auto; try lia; try congruence.
    intros _ k snap Hk. rewrite lookup_nil in Hk. discriminate.
  - destruct (processBatches_cons total i batch rest st)
      as (st1 & -> & Hc1 & Hm1 & Hs1 & Hcs1).
    pose proof (processBatchItems_effect svc summaries batch st)
      as (_ & Hca & Hpa & Hwa & _ & Hda).
    specialize (IH total (i + 1) st1). cbv zeta in IH.
    destruct IH as (snaps & Hr & Hc & Hp & Hw & Hlen & Hlast & Hdom).
    exists (mapping st1 :: snaps).
    split; [exact Hr |]. split; [congruence |].
    split; [rewrite Hp, Hs1, Hpa; cbn [concat]; rewrite length_app; lia |].
    split; [rewrite Hw, Hcs1, writes_app, Hwa; cbn; rewrite <- app_assoc; reflexivity |].
    split; [cbn; congruence |].
    split.
    + intros _. destruct rest as [| b rest'].
      * destruct snaps; [| discriminate]. cbn in *. congruence.
      * rewrite last_cons. rewrite Hlast by discriminate. reflexivity.
    + intros Hdry k snap Hk. destruct k as [| k]; cbn in Hk.
      * injection Hk as <-. rewrite Hm1, Hda by assumption.
        cbn [take concat]. rewrite app_nil_r. reflexivity.
      * rewrite (Hdom ltac:(congruence) k snap Hk), Hm1, Hda by assumption.
        cbn [take concat]. rewrite fmap_app, list_to_set_app_L.
        rewrite (assoc_L (∪)), (comm_L (∪) (list_to_set (key <$> concat _))). reflexivity.
Qed.

End Run.

Example chunkArray_examples :
  chunkArray [1; 2; 3; 4; 5] 2 = Some [[1; 2]; [3; 4]; [5]]
  /\ chunkArray [1; 2; 3; 4] 2 = Some [[1; 2]; [3; 4]]
  /\ chunkArray (@nil nat) 10 = Some []
  /\ chunkArray [1; 2; 3] 0 = None.
Proof. repeat split; reflexivity. Qed.

Lemma chunkArray_23_by_10 {A : Type} (array : list A) :
  length array = 23 ->
  chunkArray array 10 = Some [take 10 array; take 10 (drop 10 array); drop 20 array].
Proof.
  intros Hlen.
  do 23 (destruct array as [| ? array]; [discriminate |]).
  destruct array; [reflexivity | discriminate].
Qed.

(** [chunkArray] returns whenever the chunk size is positive, and the chunks
    put end to end are the array. *)
Lemma chunkLoop_positive {A : Type} (array : list A) (size : nat) :
  0 < size ->
  forall fuel i,
    length array - i < fuel ->
    exists chunks, chunkLoop fuel array size i = Some chunks
                   /\ concat chunks = drop i array.
Proof.
  intros Hsize. induction fuel as [| fuel IH]; intros i Hfuel; [lia |].
  cbn [chunkLoop]. destruct (i <? length array)%nat eqn:Hi.
  - apply Nat.ltb_lt in Hi.
    destruct (IH (i + size)) as (chunks & -> & Hcat); [lia |].
    eexists. split; [reflexivity |]. cbn [concat]. rewrite Hcat. unfold slice.
    replace (i + size - i) with size by lia.
    rewrite <- (take_drop size (drop i array)) at 2. rewrite drop_drop. reflexivity.
  - apply Nat.ltb_ge in Hi. exists []. split; [reflexivity |].
    rewrite drop_ge by lia. reflexivity.
Qed.

Lemma chunkArray_positive {A : Type} (array : list A) (size : nat) :
  0 < size ->
  exists chunks, chunkArray array size = Some chunks /\ concat chunks = array.
Proof.
  intros Hsize. unfold chunkArray.
  destruct (chunkLoop_positive array size Hsize (S (length array)) 0) as (chunks & H1 & H2);
    [lia |].
  exists chunks. split; [exact H1 | exact H2].
Qed.

Lemma batches_of_23 {A : Type} (l : list A) :
  length l = 23 ->
  take 10 l ++ take 10 (drop 10 l) = take 20 l
  /\ take 10 l ++ take 10 (drop 10 l) ++ drop 20 l = l.
Proof.
  intros Hlen. split.
  - apply (take_take_drop l 10 10).
  - rewrite app_assoc, (take_take_drop l 10 10). apply take_drop.
Qed.

Lemma size_of_keys (m : gmap string MappingEntry) (keys : list string) (n : nat) :
  NoDup keys ->
  dom m = list_to_set (take n keys) ∪ ∅ ->
  n <= length keys ->
  size m = n.
Proof.
  intros Hnd Hdom Hn.
  rewrite <- size_dom, Hdom, (right_id_L ∅ (∪)), size_list_to_set.
  - rewrite length_take. lia.
  - eapply sublist_NoDup; [exact Hnd | apply sublist_take].
Qed.

Section Checkpoints.
Context {W : Type}.
Variable svc : Services W.

(** C3, amended. With 23 items and a batch size of 10, [processIssuesBatch]
    writes the mapping file exactly 3 times, once after each batch of 10, 10
    and 3 items, and [migrate] then writes it once more: 4 writes in a run,
    the last two of the same table.  With dry run off, the snapshots hold the
    keys of the first 10 items, of the first 20, and of all 23, beside the
    keys loaded at the start; from an empty table and 23 distinct keys they
    hold exactly 10, 20 and 23 records. *)
Theorem checkpoints_after_each_batch
        (st0 st1 st2 : State W) (items : list JiraIssue) (summaries : gmap string string) :
  prepare svc st0 = (Returned items, st1) ->
  generateSummaries svc items st1 = (Returned summaries, st2) ->
  length items = 23 ->
  batchSize (config st2) = 10 ->
  (forall file m w, fst (writeJsonFile svc file m w) = Returned tt) ->
  exists (st3 st4 : State W) (m1 m2 m3 : gmap string MappingEntry),
    processIssuesBatch svc items summaries st2 = Some (Returned tt, st3)
    /\ writes (calls st3) = writes (calls st0) ++ [m1; m2; m3]
    /\ migrate svc st0 = Some (Returned (stats st4), st4)
    /\ writes (calls st4) = writes (calls st0) ++ [m1; m2; m3; m3]
    /\ processed (stats st4) = processed (stats st2) + 23
    /\ (dryRun (config st2) = false ->
        dom m1 = list_to_set (key <$> take 10 items) ∪ dom (mapping st2)
        /\ dom m2 = list_to_set (key <$> take 20 items) ∪ dom (mapping st2)
        /\ dom m3 = list_to_set (key <$> items) ∪ dom (mapping st2))
    /\ (dryRun (config st2) = false ->
        mapping st2 = ∅ ->
        NoDup (key <$> items) ->
        size m1 = 10 /\ size m2 = 20 /\ size m3 = 23).
Proof.
  intros Hprep Hgen Hlen Hbs Hw.
  assert (writes (calls st2) = writes (calls st0)) as Hquiet.
  { pose proof (writesNothing_generateSummaries svc items st1) as H1.
    pose proof (writesNothing_prepare svc st0) as H0.
    rewrite Hgen in H1. rewrite Hprep in H0. cbn [snd] in *. congruence. }
  destruct (batches_of_23 items Hlen) as [Htwenty Hall].
  set (batches := [take 10 items; take 10 (drop 10 items); drop 20 items]).
  pose proof (processBatches_effect svc Hw summaries batches (length batches) 0 st2)
    as (snaps & Hr & Hc & Hp & Hwr & Hsnaps & Hlast & Hdom).
  destruct snaps as [| m1 [| m2 [| m3 [| ? ?]]]]; try discriminate. clear Hsnaps.
  destruct (processBatches svc summaries (length batches) 0 batches st2)
    as [[[] | e] st3] eqn:Hrun; [| discriminate].
  cbn [fst snd] in *.
  assert (mapping st3 = m3) as Hm3.
  { specialize (Hlast ltac:(discriminate)). cbn in Hlast. congruence. }
  assert (processIssuesBatch svc items summaries st2 = Some (Returned tt, st3)) as Hbatch.
  { unfold processIssuesBatch. rewrite Hbs, (chunkArray_23_by_10 items Hlen).
    fold batches. rewrite Hrun. reflexivity. }
  pose proof (saveMapping_effect svc Hw st3) as (Hsr & _ & _ & Hss & Hsc).
  destruct (saveMapping svc st3) as [[[] | e] st3'] eqn:Hsave; [| discriminate].
  pose proof (printStats_effect st3') as (Hpr & Hps & Hpc).
  destruct (printStats st3') as [[[] | e] st4] eqn:Hprint; [| discriminate].
  cbn [fst snd] in *.
  exists st3, st4, m1, m2, m3.
  split; [exact Hbatch |].
  split; [rewrite Hwr, Hquiet; reflexivity |].
  split.
  { unfold migrate. rewrite Hprep, Hlen. cbn [Nat.eqb]. rewrite Hgen, Hbatch.
    unfold bind. rewrite Hsave, Hprint. reflexivity. }
  split.
  { rewrite Hpc, Hsc, writes_app, Hwr, Hquiet, Hm3. cbn. rewrite <- app_assoc.
    reflexivity. }
  split.
  { rewrite Hps, Hss, Hp. subst batches. cbn [concat]. rewrite app_nil_r, Hall, Hlen.
    reflexivity. }
  assert (dryRun (config st2) = false ->
          dom m1 = list_to_set (key <$> take 10 items) ∪ dom (mapping st2)
          /\ dom m2 = list_to_set (key <$> take 20 items) ∪ dom (mapping st2)
          /\ dom m3 = list_to_set (key <$> items) ∪ dom (mapping st2)) as Hdoms.
  { intros Hdry. specialize (Hdom Hdry).
    pose proof (Hdom 0 m1 eq_refl) as H1.
    pose proof (Hdom 1 m2 eq_refl) as H2.
    pose proof (Hdom 2 m3 eq_refl) as H3.
    subst batches. cbn [take concat] in H1, H2, H3.
    rewrite app_nil_r in H1, H2, H3. rewrite Htwenty in H2. rewrite Hall in H3.
    auto. }
  split; [exact Hdoms |].
  intros Hdry Hempty Hnd. destruct (Hdoms Hdry) as (H1 & H2 & H3).
  rewrite Hempty, dom_empty_L in H1, H2, H3.
  rewrite fmap_take in H1, H2.
  rewrite <- (take_ge (key <$> items) 23) in H3 by (rewrite length_fmap; lia).
  repeat split; eapply size_of_keys; try eassumption; rewrite length_fmap; lia.
Qed.

End Checkpoints.

Lemma checkpoints_after_each_batch_witness :
  let svc := Scenarios.quiet Scenarios.issues23 [] false in
  exists (st4 : State nat) (m1 m2 m3 : gmap string MappingEntry),
    migrate svc (create (Scenarios.configOf 10 false) 0) = Some (Returned (stats st4), st4)
    /\ writes (calls st4) = [m1; m2; m3; m3]
    /\ size m1 = 10 /\ size m2 = 20 /\ size m3 = 23.
Proof.
  cbv zeta.
  edestruct (checkpoints_after_each_batch
               (Scenarios.quiet Scenarios.issues23 [] false)
               (create (Scenarios.configOf 10 false) 0))
    as (st3 & st4 & m1 & m2 & m3 & _ & _ & Hrun & Hwrites & _ & _ & Hsizes);
    [vm_compute; reflexivity | vm_compute; reflexivity | reflexivity | reflexivity
     | reflexivity |].
  exists st4, m1, m2, m3.
  split; [exact Hrun |]. split; [exact Hwrites |].
  apply Hsizes; [reflexivity | reflexivity |].
  apply (bool_decide_unpack _). vm_compute. reflexivity.
Defined.

(** A run over 23 items in batches of 10 writes the mapping file four times:
    after each of the three batches and once more at the end. *)
Lemma run_of_23_writes_four_times :
  let svc := Scenarios.quiet Scenarios.issues23 [] false in
  exists (s : Stats) (st' : State nat),
    migrate svc (create (Scenarios.configOf 10 false) 0) = Some (Returned s, st')
    /\ length Scenarios.issues23 = 23
    /\ batchSize (config st') = 10
    /\ length (writes (calls st')) = 4
    /\ size <$> writes (calls st') = [10; 20; 23; 23].
Proof.
  cbv zeta. eexists. eexists.
  split; [vm_compute; reflexivity |]. repeat split; vm_compute; reflexivity.
Qed.

(** * Single items *)

Section Items.
Context {W : Type}.
Variable svc : Services W.

(** C1, amended. An item whose entry in the mapping table has status
    migrated or existing is skipped: [processIssue] calls no collaborator at
    all (so nothing is created at the destination), leaves the table and the
    world as they are, and adds one to processed and one to skipped, and
    nothing to the other counters. *)
Theorem processIssue_idempotent
        (jiraIssue : JiraIssue) (aiSummary : option string) (st : State W)
        (entry : MappingEntry) :
  mapping st !! key jiraIssue = Some entry ->
  status entry = "migrated" \/ status entry = "existing" ->
  let r := processIssue svc jiraIssue aiSummary st in
  fst r = Returned tt
  /\ calls (snd r) = calls st
  /\ List.filter createsAtDestination (calls (snd r))
     = List.filter createsAtDestination (calls st)
  /\ world (snd r) = world st
  /\ mapping (snd r) = mapping st
  /\ stats (snd r)
     = mkStats (processed (stats st) + 1) (created (stats st)) (skipped (stats st) + 1)
               (errors (stats st)) (comments (stats st)) (attachments (stats st)).
Proof.
  intros Hentry Hstatus. cbv zeta.
  destruct (processIssue_skip svc jiraIssue aiSummary st) as [note ->].
  - rewrite !(hasStatus_entry _ _ _ _ Hentry).
    destruct Hstatus as [-> | ->]; [left | right]; reflexivity.
  - cbn. repeat split; reflexivity.
Qed.

(** C7. An item with no entry in the table, not found at the destination,
    in a dry run: [processIssue] adds one to created (and to processed),
    calls nothing but the search, and leaves the table as it is: no entry for
    the key. *)
Theorem processIssue_dry_run_leaves_no_record
        (jiraIssue : JiraIssue) (aiSummary : option string) (st : State W) (w : W) :
  mapping st !! key jiraIssue = None ->
  findExistingIssue svc (key jiraIssue) (world st) = (Returned None, w) ->
  dryRun (config st) = true ->
  let r := processIssue svc jiraIssue aiSummary st in
  fst r = Returned tt
  /\ stats (snd r) = incCreated (incProcessed (stats st))
  /\ created (stats (snd r)) = created (stats st) + 1
  /\ calls (snd r) = calls st ++ [FindExistingIssue (key jiraIssue)]
  /\ List.filter mutatesDestination (calls (snd r))
     = List.filter mutatesDestination (calls st)
  /\ mapping (snd r) = mapping st
  /\ mapping (snd r) !! key jiraIssue = None.
Proof.
  intros Hnone Hf Hdry. cbv zeta.
  destruct (processIssue_dry_run svc jiraIssue aiSummary st
              (hasStatus_absent _ _ _ Hnone) (hasStatus_absent _ _ _ Hnone) w Hf Hdry)
    as [notes ->].
  cbn [fst snd stats calls mapping].
  repeat split; auto.
  rewrite List.filter_app. cbn. apply app_nil_r.
Qed.

(** C10. Every call of [processIssue] adds one to processed and one to
    exactly one of created, skipped and errors; so, from counters that are
    all zero, processed = created + skipped + errors after every item. *)
Theorem processIssue_accounts_every_item :
  (forall (jiraIssue : JiraIssue) (aiSummary : option string) (st : State W),
      countedOnce (stats st) (stats (snd (processIssue svc jiraIssue aiSummary st))))
  /\ (forall (cfg : Config) (m : gmap string MappingEntry) (w : W)
             (summaries : gmap string string) (items : list JiraIssue),
         stats (loaded cfg m w) = zeroStats
         /\ balanced (stats (snd (processBatchItems svc summaries items (loaded cfg m w))))).
Proof.
  split.
  - intros jiraIssue aiSummary st. apply processIssue_effect.
  - intros cfg m w summaries items. split; [reflexivity |].
    apply processBatchItems_effect. reflexivity.
Qed.

End Items.

(** * Failures inside one item *)

Section Failures.
Context {W : Type}.
Variable svc : Services W.
Variable jiraIssue : JiraIssue.
Variable aiSummary : option string.

Lemma Frame_logged_In (a b : State W) (x : Level * string) :
  Frame a b -> In x (logged a) -> In x (logged b).
Proof. intros [_ _ _ _ (ls & ->)] Hin. apply in_or_app. left. exact Hin. Qed.

(** C5, amended. Once the destination issue is created, a failure while its
    comments are replicated is caught inside [migrateComments], once for the
    whole replication: [processIssue] returns, the item keeps its migrated
    entry, errors is unchanged and created grows by one; the replication
    stops at the failure (no further call) and one warning is logged. *)
Theorem comment_failure_keeps_parent
        (st : State W) (w : W) (githubIssue : GitHubIssue) (st2 : State W) :
  hasStatus (mapping st) (key jiraIssue) "migrated" = false ->
  hasStatus (mapping st) (key jiraIssue) "existing" = false ->
  findExistingIssue svc (key jiraIssue) (world st) = (Returned None, w) ->
  dryRun (config st) = false ->
  convertAndCreateIssue svc jiraIssue aiSummary (searched jiraIssue st w)
  = (Returned githubIssue, st2) ->
  let entry := migratedEntry githubIssue (isoNow svc (world st2)) in
  let r := processIssue svc jiraIssue aiSummary st in
  fst r = Returned tt
  /\ mapping (snd r) = <[key jiraIssue := entry]> (mapping st)
  /\ errors (stats (snd r)) = errors (stats st)
  /\ created (stats (snd r)) = created (stats st) + 1
  /\ (forall (e : JsError) (stc : State W),
         replicateComments svc jiraIssue (number githubIssue)
                           (withEntry (key jiraIssue) entry st2)
         = (Thrown e, stc) ->
         calls (snd r) = calls stc
         /\ exists note,
             logged (snd r)
             = logged stc
               ++ [(Warn, ("Failed to migrate comments for " ++ key jiraIssue ++ ": "
                           ++ messageText e)%string);
                   (Success, note)]).
Proof.
  intros Hm He Hf Hdry Hc. cbv zeta.
  destruct (processIssue_created svc jiraIssue aiSummary st Hm He w githubIssue st2 Hf Hdry Hc)
    as [note ->].
  pose proof (framed_convertAndCreateIssue svc jiraIssue aiSummary (searched jiraIssue st w))
    as Hfr.
  rewrite Hc in Hfr. destruct Hfr as [_ Hm2 (_ & Hcr2 & _ & Her2) _ _].
  fold (withEntry (key jiraIssue) (migratedEntry githubIssue (isoNow svc (world st2))) st2).
  set (recorded := withEntry _ _ st2).
  pose proof (framed_migrateComments svc jiraIssue (number githubIssue) recorded) as Hfc.
  destruct Hfc as [_ Hm3 (_ & Hcr3 & _ & Her3) _ _].
  cbn [fst snd config mapping stats world calls logged processed created skipped errors
       incProcessed incCreated searched withEntry] in *.
  split; [reflexivity |]. split; [subst recorded; cbn in Hm3; congruence |].
  split; [subst recorded; cbn in Her3; congruence |].
  split; [subst recorded; cbn in Hcr3; lia |].
  intros e stc Hrep. unfold migrateComments, tryCatch. rewrite Hrep. cbn.
  split; [reflexivity |]. exists note. rewrite <- app_assoc. reflexivity.
Qed.

Lemma agree_forget (k : string) (st : State W) : agree st (forget k st).
Proof. repeat split. Qed.

Lemma agree_searched (a b : State W) (w : W) :
  agree a b -> agree (searched jiraIssue a w) (searched jiraIssue b w).
Proof.
  intros (Hc & Hs & Hw & Hcs). unfold agree, searched. cbn. rewrite Hs, Hcs.
  repeat split; assumption.
Qed.

(** An item whose entry has status error is retried with a note in the log. *)
Lemma processIssue_notes_retry (st : State W) (entry : MappingEntry) :
  mapping st !! key jiraIssue = Some entry ->
  status entry = "error" ->
  In (Info, ("Retrying " ++ key jiraIssue ++ " after previous error: "
             ++ default "undefined" (error entry))%string)
     (logged (snd (processIssue svc jiraIssue aiSummary st))).
Proof.
  intros Hentry Hstatus.
  assert (hasStatus (mapping st) (key jiraIssue) "migrated" = false) as Hm
      by (rewrite (hasStatus_entry _ _ _ _ Hentry), Hstatus; reflexivity).
  assert (hasStatus (mapping st) (key jiraIssue) "existing" = false) as He
      by (rewrite (hasStatus_entry _ _ _ _ Hentry), Hstatus; reflexivity).
  assert (retryNote (mapping st) (key jiraIssue)
          = [(Info, ("Retrying " ++ key jiraIssue ++ " after previous error: "
                     ++ default "undefined" (error entry))%string)]) as Hnote.
  { unfold retryNote. rewrite (hasStatus_entry _ _ _ _ Hentry), Hstatus, Hentry.
    reflexivity. }
  destruct (findExistingIssue svc (key jiraIssue) (world st)) as [[[existing |] | e] w] eqn:Hf.
  - destruct (processIssue_found svc jiraIssue aiSummary st Hm He existing w Hf) as [notes ->].
    cbn. rewrite Hnote. apply in_or_app. right. left. reflexivity.
  - destruct (dryRun (config st)) eqn:Hdry.
    + destruct (processIssue_dry_run svc jiraIssue aiSummary st Hm He w Hf Hdry) as [notes ->].
      cbn. rewrite Hnote. apply in_or_app. right. left. reflexivity.
    + assert (In (Info, ("Retrying " ++ key jiraIssue ++ " after previous error: "
                         ++ default "undefined" (error entry))%string)
                 (logged (searched jiraIssue st w))) as Hin.
      { unfold searched. cbn. rewrite Hnote. apply in_or_app. right. left. reflexivity. }
      pose proof (framed_convertAndCreateIssue svc jiraIssue aiSummary
                    (searched jiraIssue st w)) as Hfr.
      destruct (convertAndCreateIssue svc jiraIssue aiSummary (searched jiraIssue st w))
        as [[githubIssue | e] st2] eqn:Hc; cbn [snd] in Hfr.
      * destruct (processIssue_created svc jiraIssue aiSummary st Hm He w githubIssue st2
                    Hf Hdry Hc) as [note ->].
        cbn [snd logged]. apply in_or_app. left.
        eapply Frame_logged_In; [apply framed_migrateComments |].
        cbn [logged]. eapply Frame_logged_In; eassumption.
      * destruct (processIssue_create_failed svc jiraIssue aiSummary st Hm He w e st2
                    Hf Hdry Hc) as [notes ->].
        cbn [snd logged]. apply in_or_app. left.
        eapply Frame_logged_In; eassumption.
  - destruct (processIssue_search_failed svc jiraIssue aiSummary st Hm He e w Hf) as [notes ->].
    cbn. rewrite Hnote. apply in_or_app. right. left. reflexivity.
Qed.

(** An item whose entry has status error is processed as if it had no
    entry. *)
Lemma processIssue_error_as_unseen (st : State W) (entry : MappingEntry) :
  mapping st !! key jiraIssue = Some entry ->
  status entry = "error" ->
  let r := processIssue svc jiraIssue aiSummary st in
  let r' := processIssue svc jiraIssue aiSummary (forget (key jiraIssue) st) in
  fst r = fst r'
  /\ agree (snd r) (snd r')
  /\ (mapping (snd r) = mapping (snd r')
      \/ (dryRun (config st) = true
          /\ mapping (snd r) = mapping st
          /\ mapping (snd r') = delete (key jiraIssue) (mapping st))).
Proof.
  intros Hentry Hstatus. cbv zeta.
  assert (hasStatus (mapping st) (key jiraIssue) "migrated" = false) as Hm
      by (rewrite (hasStatus_entry _ _ _ _ Hentry), Hstatus; reflexivity).
  assert (hasStatus (mapping st) (key jiraIssue) "existing" = false) as He
      by (rewrite (hasStatus_entry _ _ _ _ Hentry), Hstatus; reflexivity).
  set (st' := forget (key jiraIssue) st).
  assert (mapping st' !! key jiraIssue = None) as Hnone by apply lookup_delete_eq.
  pose proof (hasStatus_absent _ _ "migrated" Hnone) as Hm'.
  pose proof (hasStatus_absent _ _ "existing" Hnone) as He'.
  destruct (findExistingIssue svc (key jiraIssue) (world st)) as [[[existing |] | e] w] eqn:Hf.
  - destruct (processIssue_found svc jiraIssue aiSummary st Hm He existing w Hf) as [notes ->].
    destruct (processIssue_found svc jiraIssue aiSummary st' Hm' He' existing w Hf)
      as [notes' ->].
    cbn. split; [reflexivity |]. split; [repeat split |].
    left. symmetry. apply insert_delete_eq.
  - destruct (dryRun (config st)) eqn:Hdry.
    + destruct (processIssue_dry_run svc jiraIssue aiSummary st Hm He w Hf Hdry) as [notes ->].
      destruct (processIssue_dry_run svc jiraIssue aiSummary st' Hm' He' w Hf Hdry)
        as [notes' ->].
      cbn. split; [reflexivity |]. split; [repeat split |]. right. auto.
    + pose proof (respects_convertAndCreateIssue svc jiraIssue aiSummary _ _
                    (agree_searched st st' w (agree_forget (key jiraIssue) st)))
        as [Hfst Hag].
      pose proof (framed_convertAndCreateIssue svc jiraIssue aiSummary
                    (searched jiraIssue st w)) as Hfr.
      pose proof (framed_convertAndCreateIssue svc jiraIssue aiSummary
                    (searched jiraIssue st' w)) as Hfr'.
      destruct (convertAndCreateIssue svc jiraIssue aiSummary (searched jiraIssue st w))
        as [[githubIssue | e] st2] eqn:Hc;
        destruct (convertAndCreateIssue svc jiraIssue aiSummary (searched jiraIssue st' w))
        as [[githubIssue' | e'] st2'] eqn:Hc';
        cbn [fst snd] in Hfst, Hag, Hfr, Hfr'; try discriminate;
        injection Hfst as <-;
        destruct Hag as (Hac & Has & Haw & Hacs);
        destruct Hfr as [_ Hmap _ _ _]; destruct Hfr' as [_ Hmap' _ _ _];
        cbn [mapping searched] in Hmap, Hmap'.
      * destruct (processIssue_created svc jiraIssue aiSummary st Hm He w githubIssue st2
                    Hf Hdry Hc) as [note ->].
        destruct (processIssue_created svc jiraIssue aiSummary st' Hm' He' w githubIssue st2'
                    Hf Hdry Hc') as [note' ->].
        match goal with
        | |- context [migrateComments svc jiraIssue ?n ?a] =>
            match goal with
            | |- context [migrateComments svc jiraIssue n ?b] =>
                assert_fails (constr_eq a b);
                pose proof (respects_migrateComments svc jiraIssue n a b) as Hrc;
                pose proof (framed_migrateComments svc jiraIssue n a) as Hfa;
                pose proof (framed_migrateComments svc jiraIssue n b) as Hfb;
                destruct (migrateComments svc jiraIssue n a) as [ca st3];
                destruct (migrateComments svc jiraIssue n b) as [cb st3']
            end
        end.
        destruct Hrc as [_ (Hc3 & Hs3 & Hw3 & Hcs3)]; [repeat split; assumption |].
        destruct Hfa as [_ Hm3 _ _ _]. destruct Hfb as [_ Hm3' _ _ _].
        cbn [fst snd config mapping stats world calls logged] in *.
        split; [reflexivity |]. split; [unfold agree; cbn; rewrite Hs3; auto |].
        left. rewrite Hm3, Hm3', Hmap, Hmap', Haw. subst st'. cbn [forget mapping].
        symmetry. apply insert_delete_eq.
      * destruct (processIssue_create_failed svc jiraIssue aiSummary st Hm He w e st2
                    Hf Hdry Hc) as [notes ->].
        destruct (processIssue_create_failed svc jiraIssue aiSummary st' Hm' He' w e st2'
                    Hf Hdry Hc') as [notes' ->].
        cbn [fst snd config mapping stats world calls logged].
        split; [reflexivity |]. split; [unfold agree; cbn; rewrite Has; auto |].
        left. rewrite Hmap, Hmap', Haw. subst st'. cbn [forget mapping].
        symmetry. apply insert_delete_eq.
  - destruct (processIssue_search_failed svc jiraIssue aiSummary st Hm He e w Hf) as [notes ->].
    destruct (processIssue_search_failed svc jiraIssue aiSummary st' Hm' He' e w Hf)
      as [notes' ->].
    cbn. split; [reflexivity |]. split; [repeat split |].
    left. symmetry. apply insert_delete_eq.
Qed.

(** C6. A failure of the search or of the creation is caught by
    [processIssue], which returns normally and records an entry of status
    error with the message for the key, adding one to errors; the items of a
    batch are all processed whatever happens to each; and an item whose entry
    has status error is processed as one with no entry (same result, same
    calls, same counters, same entry recorded), with a note of the retry in
    the log. *)
Theorem failures_recorded_then_retried (st : State W) :
  hasStatus (mapping st) (key jiraIssue) "migrated" = false ->
  hasStatus (mapping st) (key jiraIssue) "existing" = false ->
  let r := processIssue svc jiraIssue aiSummary st in
  fst r = Returned tt
  /\ (forall (e : JsError) (w : W),
         findExistingIssue svc (key jiraIssue) (world st) = (Thrown e, w) ->
         mapping (snd r) = <[key jiraIssue := errorEntry e (isoNow svc w)]> (mapping st)
         /\ errors (stats (snd r)) = errors (stats st) + 1)
  /\ (forall (w : W) (e : JsError) (st2 : State W),
         findExistingIssue svc (key jiraIssue) (world st) = (Returned None, w) ->
         dryRun (config st) = false ->
         convertAndCreateIssue svc jiraIssue aiSummary (searched jiraIssue st w)
         = (Thrown e, st2) ->
         mapping (snd r)
         = <[key jiraIssue := errorEntry e (isoNow svc (world st2))]> (mapping st)
         /\ errors (stats (snd r)) = errors (stats st) + 1)
  /\ (forall (summaries : gmap string string) (batch : list JiraIssue) (st0 : State W),
         let b := processBatchItems svc summaries batch st0 in
         fst b = Returned tt
         /\ processed (stats (snd b)) = processed (stats st0) + length batch)
  /\ (forall entry : MappingEntry,
         mapping st !! key jiraIssue = Some entry ->
         status entry = "error" ->
         let r' := processIssue svc jiraIssue aiSummary (forget (key jiraIssue) st) in
         fst r = fst r'
         /\ agree (snd r) (snd r')
         /\ (mapping (snd r) = mapping (snd r')
             \/ (dryRun (config st) = true
                 /\ mapping (snd r) = mapping st
                 /\ mapping (snd r') = delete (key jiraIssue) (mapping st)))
         /\ In (Info, ("Retrying " ++ key jiraIssue ++ " after previous error: "
                       ++ default "undefined" (error entry))%string)
               (logged (snd r))).
Proof.
  intros Hm He. cbv zeta.
  split; [apply processIssue_effect |].
  split; [| split; [| split]].
  - intros e w Hf.
    destruct (processIssue_search_failed svc jiraIssue aiSummary st Hm He e w Hf) as [notes ->].
    cbn. split; reflexivity.
  - intros w e st2 Hf Hdry Hc.
    destruct (processIssue_create_failed svc jiraIssue aiSummary st Hm He w e st2 Hf Hdry Hc)
      as [notes ->].
    pose proof (framed_convertAndCreateIssue svc jiraIssue aiSummary (searched jiraIssue st w))
      as Hfr.
    rewrite Hc in Hfr. destruct Hfr as [_ Hm2 (_ & _ & _ & Her2) _ _].
    cbn in *. rewrite Hm2, Her2. split; reflexivity.
  - intros summaries batch st0. cbv zeta.
    pose proof (processBatchItems_effect svc summaries batch st0) as (Hr & _ & Hp & _).
    split; assumption.
  - intros entry Hentry Hstatus. cbv zeta.
    pose proof (processIssue_error_as_unseen st entry Hentry Hstatus) as (H1 & H2 & H3).
    repeat split; try assumption; try apply H2.
    apply processIssue_notes_retry; assumption.
Qed.

End Failures.

Lemma comment_failure_keeps_parent_witness :
  let svc := Scenarios.quiet [] [Scenarios.commentOf "a"; Scenarios.commentOf "b"] true in
  let r := processIssue svc (Scenarios.issueOf "X-1") None
                        (create (Scenarios.configOf 10 false) 0) in
  fst r = Returned tt
  /\ status <$> (mapping (snd r) !! "X-1") = Some "migrated"
  /\ errors (stats (snd r)) = 0
  /\ created (stats (snd r)) = 1.
Proof.
  cbv zeta.
  edestruct (comment_failure_keeps_parent
               (Scenarios.quiet [] [Scenarios.commentOf "a"; Scenarios.commentOf "b"] true)
               (Scenarios.issueOf "X-1") None (create (Scenarios.configOf 10 false) 0) 0)
    as (H1 & H2 & H3 & H4 & _);
    [reflexivity | reflexivity | reflexivity | reflexivity | vm_compute; reflexivity |].
  split; [exact H1 |]. split; [rewrite H2; reflexivity |]. split; [exact H3 | exact H4].
Defined.

(** Two comments that both fail to post: the first failure ends the
    replication.  One comment is attempted and one warning is logged. *)
Lemma comment_failure_ends_replication :
  let comments := [Scenarios.commentOf "a"; Scenarios.commentOf "b"] in
  let svc := Scenarios.quiet [] comments true in
  let st' := snd (processIssue svc (Scenarios.issueOf "X-1") None
                               (create (Scenarios.configOf 10 false) 0)) in
  length comments = 2
  /\ (forall n text w, fst (createComment svc n text w) = Thrown Scenarios.serverError)
  /\ List.filter isCreateComment (calls st')
     = [CreateComment 1 ("**Ann** commented on 2023-12-31:" ++ JsString.LF ++ JsString.LF
                         ++ "a")%string]
  /\ List.filter isWarn (logged st')
     = [(Warn, "Failed to migrate comments for X-1: Internal Server Error")]
  /\ status <$> (mapping st' !! "X-1") = Some "migrated".
Proof. cbv zeta. repeat split; vm_compute; reflexivity. Qed.

Lemma failures_recorded_then_retried_witness :
  let st := loaded (Scenarios.configOf 10 false) {[ "X-1" := Scenarios.failedBefore ]} 0 in
  let r := processIssue Scenarios.broken (Scenarios.issueOf "X-1") None st in
  fst r = Returned tt
  /\ mapping (snd r)
     = {[ "X-1" := errorEntry Scenarios.serverError "2024-01-01T00:00:00.000Z" ]}
  /\ errors (stats (snd r)) = 1
  /\ fst r
     = fst (processIssue Scenarios.broken (Scenarios.issueOf "X-1") None (forget "X-1" st)).
Proof.
  cbv zeta.
  pose proof (failures_recorded_then_retried Scenarios.broken (Scenarios.issueOf "X-1") None
                (loaded (Scenarios.configOf 10 false) {[ "X-1" := Scenarios.failedBefore ]} 0)
                eq_refl eq_refl) as (H1 & _ & H3 & _ & H5).
  edestruct (H3 0 Scenarios.serverError) as [Hmap Herr];
    [reflexivity | reflexivity | vm_compute; reflexivity |].
  destruct (H5 Scenarios.failedBefore eq_refl eq_refl) as (Hsame & _).
  split; [exact H1 |]. split; [rewrite Hmap; reflexivity |]. split; [exact Herr | exact Hsame].
Defined.

Lemma processIssue_skip_counts_processed :
  let st := loaded (Scenarios.configOf 10 false) {[ "X-1" := Scenarios.migratedBefore ]} 0 in
  let st' := snd (processIssue (Scenarios.quiet [] [] false) (Scenarios.issueOf "X-1") None st) in
  hasStatus (mapping st) "X-1" "migrated" = true
  /\ stats st = zeroStats
  /\ stats st' = mkStats 1 0 1 0 0 0
  /\ stats st' <> mkStats 0 0 1 0 0 0.
Proof. cbv zeta. repeat split; try reflexivity. vm_compute. discriminate. Qed.

Lemma processIssue_idempotent_witness :
  let st := loaded (Scenarios.configOf 10 false) {[ "X-1" := Scenarios.migratedBefore ]} 0 in
  let r := processIssue (Scenarios.quiet [] [] false) (Scenarios.issueOf "X-1") None st in
  fst r = Returned tt
  /\ calls (snd r) = calls st
  /\ List.filter createsAtDestination (calls (snd r))
     = List.filter createsAtDestination (calls st)
  /\ world (snd r) = world st
  /\ mapping (snd r) = mapping st
  /\ stats (snd r) = mkStats 1 0 1 0 0 0.
Proof.
  exact (processIssue_idempotent (Scenarios.quiet [] [] false) (Scenarios.issueOf "X-1") None
           (loaded (Scenarios.configOf 10 false) {[ "X-1" := Scenarios.migratedBefore ]} 0)
           Scenarios.migratedBefore eq_refl (or_introl eq_refl)).
Defined.

Lemma processIssue_dry_run_leaves_no_record_witness :
  let st := loaded (Scenarios.configOf 10 true) ∅ 0 in
  let r := processIssue (Scenarios.quiet [] [] false) (Scenarios.issueOf "X-1") None st in
  fst r = Returned tt
  /\ stats (snd r) = mkStats 1 1 0 0 0 0
  /\ created (stats (snd r)) = 1
  /\ calls (snd r) = [FindExistingIssue "X-1"]
  /\ List.filter mutatesDestination (calls (snd r)) = []
  /\ mapping (snd r) = ∅
  /\ mapping (snd r) !! "X-1" = None.
Proof.
  exact (processIssue_dry_run_leaves_no_record (Scenarios.quiet [] [] false)
           (Scenarios.issueOf "X-1") None (loaded (Scenarios.configOf 10 true) ∅ 0) 0
           eq_refl eq_refl eq_refl).
Defined.

End MigratorProps.

(** * Further properties of the retry coordinator *)

Module RateLimiterMore.

Import RateLimiter.

Lemma retried_transient (e : JsError) : transient e -> retried e = true.
Proof.
  intros H. unfold retried. rewrite (RateLimiterProps.transient_no_break e H). reflexivity.
Qed.

(** An error that carries no response is retried. *)
Lemma retried_no_response (e : JsError) : responseStatus e = None -> retried e = true.
Proof.
  intros H. unfold retried, statusBelow500. rewrite H, andb_false_r. reflexivity.
Qed.

Lemma sleeps_geometric_sum (rl : t) (k : nat) :
  fold_right Z.add 0%Z (List.map (delayOf rl) (seq 0 k))
  = (baseDelay rl * (2 ^ Z.of_nat k - 1))%Z.
Proof.
  induction k as [| k IH].
  - cbn. lia.
  - rewrite seq_S, List.map_app, fold_right_app. cbn [List.map fold_right Nat.add].
    assert (forall (l : list Z) (x : Z),
               fold_right Z.add x l = (fold_right Z.add 0 l + x)%Z) as Hshift.
    { induction l as [| y l IHl]; intros x; cbn; [lia | rewrite IHl; lia]. }
    rewrite Hshift, IH. unfold delayOf.
    rewrite Nat2Z.inj_succ, Z.pow_succ_r by lia. lia.
Qed.

Section Loop.
Context {W A : Type}.
Variable rl : t.
Variable fn : W -> Completion A JsError * W.

(** The loop from [attempt] on, whatever the operation does. *)
Lemma retryLoop_bounded (remaining : nat) :
  forall (fuel attempt : nat) (lastError : option JsError) (w : W),
    attempt + remaining = maxRetries rl ->
    remaining < fuel ->
    exists r w' evs,
      retryLoop rl fn fuel attempt lastError w = Some (r, w', evs)
      /\ 1 <= invocations evs <= remaining + 1
      /\ sleeps evs = List.map (delayOf rl) (seq attempt (invocations evs - 1))
      /\ w' = worldAfter fn (invocations evs) w.
Proof.
  induction remaining as [| n IH]; intros fuel attempt lastError w Hsum Hfuel;
    (destruct fuel as [| fuel]; [lia |]); cbn [retryLoop];
    replace (attempt <=? maxRetries rl)%nat with true by (symmetry; apply Nat.leb_le; lia);
    destruct (fn w) as [[a | e] w1] eqn:Hfn.
  - exists (Returned a), w1, [Invoke]. cbn. rewrite Hfn. repeat split; lia.
  - replace (attempt =? maxRetries rl)%nat with true by (symmetry; apply Nat.eqb_eq; lia).
    exists (Thrown (Some e)), w1, [Invoke]. cbn. rewrite Hfn. repeat split; lia.
  - exists (Returned a), w1, [Invoke]. cbn. rewrite Hfn. repeat split; lia.
  - replace (attempt =? maxRetries rl)%nat with false by (symmetry; apply Nat.eqb_neq; lia).
    destruct (negb (isRateLimit e) && statusBelow500 e).
    + exists (Thrown (Some e)), w1, [Invoke]. cbn. rewrite Hfn. repeat split; lia.
    + destruct (IH fuel (S attempt) (Some e) w1) as (r & w' & evs & -> & Hinv & Hsl & Hw);
        [lia | lia |].
      do 3 eexists. split; [reflexivity |].
      unfold invocations in *. cbn [List.filter isInvoke length sleeps].
      split; [lia |]. split.
      * rewrite Hsl. replace (S (length (List.filter isInvoke evs)) - 1)
          with (S (length (List.filter isInvoke evs) - 1)) by lia.
        reflexivity.
      * rewrite Hw, (RateLimiterProps.worldAfter_S fn (length (List.filter isInvoke evs)) w),
          Hfn. reflexivity.
Qed.

(** The loop when the call at [attempt + k] is the first that returns, and
    the errors before it are all of the kind that is retried. *)
Lemma retryLoop_recovers (k : nat) :
  forall (fuel attempt : nat) (lastError : option JsError) (w : W) (a : A),
    attempt + k <= maxRetries rl ->
    k < fuel ->
    (forall j, j < k ->
               exists e, fst (fn (worldAfter fn j w)) = Thrown e /\ retried e = true) ->
    fst (fn (worldAfter fn k w)) = Returned a ->
    exists evs,
      retryLoop rl fn fuel attempt lastError w
      = Some (Returned a, worldAfter fn (S k) w, evs)
      /\ invocations evs = S k
      /\ sleeps evs = List.map (delayOf rl) (seq attempt k).
Proof.
  induction k as [| k IH]; intros fuel attempt lastError w a Hle Hfuel Hfail Hok;
    (destruct fuel as [| fuel]; [lia |]); cbn [retryLoop];
    replace (attempt <=? maxRetries rl)%nat with true by (symmetry; apply Nat.leb_le; lia).
  - cbn in Hok. destruct (fn w) as [c w1] eqn:Hfn. cbn in Hok. subst c.
    exists [Invoke]. cbn. rewrite Hfn. repeat split.
  - destruct (Hfail 0 (Nat.lt_0_succ k)) as (e0 & He0 & Hr0). cbn in He0.
    rewrite (RateLimiterProps.worldAfter_S fn (S k) w).
    rewrite (RateLimiterProps.worldAfter_S fn k w) in Hok.
    destruct (fn w) as [c w1] eqn:Hfn. cbn [fst snd] in *. subst c.
    replace (attempt =? maxRetries rl)%nat with false by (symmetry; apply Nat.eqb_neq; lia).
    unfold retried in Hr0. apply negb_true_iff in Hr0. rewrite Hr0.
    destruct (IH fuel (S attempt) (Some e0) w1 a) as (evs & -> & Hinv & Hsl);
      [lia | lia | | exact Hok |].
    + intros j Hj. specialize (Hfail (S j) ltac:(lia)).
      rewrite (RateLimiterProps.worldAfter_S fn j w), Hfn in Hfail. exact Hfail.
    + eexists. split; [reflexivity |]. unfold invocations in *.
      cbn [List.filter isInvoke length sleeps]. rewrite Hinv, Hsl. split; reflexivity.
Qed.
End Loop.

(** X1. Whatever the operation does, [executeWithRetry] completes after at
    least one and at most [maxRetries + 1] calls; it sleeps once between two
    consecutive calls, [baseDelay * 2^i] before call [i + 1]; and with a
    delay that is not negative the time slept is at most
    [baseDelay * (2^maxRetries - 1)]. *)
Theorem executeWithRetry_bounded
        {W A : Type} (rl : t) (fn : W -> Completion A JsError * W) (w : W) :
  exists r evs,
    executeWithRetry rl fn w = Some (r, worldAfter fn (invocations evs) w, evs)
    /\ 1 <= invocations evs <= maxRetries rl + 1
    /\ sleeps evs = List.map (delayOf rl) (seq 0 (invocations evs - 1))
    /\ ((0 <= baseDelay rl)%Z ->
        (0 <= totalDelay evs <= baseDelay rl * (2 ^ Z.of_nat (maxRetries rl) - 1))%Z).
Proof.
  unfold executeWithRetry.
  destruct (retryLoop_bounded rl fn (maxRetries rl) (S (S (maxRetries rl))) 0 None w)
    as (r & w' & evs & Hrun & Hinv & Hsl & ->); [lia | lia |].
  exists r, evs. split; [exact Hrun |]. split; [exact Hinv |]. split; [exact Hsl |].
  intros Hbase. unfold totalDelay. rewrite Hsl, sleeps_geometric_sum.
  assert (0 < 2 ^ Z.of_nat (invocations evs - 1) <= 2 ^ Z.of_nat (maxRetries rl))%Z.
  { split; [apply Z.pow_pos_nonneg; lia | apply Z.pow_le_mono_r; lia]. }
  nia.
Qed.

(** X2. When the first [k] calls fail with errors of the kind that is
    retried (rate limit, server class, or no response at all) and call
    [k + 1] returns, with [k <= maxRetries], [executeWithRetry] returns that
    value after exactly [k + 1] calls and the sleeps
    [baseDelay * 2^0 .. baseDelay * 2^(k-1)]. *)
Theorem executeWithRetry_recovers
        {W A : Type} (rl : t) (fn : W -> Completion A JsError * W) (w : W)
        (k : nat) (a : A) :
  k <= maxRetries rl ->
  (forall j, j < k ->
             exists e, fst (fn (worldAfter fn j w)) = Thrown e /\ retried e = true) ->
  fst (fn (worldAfter fn k w)) = Returned a ->
  exists evs,
    executeWithRetry rl fn w = Some (Returned a, worldAfter fn (k + 1) w, evs)
    /\ invocations evs = k + 1
    /\ sleeps evs = List.map (delayOf rl) (seq 0 k).
Proof.
  intros Hk Hfail Hok. unfold executeWithRetry. rewrite Nat.add_1_r.
  apply (retryLoop_recovers rl fn k (S (S (maxRetries rl))) 0 None w a); auto; lia.
Qed.

Lemma executeWithRetry_recovers_witness :
  exists evs,
    executeWithRetry (mk 2 50) Scenarios.rateLimitedOnce 0 = Some (Returned "success", 2, evs)
    /\ invocations evs = 2
    /\ sleeps evs = [50%Z].
Proof.
  destruct (executeWithRetry_recovers (mk 2 50) Scenarios.rateLimitedOnce 0 1 "success")
    as (evs & Hrun & Hinv & Hsl).
  - cbn. lia.
  - intros j Hj. assert (j = 0) as -> by lia. eexists. split; reflexivity.
  - reflexivity.
  - exists evs. split; [exact Hrun |]. split; [exact Hinv | exact Hsl].
Defined.

End RateLimiterMore.

(** * Titles and labels *)

Module TextProps.

Import JsString TextUtils.

#[local] Open Scope string_scope.

Lemma length_substring_0 (n : nat) (s : string) : String.length (substring 0 n s) <= n.
Proof.
  revert s. induction n as [| n IH]; intros [| c s]; cbn; try lia.
  specialize (IH s). lia.
Qed.

Lemma every_substring_0 (p : ascii -> bool) (n : nat) (s : string) :
  every p s = true -> every p (substring 0 n s) = true.
Proof.
  revert s. induction n as [| n IH]; intros [| c s]; cbn; auto.
  intros H. apply andb_true_iff in H as [Hc Hs]. rewrite Hc. cbn. apply IH, Hs.
Qed.

Lemma startsClean_substring_0 (n : nat) (s : string) :
  startsClean s = true -> startsClean (substring 0 n s) = true.
Proof. destruct n, s; cbn; auto. Qed.

Lemma every_trimStart (p : ascii -> bool) (s : string) :
  every p s = true -> every p (trimStart s) = true.
Proof.
  induction s as [| c s IH]; cbn; auto.
  intros H. destruct (isSpace c); [| exact H].
  apply andb_true_iff in H as [_ Hs]. apply IH, Hs.
Qed.

Lemma every_trimEnd (p : ascii -> bool) (s : string) :
  every p s = true -> every p (trimEnd s) = true.
Proof.
  induction s as [| c s IH]; cbn; auto.
  intros H. apply andb_true_iff in H as [Hc Hs]. specialize (IH Hs).
  destruct (trimEnd s) as [| d t].
  - destruct (isSpace c); cbn; [reflexivity | rewrite Hc; reflexivity].
  - cbn in *. rewrite Hc. exact IH.
Qed.

Lemma startsClean_trimStart (s : string) : startsClean (trimStart s) = true.
Proof.
  induction s as [| c s IH]; cbn; auto.
  destruct (isSpace c) eqn:Hc; [exact IH | cbn; rewrite Hc; reflexivity].
Qed.

Lemma startsClean_trimEnd (s : string) :
  startsClean s = true -> startsClean (trimEnd s) = true.
Proof.
  destruct s as [| c s]; cbn; auto.
  intros Hc. apply negb_true_iff in Hc.
  destruct (trimEnd s); rewrite ?Hc; cbn; rewrite Hc; reflexivity.
Qed.

Lemma every_append (p : ascii -> bool) (a b : string) :
  every p (a ++ b) = every p a && every p b.
Proof.
  induction a as [| c a IH]; [reflexivity |].
  change (String c a ++ b) with (String c (a ++ b)). cbn. rewrite IH, andb_assoc.
  reflexivity.
Qed.

(** Replacing the runs of white space by one space leaves no other white
    space. *)
Lemma every_plain_replaceRuns (inRun : bool) (s : string) :
  every plain (replaceRuns isSpace " " inRun s) = true.
Proof.
  revert inRun. induction s as [| c s IH]; intros inRun; cbn [replaceRuns]; [reflexivity |].
  destruct (isSpace c) eqn:Hc.
  - destruct inRun; [apply IH |]. rewrite every_append, IH. reflexivity.
  - cbn. unfold plain at 1. rewrite Hc. cbn. apply IH.
Qed.

(** X3. [sanitizeTitle] gives at most 255 characters, on one line (the only
    white space left is the plain space) and with no white space in front;
    so the title of the destination issue is the key in brackets, a space,
    and at most 255 characters of the summary. *)
Theorem sanitizeTitle_bounded (text : string) :
  String.length (sanitizeTitle text) <= 255
  /\ every plain (sanitizeTitle text) = true
  /\ startsClean (sanitizeTitle text) = true
  /\ (forall jiraIssue : Migrator.JiraIssue,
         exists rest,
           Migrator.buildGitHubTitle jiraIssue = "[" ++ Migrator.key jiraIssue ++ "] " ++ rest
           /\ String.length rest <= 255).
Proof.
  assert (forall t, String.length (sanitizeTitle t) <= 255) as Hlen.
  { intros t. unfold sanitizeTitle.
    destruct (String.eqb t ""); [cbn; lia | apply length_substring_0]. }
  split; [apply Hlen |].
  split; [| split].
  - unfold sanitizeTitle. destruct (String.eqb text ""); [reflexivity |].
    apply every_substring_0, every_trimEnd, every_trimStart, every_plain_replaceRuns.
  - unfold sanitizeTitle. destruct (String.eqb text ""); [reflexivity |].
    apply startsClean_substring_0, startsClean_trimEnd, startsClean_trimStart.
  - intros jiraIssue. eexists. split; [reflexivity | apply Hlen].
Qed.

(** * Labels *)

Lemma truthy_prefixed (c : ascii) (p x : string) :
  StatusMapper.truthy (String c p ++ x) = true.
Proof. reflexivity. Qed.

Lemma filter_all {A : Type} (p : A -> bool) (l : list A) :
  Forall (fun x => p x = true) l -> List.filter p l = l.
Proof.
  induction 1 as [| x l Hx _ IH]; [reflexivity |]. cbn. rewrite Hx, IH. reflexivity.
Qed.

(** X4. [mapLabels] always ends with the marker label migrated-from-jira,
    gives no empty label, gives at most four labels beside one per
    component, and gives a component label for every component with a name,
    so that its final [filter(Boolean)] removes nothing. *)
Theorem mapLabels_marked (labelMapping : gmap string string) (jiraIssue : Migrator.JiraIssue) :
  let labels := Migrator.mapLabels labelMapping jiraIssue in
  last labels = Some "migrated-from-jira"
  /\ Forall (fun l => StatusMapper.truthy l = true) labels
  /\ 1 <= length labels <= 4 + length (Migrator.components jiraIssue)
  /\ (forall name,
         In name (Migrator.components jiraIssue) ->
         name <> "" ->
         In ("component:" ++ slug name) labels).
Proof.
  cbv zeta. unfold Migrator.mapLabels.
  set (typeLabel := if Migrator.truthyText (Migrator.issuetypeName jiraIssue) then _ else _).
  set (priorityLabel := if Migrator.truthyText (Migrator.priorityName jiraIssue) then _ else _).
  set (componentLabels := List.map _ _).
  set (statusLabel := if Migrator.truthyText (Migrator.statusName jiraIssue) then _ else _).
  assert (Forall (fun l => StatusMapper.truthy l = true) typeLabel /\ length typeLabel <= 1)
    as [Ht Htl].
  { subst typeLabel.
    destruct (Migrator.truthyText (Migrator.issuetypeName jiraIssue));
      [| split; [constructor | cbn; lia]].
    destruct (labelMapping !! _) as [l |]; [| split; [constructor | cbn; lia]].
    destruct (StatusMapper.truthy l) eqn:Hl; split; cbn; try lia; repeat constructor.
    exact Hl. }
  assert (Forall (fun l => StatusMapper.truthy l = true) priorityLabel
          /\ length priorityLabel <= 1) as [Hp Hpl].
  { subst priorityLabel.
    destruct (Migrator.truthyText (Migrator.priorityName jiraIssue)); split; cbn; try lia;
      repeat constructor. }
  assert (Forall (fun l => StatusMapper.truthy l = true) statusLabel
          /\ length statusLabel <= 1) as [Hs Hsl].
  { subst statusLabel.
    destruct (Migrator.truthyText (Migrator.statusName jiraIssue)); split; cbn; try lia;
      repeat constructor. }
  assert (Forall (fun l => StatusMapper.truthy l = true) componentLabels) as Hc.
  { subst componentLabels. apply List.Forall_forall. intros l Hin.
    apply List.in_map_iff in Hin as (name & <- & _). reflexivity. }
  assert (length componentLabels <= length (Migrator.components jiraIssue)) as Hcl.
  { subst componentLabels. rewrite List.length_map. apply List.filter_length_le. }
  assert (Forall (fun l => StatusMapper.truthy l = true)
                 (typeLabel ++ priorityLabel ++ componentLabels ++ statusLabel
                  ++ ["migrated-from-jira"])) as Hall.
  { repeat (apply Forall_app; split); try assumption. repeat constructor. }
  rewrite (filter_all _ _ Hall).
  split; [rewrite !app_assoc; apply last_snoc |].
  split; [exact Hall |].
  split; [rewrite !length_app; cbn; lia |].
  intros name Hin Hne. apply in_or_app. right. apply in_or_app. right.
  apply in_or_app. left. subst componentLabels.
  apply List.in_map_iff. exists name. split; [reflexivity |].
  apply List.filter_In. split; [exact Hin |].
  unfold StatusMapper.truthy. destruct (String.eqb_spec name ""); [contradiction | reflexivity].
Qed.

Lemma length_substring_0_min (n : nat) (s : string) :
  String.length (substring 0 n s) = Nat.min n (String.length s).
Proof.
  revert n. induction s as [| c s IH]; intros [| n]; cbn; try reflexivity.
  rewrite IH. reflexivity.
Qed.

Lemma length_append (a b : string) :
  String.length (a ++ b) = String.length a + String.length b.
Proof.
  induction a as [| c a IH]; [reflexivity |].
  change (String c a ++ b) with (String c (a ++ b)). cbn. rewrite IH. reflexivity.
Qed.

(** X20. [truncate] returns a text of at most [maxLength] characters only
    when [maxLength] is 3 or more: a text within the limit comes back as it
    is, a longer one is cut to [maxLength - 3] characters followed by three
    dots, which for a limit below 3 is the three dots alone, longer than
    the limit. *)
Theorem truncate_length (text : string) (maxLength : Z) :
  let r := truncate text maxLength in
  let n := Z.of_nat (String.length text) in
  ((n <= maxLength)%Z -> r = text)
  /\ ((maxLength < n)%Z -> text <> "" ->
      r = substring 0 (Z.to_nat (maxLength - 3)) text ++ "..."
      /\ Z.of_nat (String.length r) = Z.max maxLength 3)
  /\ ((3 <= maxLength)%Z -> (Z.of_nat (String.length r) <= maxLength)%Z)
  /\ ((maxLength < 3)%Z -> (3 < n)%Z -> r = "...").
Proof.
  cbv zeta. unfold truncate.
  assert (forall k, (k < Z.of_nat (String.length text))%Z ->
                    Z.of_nat (String.length (substring 0 (Z.to_nat (k - 3)) text ++ "..."))
                    = Z.max k 3) as Hcut.
  { intros k Hk. rewrite length_append, length_substring_0_min.
    change (String.length "...") with 3. lia. }
  destruct (String.eqb_spec text "") as [-> | Hne].
  - cbn [orb String.length]. repeat split; intros; try reflexivity; try congruence; cbn in *; lia.
  - cbn [orb]. destruct (Z.leb_spec (Z.of_nat (String.length text)) maxLength) as [Hle | Hlt].
    + repeat split; intros; try reflexivity; try lia.
    + split; [lia |]. split; [intros _ _; split; [reflexivity | apply Hcut, Hlt] |].
      split; [intros Hm; rewrite (Hcut _ Hlt); lia |].
      intros Hm _. replace (Z.to_nat (maxLength - 3)) with 0 by lia.
      destruct text; reflexivity.
Qed.

End TextProps.

(** * Further properties of the orchestrator *)

Module MigratorMore.

Import Migrator MigratorNotions MigratorProps.

#[local] Open Scope list_scope.

Section Done.
Context {W : Type}.
Variable svc : Services W.

Lemma isDone_entry (m : gmap string MappingEntry) (k : string) (entry : MappingEntry) :
  m !! k = Some entry ->
  isDone m k = String.eqb (status entry) "migrated" || String.eqb (status entry) "existing".
Proof. intros H. unfold isDone. rewrite !(hasStatus_entry _ _ _ _ H). reflexivity. Qed.

Lemma isDone_skip (jiraIssue : JiraIssue) (aiSummary : option string) (st : State W) :
  isDone (mapping st) (key jiraIssue) = true ->
  exists note,
    processIssue svc jiraIssue aiSummary st
    = (Returned tt,
       mkState (config st) (mapping st) (incSkipped (incProcessed (stats st))) (world st)
               (calls st) (logged st ++ [(Debug, note)])).
Proof.
  intros H. apply processIssue_skip. unfold isDone in H.
  apply orb_true_iff in H. exact H.
Qed.

Lemma processIssue_keeps_done
      (jiraIssue : JiraIssue) (aiSummary : option string) (st : State W) (k : string)
      (entry : MappingEntry) :
  mapping st !! k = Some entry ->
  isDone (mapping st) k = true ->
  mapping (snd (processIssue svc jiraIssue aiSummary st)) !! k = Some entry.
Proof.
  intros Hentry Hdone. destruct (decide (key jiraIssue = k)) as [<- | Hne].
  - destruct (isDone_skip jiraIssue aiSummary st Hdone) as [note ->]. exact Hentry.
  - pose proof (processIssue_effect svc jiraIssue aiSummary st)
      as (_ & _ & _ & _ & [-> | [e ->]] & _); [exact Hentry |].
    rewrite lookup_insert_ne by exact Hne. exact Hentry.
Qed.

(** X5. An entry that says migrated or existing is never overwritten:
    whatever the items of a batch are and whatever the collaborators answer,
    the entry is still there, unchanged, after the batch. *)
Theorem done_entries_are_kept
        (summaries : gmap string string) (items : list JiraIssue) (st : State W)
        (k : string) (entry : MappingEntry) :
  mapping st !! k = Some entry ->
  status entry = "migrated" \/ status entry = "existing" ->
  mapping (snd (processBatchItems svc summaries items st)) !! k = Some entry.
Proof.
  intros Hentry Hstatus.
  assert (String.eqb (status entry) "migrated" || String.eqb (status entry) "existing" = true)
    as Hdone by (destruct Hstatus as [-> | ->]; reflexivity).
  revert st Hentry. induction items as [| x xs IH]; intros st Hentry; [exact Hentry |].
  rewrite processBatchItems_cons. apply IH.
  apply processIssue_keeps_done; [exact Hentry |].
  rewrite (isDone_entry _ _ _ Hentry). exact Hdone.
Qed.

(** A batch of items that are all done, as one step on the state. *)
Lemma processBatchItems_skips
      (summaries : gmap string string) (items : list JiraIssue) :
  forall st : State W,
    Forall (fun jiraIssue => isDone (mapping st) (key jiraIssue) = true) items ->
    exists notes,
      processBatchItems svc summaries items st
      = (Returned tt,
         mkState (config st) (mapping st)
                 (mkStats (processed (stats st) + length items) (created (stats st))
                          (skipped (stats st) + length items) (errors (stats st))
                          (comments (stats st)) (attachments (stats st)))
                 (world st) (calls st) (logged st ++ notes))
      /\ length notes = length items.
Proof.
  induction items as [| x xs IH]; intros st Hall.
  - exists []. cbn. destruct st as [c m [p cr sk er co at_] w cs ls]. cbn.
    rewrite !Nat.add_0_r, app_nil_r. split; reflexivity.
  - apply Forall_cons in Hall as [Hx Hxs].
    rewrite processBatchItems_cons.
    destruct (isDone_skip x (summaries !! key x) st Hx) as [note ->]. cbn [snd].
    match goal with |- context [processBatchItems svc summaries xs ?s] =>
      destruct (IH s Hxs) as (notes & -> & Hlen) end.
    exists ((Debug, note) :: notes).
    cbn [config mapping stats world calls logged processed created skipped errors
         comments attachments incProcessed incSkipped length].
    rewrite <- app_assoc, Hlen. split; [| reflexivity].
    do 2 f_equal. f_equal; lia.
Qed.

(** X6. A batch whose items are all migrated or existing is a pure skip: no
    collaborator is called, the table and the world stay as they are, and
    processed and skipped grow by the number of items. *)
Theorem batch_of_done_items_is_skipped
        (summaries : gmap string string) (items : list JiraIssue) (st : State W) :
  Forall (fun jiraIssue => isDone (mapping st) (key jiraIssue) = true) items ->
  let r := processBatchItems svc summaries items st in
  fst r = Returned tt
  /\ calls (snd r) = calls st
  /\ world (snd r) = world st
  /\ mapping (snd r) = mapping st
  /\ stats (snd r)
     = mkStats (processed (stats st) + length items) (created (stats st))
               (skipped (stats st) + length items) (errors (stats st))
               (comments (stats st)) (attachments (stats st)).
Proof.
  intros Hall. cbv zeta.
  destruct (processBatchItems_skips summaries items st Hall) as (notes & -> & _).
  cbn [fst snd config mapping stats world calls logged]. repeat split.
Qed.

End Done.

Section Records.
Context {W : Type}.
Variable svc : Services W.

(** What [processIssue] does to the table and to the error counter. *)
Lemma processIssue_records (jiraIssue : JiraIssue) (aiSummary : option string) (st : State W) :
  let st' := snd (processIssue svc jiraIssue aiSummary st) in
  (mapping st' = mapping st
   /\ errors (stats st') = errors (stats st)
   /\ (isDone (mapping st) (key jiraIssue) = true \/ dryRun (config st) = true))
  \/ (exists entry,
         mapping st' = <[key jiraIssue := entry]> (mapping st)
         /\ ((status entry = "migrated" \/ status entry = "existing")
             /\ errors (stats st') = errors (stats st)
             \/ status entry = "error" /\ errors (stats st') = errors (stats st) + 1)).
Proof.
  cbv zeta.
  destruct (isDone (mapping st) (key jiraIssue)) eqn:Hdone.
  { destruct (isDone_skip svc jiraIssue aiSummary st Hdone) as [note ->]. left. cbn. auto. }
  unfold isDone in Hdone. apply orb_false_iff in Hdone as [Hm He].
  destruct (findExistingIssue svc (key jiraIssue) (world st)) as [[[existing |] | e] w] eqn:Hf.
  - destruct (processIssue_found svc jiraIssue aiSummary st Hm He existing w Hf) as [notes ->].
    right. eexists. cbn. split; [reflexivity |]. left. cbn. auto.
  - destruct (dryRun (config st)) eqn:Hdry.
    + destruct (processIssue_dry_run svc jiraIssue aiSummary st Hm He w Hf Hdry) as [notes ->].
      left. cbn. auto.
    + pose proof (framed_convertAndCreateIssue svc jiraIssue aiSummary
                    (searched jiraIssue st w)) as Hfr.
      destruct (convertAndCreateIssue svc jiraIssue aiSummary (searched jiraIssue st w))
        as [[githubIssue | e] st2] eqn:Hc; cbn [snd] in Hfr;
        destruct Hfr as [_ Hm2 (_ & _ & _ & Her2) _ _]; unfold searched in Hm2, Her2;
        cbn in Hm2, Her2.
      * destruct (processIssue_created svc jiraIssue aiSummary st Hm He w githubIssue st2
                    Hf Hdry Hc) as [note ->].
        match goal with
        | |- context [migrateComments svc jiraIssue ?n ?r] =>
            pose proof (framed_migrateComments svc jiraIssue n r) as Hfc;
            destruct (migrateComments svc jiraIssue n r) as [c st3]
        end.
        destruct Hfc as [_ Hm3 (_ & _ & _ & Her3) _ _]. cbn in Hm3, Her3.
        right. eexists. cbn. rewrite Hm3, Hm2, Her3, Her2. split; [reflexivity |].
        left. cbn. auto.
      * destruct (processIssue_create_failed svc jiraIssue aiSummary st Hm He w e st2
                    Hf Hdry Hc) as [notes ->].
        right. eexists. cbn. rewrite Hm2, Her2. split; [reflexivity |].
        right. cbn. auto.
  - destruct (processIssue_search_failed svc jiraIssue aiSummary st Hm He e w Hf) as [notes ->].
    right. eexists. cbn. split; [reflexivity |]. right. cbn. auto.
Qed.

Lemma isDone_insert (m : gmap string MappingEntry) (k : string) (entry : MappingEntry) :
  status entry = "migrated" \/ status entry = "existing" ->
  isDone (<[k := entry]> m) k = true.
Proof.
  intros H. rewrite (isDone_entry _ _ entry) by apply lookup_insert_eq.
  destruct H as [-> | ->]; reflexivity.
Qed.

Lemma isDone_kept (jiraIssue : JiraIssue) (aiSummary : option string) (st : State W)
      (k : string) :
  isDone (mapping st) k = true ->
  isDone (mapping (snd (processIssue svc jiraIssue aiSummary st))) k = true.
Proof.
  intros Hdone.
  destruct (mapping st !! k) as [entry |] eqn:Hentry.
  - rewrite (isDone_entry _ _ entry).
    + rewrite <- (isDone_entry _ _ _ Hentry). exact Hdone.
    + apply processIssue_keeps_done; assumption.
  - unfold isDone, hasStatus in Hdone. rewrite Hentry in Hdone. discriminate.
Qed.

Variable summaries : gmap string string.

Lemma processBatchItems_errors_grow (items : list JiraIssue) :
  forall st : State W,
    errors (stats st) <= errors (stats (snd (processBatchItems svc summaries items st))).
Proof.
  induction items as [| x xs IH]; intros st; [cbn; lia |].
  rewrite processBatchItems_cons.
  pose proof (processIssue_effect svc x (summaries !! key x) st) as (_ & _ & (_ & Hc) & _).
  specialize (IH (snd (processIssue svc x (summaries !! key x) st))). lia.
Qed.

Lemma processBatchItems_keeps_isDone (items : list JiraIssue) (k : string) :
  forall st : State W,
    isDone (mapping st) k = true ->
    isDone (mapping (snd (processBatchItems svc summaries items st))) k = true.
Proof.
  induction items as [| x xs IH]; intros st Hdone; [exact Hdone |].
  rewrite processBatchItems_cons. apply IH, isDone_kept, Hdone.
Qed.

(** After a batch of a run that is no dry run, with no new error, every item
    is migrated or existing. *)
Lemma batch_without_errors_is_done (items : list JiraIssue) :
  forall st : State W,
    dryRun (config st) = false ->
    errors (stats (snd (processBatchItems svc summaries items st))) = errors (stats st) ->
    Forall (fun jiraIssue =>
              isDone (mapping (snd (processBatchItems svc summaries items st)))
                     (key jiraIssue) = true)
           items.
Proof.
  induction items as [| x xs IH]; intros st Hdry Herr; [constructor |].
  rewrite processBatchItems_cons in *.
  set (st1 := snd (processIssue svc x (summaries !! key x) st)) in *.
  pose proof (processIssue_effect svc x (summaries !! key x) st) as (_ & Hcfg & (_ & Hc) & _).
  pose proof (processBatchItems_errors_grow xs st1) as Hgrow.
  fold st1 in Hcfg, Hc.
  assert (errors (stats st1) = errors (stats st)) as Hsame by lia.
  constructor.
  - apply processBatchItems_keeps_isDone.
    pose proof (processIssue_records x (summaries !! key x) st) as Hrec.
    cbv zeta in Hrec. fold st1 in Hrec.
    destruct Hrec as [(Hmap & _ & [Hdone | Hd]) | (entry & Hmap & [[Hs _] | [_ He]])].
    + rewrite Hmap. exact Hdone.
    + congruence.
    + rewrite Hmap. apply isDone_insert, Hs.
    + lia.
  - apply IH; [congruence | lia].
Qed.

End Records.

Section Passes.
Context {W : Type}.
Variable svc : Services W.

(** X7. When the search finds an issue for an item that is not yet migrated
    or existing, [processIssue] records it as existing with the number and
    the address found, counts the item as skipped and calls nothing else; it
    does so in a dry run as well. *)
Theorem existing_issue_is_recorded
        (jiraIssue : JiraIssue) (aiSummary : option string) (st : State W)
        (existing : GitHubIssue) (w : W) :
  isDone (mapping st) (key jiraIssue) = false ->
  findExistingIssue svc (key jiraIssue) (world st) = (Returned (Some existing), w) ->
  let r := processIssue svc jiraIssue aiSummary st in
  fst r = Returned tt
  /\ mapping (snd r)
     = <[key jiraIssue := mkEntry (Some (number existing)) (Some (html_url existing)) None None
                                  (isoNow svc w) "existing"]> (mapping st)
  /\ stats (snd r) = incSkipped (incProcessed (stats st))
  /\ calls (snd r) = calls st ++ [FindExistingIssue (key jiraIssue)]
  /\ world (snd r) = w.
Proof.
  intros Hdone Hf. cbv zeta.
  unfold isDone in Hdone. apply orb_false_iff in Hdone as [Hm He].
  destruct (processIssue_found svc jiraIssue aiSummary st Hm He existing w Hf) as [notes ->].
  cbn. repeat split.
Qed.

(** The calls of one item in a dry run. *)
Lemma processIssue_dry_calls (jiraIssue : JiraIssue) (aiSummary : option string)
      (st : State W) :
  dryRun (config st) = true ->
  let st' := snd (processIssue svc jiraIssue aiSummary st) in
  calls st' = calls st \/ calls st' = calls st ++ [FindExistingIssue (key jiraIssue)].
Proof.
  intros Hdry. cbv zeta.
  destruct (isDone (mapping st) (key jiraIssue)) eqn:Hdone.
  { destruct (isDone_skip svc jiraIssue aiSummary st Hdone) as [note ->]. left. reflexivity. }
  unfold isDone in Hdone. apply orb_false_iff in Hdone as [Hm He].
  destruct (findExistingIssue svc (key jiraIssue) (world st)) as [[[existing |] | e] w] eqn:Hf.
  - destruct (processIssue_found svc jiraIssue aiSummary st Hm He existing w Hf) as [notes ->].
    right. reflexivity.
  - destruct (processIssue_dry_run svc jiraIssue aiSummary st Hm He w Hf Hdry) as [notes ->].
    right. reflexivity.
  - destruct (processIssue_search_failed svc jiraIssue aiSummary st Hm He e w Hf) as [notes ->].
    right. reflexivity.
Qed.

(** X8. In a dry run a whole batch calls nothing but the search at the
    destination, and only for items of the batch: nothing is created,
    posted or uploaded, whatever the table holds and whatever the search
    answers. *)
Theorem dry_run_only_searches
        (summaries : gmap string string) (items : list JiraIssue) (st : State W) :
  dryRun (config st) = true ->
  exists cs,
    calls (snd (processBatchItems svc summaries items st)) = calls st ++ cs
    /\ Forall (fun c => exists jiraIssue,
                   In jiraIssue items /\ c = FindExistingIssue (key jiraIssue)) cs
    /\ List.filter mutatesDestination cs = [].
Proof.
  revert st. induction items as [| x xs IH]; intros st Hdry.
  - exists []. cbn. rewrite app_nil_r. repeat split. constructor.
  - rewrite processBatchItems_cons.
    pose proof (processIssue_effect svc x (summaries !! key x) st) as (_ & Hcfg & _).
    pose proof (processIssue_dry_calls x (summaries !! key x) st Hdry) as Hcalls.
    cbv zeta in Hcalls.
    destruct (IH (snd (processIssue svc x (summaries !! key x) st))) as (cs & -> & Hall & Hnone);
      [congruence |].
    assert (Forall (fun c => exists jiraIssue,
                        In jiraIssue (x :: xs) /\ c = FindExistingIssue (key jiraIssue)) cs)
      as Hall'.
    { eapply Forall_impl; [exact Hall |]. intros c (i & Hi & ->). exists i. split; [right |]; auto. }
    destruct Hcalls as [-> | ->].
    + exists cs. repeat split; assumption.
    + exists (FindExistingIssue (key x) :: cs). rewrite <- app_assoc.
      split; [reflexivity |]. split; [| exact Hnone].
      constructor; [| exact Hall']. exists x. split; [left |]; reflexivity.
Qed.

(** X9. A batch of a run that is no dry run, gone through with no new
    error, has nothing left to do: going through the same items again calls
    no collaborator, changes neither table nor world, and counts every item
    as skipped. *)
Theorem second_pass_is_skipped
        (summaries summaries' : gmap string string) (items : list JiraIssue) (st : State W) :
  dryRun (config st) = false ->
  let st1 := snd (processBatchItems svc summaries items st) in
  errors (stats st1) = errors (stats st) ->
  let r := processBatchItems svc summaries' items st1 in
  fst r = Returned tt
  /\ calls (snd r) = calls st1
  /\ world (snd r) = world st1
  /\ mapping (snd r) = mapping st1
  /\ created (stats (snd r)) = created (stats st1)
  /\ skipped (stats (snd r)) = skipped (stats st1) + length items.
Proof.
  intros Hdry st1 Herr. cbv zeta.
  pose proof (batch_without_errors_is_done svc summaries items st Hdry Herr) as Hdone.
  fold st1 in Hdone.
  destruct (processBatchItems_skips svc summaries' items st1 Hdone) as (notes & -> & _).
  cbn [fst snd config mapping stats world calls logged created skipped]. repeat split.
Qed.

End Passes.

Lemma existing_issue_is_recorded_witness :
  let found := fun (_ : string) (w : nat) =>
                 (Returned (Some (mkGitHubIssue 7 "https://github.example/7")), w) in
  let svc := Scenarios.withSearch (Scenarios.quiet [] [] false) found in
  let r := processIssue svc (Scenarios.issueOf "X-1") None
                        (create (Scenarios.configOf 10 true) 0) in
  fst r = Returned tt
  /\ mapping (snd r)
     = {[ "X-1" := mkEntry (Some 7) (Some "https://github.example/7") None None
                           "2024-01-01T00:00:00.000Z" "existing" ]}
  /\ stats (snd r) = mkStats 1 0 1 0 0 0
  /\ calls (snd r) = [FindExistingIssue "X-1"]
  /\ world (snd r) = 0.
Proof.
  exact (existing_issue_is_recorded
           (Scenarios.withSearch (Scenarios.quiet [] [] false)
              (fun _ w => (Returned (Some (mkGitHubIssue 7 "https://github.example/7")), w)))
           (Scenarios.issueOf "X-1") None (create (Scenarios.configOf 10 true) 0)
           (mkGitHubIssue 7 "https://github.example/7") 0 eq_refl eq_refl).
Defined.

Lemma dry_run_only_searches_witness :
  let st := create (Scenarios.configOf 10 true) 0 in
  let items := [Scenarios.issueOf "X-1"; Scenarios.issueOf "X-2"] in
  exists cs,
    calls (snd (processBatchItems (Scenarios.quiet [] [] false) ∅ items st)) = calls st ++ cs
    /\ Forall (fun c => exists jiraIssue,
                   In jiraIssue items /\ c = FindExistingIssue (key jiraIssue)) cs
    /\ List.filter mutatesDestination cs = [].
Proof.
  exact (dry_run_only_searches (Scenarios.quiet [] [] false) ∅
           [Scenarios.issueOf "X-1"; Scenarios.issueOf "X-2"]
           (create (Scenarios.configOf 10 true) 0) eq_refl).
Defined.

Lemma second_pass_is_skipped_witness :
  let svc := Scenarios.quiet [] [] false in
  let items := [Scenarios.issueOf "X-1"; Scenarios.issueOf "X-2"] in
  let st1 := snd (processBatchItems svc ∅ items (create (Scenarios.configOf 10 false) 0)) in
  let r := processBatchItems svc ∅ items st1 in
  fst r = Returned tt
  /\ calls (snd r) = calls st1
  /\ world (snd r) = world st1
  /\ mapping (snd r) = mapping st1
  /\ created (stats (snd r)) = created (stats st1)
  /\ skipped (stats (snd r)) = skipped (stats st1) + 2.
Proof.
  exact (second_pass_is_skipped (Scenarios.quiet [] [] false) ∅ ∅
           [Scenarios.issueOf "X-1"; Scenarios.issueOf "X-2"]
           (create (Scenarios.configOf 10 false) 0) eq_refl
           ltac:(vm_compute; reflexivity)).
Defined.

Lemma done_entries_are_kept_witness :
  let st := loaded (Scenarios.configOf 10 false) {[ "X-1" := Scenarios.migratedBefore ]} 0 in
  mapping (snd (processBatchItems (Scenarios.quiet [] [] false) ∅
                                  [Scenarios.issueOf "X-2"; Scenarios.issueOf "X-1"] st))
  !! "X-1" = Some Scenarios.migratedBefore.
Proof.
  exact (done_entries_are_kept (Scenarios.quiet [] [] false) ∅
           [Scenarios.issueOf "X-2"; Scenarios.issueOf "X-1"]
           (loaded (Scenarios.configOf 10 false) {[ "X-1" := Scenarios.migratedBefore ]} 0)
           "X-1" Scenarios.migratedBefore eq_refl (or_introl eq_refl)).
Defined.

Lemma batch_of_done_items_is_skipped_witness :
  let st := loaded (Scenarios.configOf 10 false) {[ "X-1" := Scenarios.migratedBefore ]} 0 in
  let r := processBatchItems (Scenarios.quiet [] [] false) ∅
                             [Scenarios.issueOf "X-1"; Scenarios.issueOf "X-1"] st in
  fst r = Returned tt
  /\ calls (snd r) = []
  /\ world (snd r) = 0
  /\ mapping (snd r) = {[ "X-1" := Scenarios.migratedBefore ]}
  /\ stats (snd r) = mkStats 2 0 2 0 0 0.
Proof.
  exact (batch_of_done_items_is_skipped (Scenarios.quiet [] [] false) ∅
           [Scenarios.issueOf "X-1"; Scenarios.issueOf "X-1"]
           (loaded (Scenarios.configOf 10 false) {[ "X-1" := Scenarios.migratedBefore ]} 0)
           ltac:(repeat constructor)).
Defined.

End MigratorMore.

(** * The steps around the items *)

Module MigratorSteps.

Import Migrator MigratorNotions MigratorProps.

#[local] Open Scope list_scope.

Section Steps.
Context {W : Type}.
Variable svc : Services W.

(** X10. [generateSummaries] asks for summaries of the issues that have no
    entry in the table, in their order, and of no other: an issue with an
    entry of any status, also one that failed and will be retried, gets
    none.  With summaries off, the summarizer not available or no such
    issue, it calls nothing and returns the empty object. *)
Theorem generateSummaries_leaves_mapped_out (jiraIssues : list JiraIssue) (st : State W) :
  let todo := List.filter (unmapped (mapping st)) jiraIssues in
  let r := generateSummaries svc jiraIssues st in
  (forall jiraIssue,
      In jiraIssue todo <-> In jiraIssue jiraIssues /\ mapping st !! key jiraIssue = None)
  /\ (includeSummary (config st) = false
      \/ summarizerIsAvailable svc (world st) = false
      \/ todo = [] ->
      fst r = Returned ∅ /\ calls (snd r) = calls st /\ world (snd r) = world st)
  /\ (includeSummary (config st) = true ->
      summarizerIsAvailable svc (world st) = true ->
      todo <> [] ->
      fst r = fst (summarizeIssuesBatch svc todo (world st))
      /\ calls (snd r) = calls st ++ [SummarizeIssuesBatch (key <$> todo)]).
Proof.
  cbv zeta. split; [| split].
  - intros jiraIssue. rewrite List.filter_In. unfold unmapped.
    destruct (mapping st !! key jiraIssue); intuition congruence.
  - intros H. unfold generateSummaries, bind, get, log, ret, call.
    cbn [config mapping stats world calls logged fst snd].
    destruct (includeSummary (config st)); [| cbn; auto].
    destruct (summarizerIsAvailable svc (world st)); [| cbn; auto].
    destruct H as [H | [H | H]]; try discriminate. rewrite H. cbn. auto.
  - intros Hi Ha Hne. unfold generateSummaries, bind, get, log, ret, call.
    cbn [config mapping stats world calls logged fst snd]. rewrite Hi, Ha.
    cbn [negb orb].
    destruct (List.filter (unmapped (mapping st)) jiraIssues) as [| x xs] eqn:Htodo;
      [contradiction |].
    cbn [length Nat.eqb].
    destruct (summarizeIssuesBatch svc (x :: xs) (world st)) as [c w']. cbn. auto.
Qed.

Lemma forEach_cons_returned {A : Type} (f : A -> @M W unit) (x : A) (xs : list A)
      (st st1 : State W) :
  f x st = (Returned tt, st1) -> forEach f (x :: xs) st = forEach f xs st1.
Proof. intros H. cbn [forEach]. unfold bind. rewrite H. reflexivity. Qed.

(** The loop of [replicateComments] when every comment can be posted. *)
Lemma forEach_comments_posted (n : nat) (cs : list JiraComment) :
  (forall k text w, fst (createComment svc k text w) = Returned tt) ->
  forall st : State W,
    let r := forEach (fun c => bind (migrateComment svc c n) (fun _ => modifyStats incComments))
                     cs st in
    fst r = Returned tt
    /\ calls (snd r)
       = calls st ++ List.map (fun c => CreateComment n (githubCommentBody svc c)) cs
    /\ comments (stats (snd r)) = comments (stats st) + length cs
    /\ logged (snd r) = logged st.
Proof.
  intros Hpost. induction cs as [| c cs IH]; intros st; cbv zeta.
  - cbn. rewrite app_nil_r. repeat split; lia.
  - pose proof (Hpost n (githubCommentBody svc c) (world st)) as Hok.
    destruct (createComment svc n (githubCommentBody svc c) (world st)) as [[[] | e] w']
      eqn:Hcall; [| discriminate].
    rewrite (forEach_cons_returned _ c cs st
               (mkState (config st) (mapping st) (incComments (stats st)) w'
                        (calls st ++ [CreateComment n (githubCommentBody svc c)])
                        (logged st))).
    + match goal with |- context [forEach _ cs ?s] =>
        specialize (IH s); cbv zeta in IH; destruct IH as (H1 & H2 & H3 & H4) end.
      cbn [fst snd config mapping stats world calls logged comments incComments] in *.
      rewrite H2, H3, H4, <- app_assoc. cbn [length]. repeat split; try assumption. lia.
    + unfold bind, migrateComment, call, modifyStats.
      change (createComment svc n (githubCommentBody svc c) (world st))
        with (createComment svc n (githubCommentBody svc c) (world st)).
      fold (githubCommentBody svc c). rewrite Hcall. reflexivity.
Qed.

(** X11. When the comments of an issue can be read and every comment can be
    posted, [migrateComments] posts one comment per source comment, in the
    order of the source, each with its attribution line, counts each of them
    and logs no warning. *)
Theorem comments_are_posted_in_order
        (jiraIssue : JiraIssue) (n : nat) (st : State W) (cs : list JiraComment) (w : W) :
  getComments svc (key jiraIssue) (world st) = (Returned cs, w) ->
  (forall k text w', fst (createComment svc k text w') = Returned tt) ->
  let r := migrateComments svc jiraIssue n st in
  fst r = Returned tt
  /\ calls (snd r)
     = calls st ++ GetComments (key jiraIssue)
                :: List.map (fun c => CreateComment n (githubCommentBody svc c)) cs
  /\ comments (stats (snd r)) = comments (stats st) + length cs
  /\ List.filter isWarn (logged (snd r)) = List.filter isWarn (logged st).
Proof.
  intros Hget Hpost.
  set (st0 := mkState (config st) (mapping st) (stats st) w
                      (calls st ++ [GetComments (key jiraIssue)]) (logged st)).
  assert (exists st',
             migrateComments svc jiraIssue n st = (Returned tt, st')
             /\ calls st'
                = calls st0 ++ List.map (fun c => CreateComment n (githubCommentBody svc c)) cs
             /\ comments (stats st') = comments (stats st0) + length cs
             /\ List.filter isWarn (logged st') = List.filter isWarn (logged st0))
    as (st' & -> & H2 & H3 & H4).
  { unfold migrateComments, tryCatch, replicateComments, bind, call. rewrite Hget.
    fold st0. destruct cs as [| c cs].
    - cbn. eexists. split; [reflexivity |]. cbn.
      rewrite app_nil_r, Nat.add_0_r. repeat split.
    - cbn [length Nat.eqb]. unfold log at 1.
      match goal with |- context [forEach ?f (c :: cs) ?s] =>
        pose proof (forEach_comments_posted n (c :: cs) Hpost s) as Hall;
        cbv zeta in Hall; change (forEach _ (c :: cs) s) with (forEach f (c :: cs) s) in Hall;
        destruct (forEach f (c :: cs) s) as [[[] | e] st'] end;
        destruct Hall as (H1 & H2 & H3 & H4);
        cbn [fst snd config mapping stats world calls logged] in *; [| discriminate].
      exists st'. split; [reflexivity |]. rewrite H2, H3, H4, List.filter_app. cbn.
      rewrite app_nil_r. repeat split. }
  cbv zeta. cbn [fst snd]. subst st0. cbn in H2, H3, H4.
  rewrite H2, H3, H4, <- app_assoc. repeat split.
Qed.

(** The calls of [buildGitHubBody]: none, or the handling of the
    attachments. *)
Lemma buildGitHubBody_calls (jiraIssue : JiraIssue) (aiSummary : option string) (st : State W) :
  let st' := snd (buildGitHubBody svc jiraIssue aiSummary st) in
  config st' = config st
  /\ (calls st' = calls st
      \/ calls st'
         = calls st ++ [HandleAttachments (key jiraIssue) (length (attachment jiraIssue))]).
Proof.
  cbv zeta. unfold buildGitHubBody, bind, getConfig, call, modifyStats, clock, ret.
  cbn [config mapping stats world calls logged fst snd].
  destruct (0 <? length (attachment jiraIssue))%nat; cbn; [| auto].
  destruct (handleAttachments svc _ _ _ _) as [[text | e] w']; cbn; auto.
Qed.

(** X12. [convertAndCreateIssue] asks for the creation of an issue at most
    once, and only right after it has ensured the labels of that very issue;
    before that it calls at most the handling of the attachments; and it
    returns an issue only when the creation was asked for. *)
Theorem labels_are_ensured_before_creation
        (jiraIssue : JiraIssue) (aiSummary : option string) (st : State W) :
  let r := convertAndCreateIssue svc jiraIssue aiSummary st in
  exists pre,
    (pre = [] \/ pre = [HandleAttachments (key jiraIssue) (length (attachment jiraIssue))])
    /\ ((exists e, fst r = Thrown e /\ calls (snd r) = calls st ++ pre)
        \/ (exists e names,
               fst r = Thrown e
               /\ calls (snd r) = calls st ++ pre ++ [EnsureLabelsExist names])
        \/ (exists data,
               calls (snd r)
               = calls st ++ pre ++ [EnsureLabelsExist (labels data); CreateIssue data]
               /\ title data = buildGitHubTitle jiraIssue
               /\ labels data = mapLabels (labelMapping (config st)) jiraIssue)).
Proof.
  cbv zeta.
  destruct (convertAndCreateIssue svc jiraIssue aiSummary st) as [c st'] eqn:Hr.
  cbn [fst snd]. unfold convertAndCreateIssue in Hr. unfold bind at 1 in Hr.
  pose proof (buildGitHubBody_calls jiraIssue aiSummary st) as (Hcfg & Hcalls).
  destruct (buildGitHubBody svc jiraIssue aiSummary st) as [[text | e] st1]; cbn [snd] in *.
  - assert (exists pre,
               (pre = [] \/ pre = [HandleAttachments (key jiraIssue)
                                                     (length (attachment jiraIssue))])
               /\ calls st1 = calls st ++ pre) as (pre & Hpre & Hst1).
    { destruct Hcalls as [H | H]; eexists; (split; [| rewrite H; try reflexivity]);
        [left; reflexivity | symmetry; apply app_nil_r | right; reflexivity]. }
    exists pre. split; [exact Hpre |].
    unfold bind at 1, getConfig at 1 in Hr. unfold bind at 1 in Hr.
    destruct (mapStatusOf (statusMapping (config st1)) (statusName jiraIssue) st1)
      as [[state | e] st2] eqn:Hmap;
      (assert (st2 = st1) as ->;
       [unfold mapStatusOf, ret, throw in Hmap;
        destruct (statusName jiraIssue); [congruence |];
        destruct (statusMapping (config st1) !! "undefined") as [m |]; [| congruence];
        destruct (StatusMapper.truthy m); congruence |]).
    + unfold bind at 1, call at 1 in Hr.
      destruct (ensureLabelsExist svc _ (world st1)) as [[[] | e] w1];
        cbn [config mapping stats world calls logged fst snd] in Hr.
      * right. right. unfold call in Hr.
        cbn [config mapping stats world calls logged fst snd] in Hr.
        match type of Hr with context [createIssue svc ?d w1] =>
          destruct (createIssue svc d w1) as [c2 w2]; exists d end.
        injection Hr as _ <-. cbn. rewrite Hst1, <- !app_assoc, Hcfg.
        split; [reflexivity |]. split; reflexivity.
      * right. left. exists e. eexists. injection Hr as <- <-. cbn.
        rewrite Hst1, <- app_assoc. split; reflexivity.
    + left. exists e. injection Hr as <- <-. rewrite Hst1. split; reflexivity.
  - injection Hr as <- <-.
    destruct Hcalls as [H | H]; eexists; (split; [| left; exists e; split; [reflexivity |]]).
    + left. reflexivity.
    + rewrite H, app_nil_r. reflexivity.
    + right. reflexivity.
    + exact H.
Qed.


End Steps.

Lemma comments_are_posted_in_order_witness :
  let cs := [Scenarios.commentOf "first"; Scenarios.commentOf "second"] in
  let svc := Scenarios.quiet [] cs false in
  let st := create (Scenarios.configOf 10 false) 0 in
  let r := migrateComments svc (Scenarios.issueOf "X-1") 5 st in
  fst r = Returned tt
  /\ calls (snd r)
     = calls st ++ GetComments "X-1"
                :: List.map (fun c => CreateComment 5 (githubCommentBody svc c)) cs
  /\ comments (stats (snd r)) = comments (stats st) + 2
  /\ List.filter isWarn (logged (snd r)) = List.filter isWarn (logged st).
Proof.
  exact (comments_are_posted_in_order
           (Scenarios.quiet [] [Scenarios.commentOf "first"; Scenarios.commentOf "second"] false)
           (Scenarios.issueOf "X-1") 5 (create (Scenarios.configOf 10 false) 0)
           [Scenarios.commentOf "first"; Scenarios.commentOf "second"] 0
           eq_refl (fun _ _ _ => eq_refl)).
Defined.


End MigratorSteps.

(** * migrator.js: the batches *)

Module BatchProps.

Import Migrator MigratorNotions MigratorProps.

#[local] Open Scope list_scope.

(** The chunks of the loop of [chunkArray] started at [i], by position. *)
Lemma chunkLoop_lookup {A : Type} (array : list A) (size : nat) :
  0 < size ->
  forall fuel i chunks,
    chunkLoop fuel array size i = Some chunks ->
    forall j,
      chunks !! j
      = if (i + j * size <? length array)%nat
        then Some (take size (drop (i + j * size) array)) else None.
Proof.
  intros Hsize. induction fuel as [| fuel IH]; intros i chunks Hrun j; [discriminate |].
  cbn [chunkLoop] in Hrun. destruct (i <? length array)%nat eqn:Hi.
  - destruct (chunkLoop fuel array size (i + size)) as [rest |] eqn:Hrest; [| discriminate].
    injection Hrun as <-. destruct j as [| j].
    + replace (i + 0 * size) with i by lia. rewrite Hi. unfold slice.
      replace (i + size - i) with size by lia. reflexivity.
    + change ((slice i (i + size) array :: rest) !! S j) with (rest !! j).
      rewrite (IH _ _ Hrest j).
      replace (i + size + j * size) with (i + S j * size) by lia. reflexivity.
  - injection Hrun as <-. apply Nat.ltb_ge in Hi.
    destruct (i + j * size <? length array)%nat eqn:Hj.
    + apply Nat.ltb_lt in Hj. lia.
    + apply lookup_nil.
Qed.

(** Chunk [j] exists when position [j * size] is in the array. *)
Lemma chunkArray_index {A : Type} (array : list A) (size : nat) (chunks : list (list A)) :
  0 < size ->
  chunkArray array size = Some chunks ->
  forall j, j < length chunks <-> j * size < length array.
Proof.
  intros Hsize Hrun j.
  pose proof (chunkLoop_lookup array size Hsize _ _ _ Hrun j) as Hat. cbn [Nat.add] in Hat.
  split; intros H.
  - apply lookup_lt_is_Some in H. destruct H as [c Hc]. rewrite Hc in Hat.
    destruct (j * size <? length array)%nat eqn:Hj; [| discriminate].
    apply Nat.ltb_lt in Hj. exact Hj.
  - apply lookup_lt_is_Some. apply Nat.ltb_lt in H. rewrite H in Hat. eauto.
Qed.

Lemma chunkArray_count {A : Type} (array : list A) (size : nat) (chunks : list (list A)) :
  0 < size ->
  chunkArray array size = Some chunks ->
  length chunks = (length array + size - 1) / size.
Proof.
  intros Hsize Hrun. pose proof (chunkArray_index array size chunks Hsize Hrun) as Hlt.
  pose proof (Nat.div_mod_eq (length array + size - 1) size) as Hdiv.
  pose proof (Nat.mod_upper_bound (length array + size - 1) size ltac:(lia)) as Hmod.
  set (q := (length array + size - 1) / size) in *.
  set (r := (length array + size - 1) mod size) in *.
  assert (~ length chunks < length chunks) as Hup by lia.
  rewrite (Hlt (length chunks)) in Hup.
  destruct (length chunks) as [| n] eqn:Hn.
  - assert (q = 0 \/ 1 <= q) as [-> | Hq] by lia; [reflexivity | nia].
  - pose proof (proj1 (Hlt n) ltac:(lia)) as Hlow. nia.
Qed.

Lemma chunkArray_first {A : Type} (x : A) (xs : list A) (size : nat) :
  0 < size ->
  exists rest, chunkArray (x :: xs) size = Some (take size (x :: xs) :: rest).
Proof.
  intros Hsize.
  destruct (chunkArray_positive (x :: xs) size Hsize) as (chunks & Hrun & _).
  pose proof (chunkLoop_lookup (x :: xs) size Hsize _ _ _ Hrun 0) as Hat.
  cbn [Nat.add Nat.mul length Nat.ltb Nat.leb drop] in Hat.
  destruct chunks as [| c rest]; [discriminate |].
  injection Hat as ->. exists rest. exact Hrun.
Qed.

(** X14. With a positive size [chunkArray] returns, and its chunks are the
    array cut from the left: put end to end they are the array, chunk [j]
    holds the items from position [j * size] on, [size] of them or what is
    left, no chunk is empty, and there are as many chunks as the length
    divided by the size, rounded up. *)
Theorem chunkArray_cuts_in_order {A : Type} (array : list A) (size : nat) :
  0 < size ->
  exists chunks,
    chunkArray array size = Some chunks
    /\ concat chunks = array
    /\ length chunks = (length array + size - 1) / size
    /\ (forall j, j < length chunks ->
                  chunks !! j = Some (take size (drop (j * size) array)))
    /\ Forall (fun chunk => 1 <= length chunk <= size) chunks.
Proof.
  intros Hsize.
  destruct (chunkArray_positive array size Hsize) as (chunks & Hrun & Hcat).
  exists chunks. split; [exact Hrun |]. split; [exact Hcat |].
  pose proof (chunkLoop_lookup array size Hsize _ _ _ Hrun) as Hat. cbn [Nat.add] in Hat.
  pose proof (chunkArray_index array size chunks Hsize Hrun) as Hlt.
  split; [exact (chunkArray_count array size chunks Hsize Hrun) |]. split.
  - intros j Hj. rewrite (Hat j). apply Hlt, Nat.ltb_lt in Hj. rewrite Hj. reflexivity.
  - apply List.Forall_forall. intros chunk Hin.
    apply list_elem_of_In, list_elem_of_lookup in Hin as [j Hj].
    pose proof (lookup_lt_Some _ _ _ Hj) as Hjlt. apply Hlt in Hjlt.
    rewrite (Hat j) in Hj. apply Nat.ltb_lt in Hjlt as Hb. rewrite Hb in Hj.
    injection Hj as <-. rewrite length_take, length_drop. lia.
Qed.

Lemma chunkArray_cuts_in_order_witness :
  exists chunks,
    chunkArray [1; 2; 3; 4; 5] 2 = Some chunks
    /\ concat chunks = [1; 2; 3; 4; 5]
    /\ length chunks = (length [1; 2; 3; 4; 5] + 2 - 1) / 2
    /\ (forall j, j < length chunks ->
                  chunks !! j = Some (take 2 (drop (j * 2) [1; 2; 3; 4; 5])))
    /\ Forall (fun chunk => 1 <= length chunk <= 2) chunks.
Proof. apply (chunkArray_cuts_in_order [1; 2; 3; 4; 5] 2). lia. Defined.

(** X15. With a size of 0 and an array that is not empty the loop of
    [chunkArray] never ends: its index stays at 0, and whatever the number
    of iterations it is given, it has not returned. *)
Theorem chunkArray_size_zero_never_returns {A : Type} (x : A) (xs : list A) (fuel : nat) :
  chunkLoop fuel (x :: xs) 0 0 = None /\ chunkArray (x :: xs) 0 = None.
Proof.
  assert (forall n, chunkLoop n (x :: xs) 0 0 = None) as H.
  { induction n as [| n IH]; [reflexivity |]. cbn [chunkLoop length Nat.ltb Nat.leb Nat.add].
    rewrite IH. reflexivity. }
  split; [apply H | apply (H (S (length (x :: xs))))].
Qed.

Section Traces.
Context {W : Type}.
Variable P : Call -> bool.

Lemma makesOnly_ret {A : Type} (a : A) : makesOnly P (@ret W A a).
Proof. intros st. split; [reflexivity |]. exists []. cbn. rewrite app_nil_r. auto. Qed.

Lemma makesOnly_bind {A B : Type} (m : M A) (k : A -> @M W B) :
  makesOnly P m -> (forall a, makesOnly P (k a)) -> makesOnly P (bind m k).
Proof.
  intros Hm Hk st. unfold bind. destruct (Hm st) as (Hs & cs & Hcs & Hall).
  destruct (m st) as [[a | e] st1]; cbn [snd] in *.
  - destruct (Hk a st1) as (Hs' & cs' & Hcs' & Hall').
    split; [congruence |]. exists (cs ++ cs').
    rewrite Hcs', Hcs, <- app_assoc, forallb_app, Hall, Hall'. auto.
  - split; [exact Hs |]. exists cs. auto.
Qed.

Lemma makesOnly_call {A : Type} (c : Call) (f : W -> Completion A JsError * W) :
  P c = true -> makesOnly P (call c f).
Proof.
  intros Hc st. unfold call. destruct (f (world st)) as [r w']. cbn.
  split; [reflexivity |]. exists [c]. cbn. rewrite Hc. auto.
Qed.

Lemma makesOnly_log (level : Level) (msg : string) : makesOnly P (@log W level msg).
Proof. intros st. split; [reflexivity |]. exists []. cbn. rewrite app_nil_r. auto. Qed.

Lemma makesOnly_get : makesOnly P (@get W).
Proof. intros st. split; [reflexivity |]. exists []. cbn. rewrite app_nil_r. auto. Qed.

Lemma makesOnly_replaceMapping (m : gmap string MappingEntry) :
  makesOnly P (@replaceMapping W m).
Proof. intros st. split; [reflexivity |]. exists []. cbn. rewrite app_nil_r. auto. Qed.

Lemma makesOnly_setIncludeSummary (b : bool) : makesOnly P (@setIncludeSummary W b).
Proof. intros st. split; [reflexivity |]. exists []. cbn. rewrite app_nil_r. auto. Qed.

End Traces.

Ltac tracing :=
  repeat first
    [ progress intros
    | apply makesOnly_bind
    | apply makesOnly_ret
    | apply makesOnly_log
    | apply makesOnly_get
    | apply makesOnly_replaceMapping
    | apply makesOnly_setIncludeSummary
    | apply makesOnly_call; reflexivity
    | match goal with
      | |- makesOnly _ (if ?b then _ else _) => destruct b
      | |- makesOnly _ (match ?x with _ => _ end) => destruct x
      end ].

Section Run.
Context {W : Type}.
Variable svc : Services W.

Lemma framed_get : framed (@get W).
Proof. intros st. apply Frame_refl. Qed.

Lemma framed_printStats : framed (@printStats W).
Proof.
  unfold printStats. apply framed_bind; [apply framed_get |]. intros st. cbv zeta. framing.
Qed.

Lemma makesOnly_prepare :
  makesOnly (fun c => isStartup c || isFetch c) (prepare svc).
Proof. unfold prepare, testConnections, loadMapping, fetchJiraIssues. tracing. Qed.

(** X16. When the source has no issue to give, or cannot be asked, a run
    ends after the start-up: [migrate] returns the counters as they were, or
    throws; it has tested the connections, read the mapping file and asked
    for the issues at most, so nothing is searched or created at the
    destination and no mapping file is written, not even the table just
    loaded. *)
Theorem run_without_issues_stops_early (st : State W) :
  (forall w issues w', getAllIssues svc w = (Returned issues, w') -> issues = []) ->
  exists r st' cs,
    migrate svc st = Some (r, st')
    /\ (r = Returned (stats st) \/ exists e, r = Thrown e)
    /\ stats st' = stats st
    /\ calls st' = calls st ++ cs
    /\ forallb (fun c => isStartup c || isFetch c) cs = true
    /\ writes (calls st') = writes (calls st).
Proof.
  intros Hnone. destruct (makesOnly_prepare st) as (Hs & cs & Hcs & Hall).
  pose proof (writesNothing_prepare svc st) as Hw.
  assert (forall issues, fst (prepare svc st) = Returned issues -> issues = []) as Hempty.
  { intros issues. unfold prepare. unfold bind at 1.
    destruct (testConnections svc st) as [[[] | e] sa]; [| discriminate].
    unfold bind at 1. destruct (loadMapping svc sa) as [[[] | e] sb]; [| discriminate].
    unfold fetchJiraIssues, bind, call, log, ret.
    destruct (getAllIssues svc (world sb)) as [[found | e] w'] eqn:Hget; [| discriminate].
    cbn. intros [= <-]. exact (Hnone _ _ _ Hget). }
  unfold migrate. destruct (prepare svc st) as [[issues | e] st1]; cbn [fst snd] in *.
  - rewrite (Hempty issues eq_refl). cbn [length Nat.eqb].
    exists (Returned (stats st1)), st1, cs. rewrite Hs. repeat split; auto.
  - exists (Thrown e), st1, cs. repeat split; eauto.
Qed.

(** X17. A run over any number of items, in batches of any positive size,
    with a mapping file that can be written: [migrate] returns the counters,
    has processed every item, and has written the mapping file once after
    each batch and once more at the end, which is the number of items
    divided by the batch size, rounded up, and one; the last two snapshots
    are the final table. *)
Theorem run_writes_once_per_batch_and_once_more
        (st0 st1 st2 : State W) (items : list JiraIssue) (summaries : gmap string string) :
  prepare svc st0 = (Returned items, st1) ->
  generateSummaries svc items st1 = (Returned summaries, st2) ->
  items <> [] ->
  0 < batchSize (config st2) ->
  (forall file m w, fst (writeJsonFile svc file m w) = Returned tt) ->
  exists (st4 : State W) (snaps : list (gmap string MappingEntry)),
    migrate svc st0 = Some (Returned (stats st4), st4)
    /\ writes (calls st4) = writes (calls st0) ++ snaps ++ [mapping st4]
    /\ length snaps
       = (length items + batchSize (config st2) - 1) / batchSize (config st2)
    /\ last snaps = Some (mapping st4)
    /\ processed (stats st4) = processed (stats st2) + length items.
Proof.
  intros Hprep Hgen Hne Hsize Hw.
  assert (writes (calls st2) = writes (calls st0)) as Hquiet.
  { pose proof (writesNothing_generateSummaries svc items st1) as H1.
    pose proof (writesNothing_prepare svc st0) as H0.
    rewrite Hgen in H1. rewrite Hprep in H0. cbn [snd] in *. congruence. }
  destruct (chunkArray_positive items _ Hsize) as (batches & Hchunks & Hcat).
  pose proof (chunkArray_count items _ batches Hsize Hchunks) as Hcount.
  assert (batches <> []) as Hbatches.
  { intros ->. cbn in Hcat. congruence. }
  pose proof (processBatches_effect svc Hw summaries batches (length batches) 0 st2)
    as (snaps & Hr & Hc & Hp & Hwr & Hsnaps & Hlast & _).
  specialize (Hlast Hbatches).
  destruct (processBatches svc summaries (length batches) 0 batches st2)
    as [[[] | e] st3] eqn:Hrun; [| discriminate].
  cbn [fst snd] in *.
  pose proof (saveMapping_effect svc Hw st3) as (Hsr & _ & Hsm & Hss & Hsc).
  destruct (saveMapping svc st3) as [[[] | e] st3'] eqn:Hsave; [| discriminate].
  pose proof (printStats_effect st3') as (Hpr & Hps & Hpc).
  pose proof (frame_mapping _ _ (framed_printStats st3')) as Hpm.
  destruct (printStats st3') as [[[] | e] st4] eqn:Hprint; [| discriminate].
  cbn [fst snd] in *.
  exists st4, snaps. split.
  { unfold migrate. rewrite Hprep.
    destruct items as [| x xs]; [congruence |]. cbn [length Nat.eqb].
    rewrite Hgen. unfold processIssuesBatch. rewrite Hchunks, Hrun.
    unfold bind. rewrite Hsave, Hprint. reflexivity. }
  split; [rewrite Hpc, Hsc, writes_app, Hwr, Hquiet, Hpm, Hsm, <- app_assoc; reflexivity |].
  split; [congruence |].
  split; [rewrite Hlast; congruence |].
  rewrite Hps, Hss, Hp, Hcat. reflexivity.
Qed.

(** X18. When the mapping file cannot be written, [processIssuesBatch] ends
    with the error of the first write: the first batch has been processed in
    full, one write has been tried, and no item of a later batch is looked
    at. *)
Theorem failed_checkpoint_stops_run
        (st : State W) (items : list JiraIssue) (summaries : gmap string string)
        (e0 : JsError) :
  items <> [] ->
  0 < batchSize (config st) ->
  (forall file m w, fst (writeJsonFile svc file m w) = Thrown e0) ->
  let first := take (batchSize (config st)) items in
  let st1 := snd (processBatchItems svc summaries first st) in
  exists st',
    processIssuesBatch svc items summaries st = Some (Thrown e0, st')
    /\ calls st' = calls st1 ++ [WriteJsonFile mappingFile (mapping st1)]
    /\ mapping st' = mapping st1
    /\ stats st' = stats st1
    /\ processed (stats st') = processed (stats st) + length first.
Proof.
  intros Hne Hsize Hw. cbv zeta.
  destruct items as [| x xs]; [congruence |].
  destruct (chunkArray_first x xs _ Hsize) as [rest Hchunks].
  unfold processIssuesBatch. rewrite Hchunks. cbn [processBatches]. unfold bind at 1.
  pose proof (processBatchItems_effect svc summaries
                (take (batchSize (config st)) (x :: xs)) st) as (Hr & _ & Hp & _).
  destruct (processBatchItems svc summaries (take (batchSize (config st)) (x :: xs)) st)
    as [[[] | e] st1]; [| discriminate].
  cbn [fst snd] in *. unfold bind at 1, saveMapping at 1, bind, get, call.
  cbn [config mapping stats world calls logged fst snd].
  specialize (Hw mappingFile (mapping st1) (world st1)).
  destruct (writeJsonFile svc mappingFile (mapping st1) (world st1)) as [[[] | e] w'];
    cbn [fst] in Hw; [discriminate |].
  injection Hw as ->. eexists. split; [reflexivity |]. cbn. auto.
Qed.

(** X19. A summarizer that fails its connection test is not asked for a
    summary: when summaries are on and the test answers false, the start-up
    goes on, warns, and turns the summaries off, so that
    [generateSummaries] then returns the empty object without a call. *)
Theorem failed_summarizer_is_not_asked (st st1 : State W) (items : list JiraIssue) :
  includeSummary (config st) = true ->
  (forall w, fst (summarizerTestConnection svc w) = Returned false) ->
  prepare svc st = (Returned items, st1) ->
  includeSummary (config st1) = false
  /\ In (Warn, "OpenAI connection failed - summaries will be disabled") (logged st1)
  /\ generateSummaries svc items st1 = (Returned ∅, st1).
Proof.
  intros Hon Hdown Hprep.
  assert (includeSummary (config st1) = false
          /\ In (Warn, "OpenAI connection failed - summaries will be disabled") (logged st1))
    as [Hoff Hwarn].
  { revert Hprep. unfold prepare, testConnections, loadMapping, fetchJiraIssues.
    unfold bind, call, log, get, ret, setIncludeSummary, replaceMapping.
    cbn [config mapping stats world calls logged fst snd].
    destruct (jiraTestAuthentication svc (world st)) as [[[] | e] w1];
      cbn [config mapping stats world calls logged fst snd]; [| discriminate].
    destruct (githubTestAuthentication svc w1) as [[[] | e] w2];
      cbn [config mapping stats world calls logged fst snd]; [| discriminate].
    destruct (githubTestRepositoryAccess svc w2) as [[[] | e] w3];
      cbn [config mapping stats world calls logged fst snd]; [| discriminate].
    rewrite Hon. cbn [config mapping stats world calls logged fst snd].
    specialize (Hdown w3).
    destruct (summarizerTestConnection svc w3) as [[working | e] w4];
      cbn [fst] in Hdown; [| discriminate].
    injection Hdown as ->. cbn [config mapping stats world calls logged fst snd negb].
    destruct (readJsonFile svc mappingFile w4) as [[[m |] | e] w5];
      cbn [config mapping stats world calls logged fst snd]; [| | discriminate];
      (destruct (getAllIssues svc w5) as [[found | e] w6];
       cbn [config mapping stats world calls logged fst snd]; [| discriminate]);
      intros [= _ <-]; cbn [config includeSummary logged];
      (split; [reflexivity |]); rewrite !in_app_iff; cbn; auto. }
  split; [exact Hoff |]. split; [exact Hwarn |].
  unfold generateSummaries, bind, get. cbn [fst snd]. rewrite Hoff. reflexivity.
Qed.

End Run.

Lemma run_writes_once_per_batch_and_once_more_witness :
  let svc := Scenarios.quiet
               [Scenarios.issueOf "X-1"; Scenarios.issueOf "X-2"; Scenarios.issueOf "X-3"]
               [] false in
  let items := [Scenarios.issueOf "X-1"; Scenarios.issueOf "X-2"; Scenarios.issueOf "X-3"] in
  let st0 := create (Scenarios.configOf 2 false) 0 in
  let st2 := snd (prepare svc st0) in
  exists (st4 : State nat) (snaps : list (gmap string MappingEntry)),
    migrate svc st0 = Some (Returned (stats st4), st4)
    /\ writes (calls st4) = writes (calls st0) ++ snaps ++ [mapping st4]
    /\ length snaps = (length items + batchSize (config st2) - 1) / batchSize (config st2)
    /\ last snaps = Some (mapping st4)
    /\ processed (stats st4) = processed (stats st2) + length items.
Proof.
  cbv zeta.
  apply (run_writes_once_per_batch_and_once_more _ _
           (snd (prepare (Scenarios.quiet
                            [Scenarios.issueOf "X-1"; Scenarios.issueOf "X-2";
                             Scenarios.issueOf "X-3"] [] false)
                         (create (Scenarios.configOf 2 false) 0)))
           _ _ ∅).
  - vm_compute. reflexivity.
  - vm_compute. reflexivity.
  - discriminate.
  - vm_compute. lia.
  - intros file m w. reflexivity.
Defined.

Lemma failed_checkpoint_stops_run_witness :
  let svc := Scenarios.withWrite (Scenarios.quiet [] [] false)
                                 (fun _ _ w => (Thrown Scenarios.serverError, w)) in
  let st := create (Scenarios.configOf 2 false) 0 in
  let items := [Scenarios.issueOf "X-1"; Scenarios.issueOf "X-2"; Scenarios.issueOf "X-3"] in
  let st1 := snd (processBatchItems svc ∅ (take 2 items) st) in
  exists st',
    processIssuesBatch svc items ∅ st = Some (Thrown Scenarios.serverError, st')
    /\ calls st' = calls st1 ++ [WriteJsonFile mappingFile (mapping st1)]
    /\ mapping st' = mapping st1
    /\ stats st' = stats st1
    /\ processed (stats st') = 2.
Proof.
  cbv zeta.
  exact (failed_checkpoint_stops_run
           (Scenarios.withWrite (Scenarios.quiet [] [] false)
                                (fun _ _ w => (Thrown Scenarios.serverError, w)))
           (create (Scenarios.configOf 2 false) 0)
           [Scenarios.issueOf "X-1"; Scenarios.issueOf "X-2"; Scenarios.issueOf "X-3"] ∅
           Scenarios.serverError ltac:(discriminate) ltac:(cbn; lia) (fun _ _ _ => eq_refl)).
Defined.

Lemma failed_summarizer_is_not_asked_witness :
  let svc := Scenarios.quiet [Scenarios.issueOf "X-1"] [] false in
  let st := create (mkConfig "https://jira.example" 10 false true "link" ∅ ∅) 0 in
  let st1 := snd (prepare svc st) in
  includeSummary (config st1) = false
  /\ In (Warn, "OpenAI connection failed - summaries will be disabled") (logged st1)
  /\ generateSummaries svc [Scenarios.issueOf "X-1"] st1 = (Returned ∅, st1).
Proof.
  cbv zeta.
  apply (failed_summarizer_is_not_asked
           (Scenarios.quiet [Scenarios.issueOf "X-1"] [] false)
           (create (mkConfig "https://jira.example" 10 false true "link" ∅ ∅) 0)).
  - reflexivity.
  - intros w. reflexivity.
  - vm_compute. reflexivity.
Defined.

Lemma run_without_issues_stops_early_witness :
  let svc := Scenarios.quiet [] [] false in
  let st := create (Scenarios.configOf 10 false) 0 in
  exists r st' cs,
    migrate svc st = Some (r, st')
    /\ (r = Returned (stats st) \/ exists e, r = Thrown e)
    /\ stats st' = stats st
    /\ calls st' = calls st ++ cs
    /\ forallb (fun c => isStartup c || isFetch c) cs = true
    /\ writes (calls st') = writes (calls st).
Proof.
  apply (run_without_issues_stops_early (Scenarios.quiet [] [] false)
           (create (Scenarios.configOf 10 false) 0)).
  intros w issues w' H. injection H as <- _. reflexivity.
Defined.

End BatchProps.

(** * jiraClient.js *)

Module JiraClientProps.

Import JiraClient.

#[local] Open Scope list_scope.

Section Filter.
Context {Issue : Type}.
Variable subtask : Issue -> bool.
Variable statusName : Issue -> option string.
Variable enabled : bool.
Variable statusFilter : option (list string).

(** An issue that goes to the parents, and one that goes to the subtasks. *)
Let asParent (issue : Issue) : bool := negb (subtask issue) || negb enabled.
Let asSubtask (issue : Issue) : bool :=
  subtask issue && enabled && passes statusFilter (statusName issue).

Lemma filterLoop_filter (issues parents subs : list Issue) :
  filterLoop subtask statusName enabled statusFilter issues parents subs
  = (parents ++ List.filter asParent issues, subs ++ List.filter asSubtask issues).
Proof.
  revert parents subs. induction issues as [| issue rest IH]; intros parents subs.
  - cbn. rewrite !app_nil_r. reflexivity.
  - cbn [filterLoop List.filter]. unfold asParent, asSubtask.
    destruct (subtask issue), enabled, (passes statusFilter (statusName issue));
      cbn [negb orb andb]; rewrite IH, <- ?app_assoc; reflexivity.
Qed.

(** X21. [filterIssuesByType] keeps the issues that are no subtasks, and the
    subtasks too when subtasks are not enabled, in their order; when
    subtasks are enabled it keeps the subtasks that pass the status filter,
    in their order, and puts them after all the others.  So with subtasks
    not enabled the list comes back as it is, and in every case nothing is
    added: an issue is in the result exactly when it is in the list and is
    no subtask that is filtered out. *)
Theorem filterIssuesByType_sorts (issues : list Issue) :
  let r := filterIssuesByType subtask statusName issues enabled statusFilter in
  parentIssues r = List.filter (fun issue => negb (subtask issue) || negb enabled) issues
  /\ subtasks r
     = List.filter (fun issue => subtask issue && enabled
                                 && passes statusFilter (statusName issue)) issues
  /\ allIssues r = parentIssues r ++ subtasks r
  /\ (enabled = false -> allIssues r = issues)
  /\ (forall issue,
         In issue (allIssues r)
         <-> In issue issues
             /\ (subtask issue = true -> enabled = true ->
                 passes statusFilter (statusName issue) = true))
  /\ length (allIssues r) <= length issues.
Proof.
  cbv zeta. unfold filterIssuesByType. rewrite filterLoop_filter. cbn.
  unfold asParent, asSubtask.
  split; [reflexivity |]. split; [reflexivity |]. split; [reflexivity |].
  split; [| split].
  - intros Hoff. rewrite Hoff.
    assert (forall l : list Issue,
               List.filter (fun issue => negb (subtask issue) || negb false) l = l
               /\ List.filter (fun issue => subtask issue && false
                                            && passes statusFilter (statusName issue)) l
                  = []) as Hall.
    { induction l as [| issue rest [IH1 IH2]]; [split; reflexivity |].
      cbn [List.filter]. rewrite orb_true_r, andb_false_r. cbn [andb].
      rewrite IH1, IH2. split; reflexivity. }
    destruct (Hall issues) as [-> ->]. apply app_nil_r.
  - intros issue. rewrite in_app_iff, !List.filter_In.
    destruct (subtask issue), enabled, (passes statusFilter (statusName issue));
      cbn; intuition congruence.
  - rewrite length_app.
    induction issues as [| issue rest IH]; [cbn; lia |].
    cbn [List.filter length].
    destruct (subtask issue), enabled, (passes statusFilter (statusName issue));
      cbn [negb orb andb length] in *; lia.
Qed.

End Filter.

Section Paging.
Context {W Issue : Type}.
Variable searchIssues :
  string -> nat -> nat -> W -> Completion (SearchResult Issue) JsError * W.
Variable all : list Issue.
Variable cap : nat.
Hypothesis cap_positive : 0 < cap.
Hypothesis search_serves : serves searchIssues all cap.

Lemma pageLoop_collects (jql : string) (pageSize : nat) :
  0 < pageSize ->
  forall (fuel from : nat) (acc : list Issue) (w : W),
    from <= length all ->
    length all - from < fuel ->
    exists w', pageLoop searchIssues fuel jql pageSize from acc w
               = Some (Returned (acc ++ drop from all), w').
Proof.
  intros Hsize. induction fuel as [| fuel IH]; intros from acc w Hfrom Hfuel; [lia |].
  cbn [pageLoop]. pose proof (search_serves jql from pageSize w) as Hpage.
  destruct (searchIssues jql from pageSize w) as [c w']. cbn [fst] in Hpage. subst c.
  cbv zeta. cbn [issues maxResults hasMore].
  set (p := Nat.min pageSize cap).
  assert (0 < p) as Hp by (unfold p; lia).
  assert (length (take p (drop from all)) = Nat.min p (length all - from)) as Hlen.
  { rewrite length_take, length_drop. reflexivity. }
  destruct (from + length (take p (drop from all)) <? length all)%nat eqn:Hmore.
  - apply Nat.ltb_lt in Hmore.
    destruct (IH (from + p) (acc ++ take p (drop from all)) w') as [w'' ->]; [lia | lia |].
    exists w''. rewrite <- app_assoc, <- drop_drop, take_drop. reflexivity.
  - apply Nat.ltb_ge in Hmore. exists w'.
    rewrite take_ge by (rewrite length_drop; lia). reflexivity.
Qed.

(** X22. Against a source that holds a list of issues, serves it in pages of
    at most [cap] issues and reports the page size it used, [getAllIssues]
    returns the whole list, each issue once and in the order of the source,
    whatever the batch size asked for; it needs no more pages than there
    are issues, and one page for an empty list. *)
Theorem getAllIssues_collects (fuel : nat) (jql : string) (batchSize : nat) (w : W) :
  length all < fuel ->
  exists w', getAllIssues searchIssues fuel jql batchSize w = Some (Returned all, w').
Proof.
  intros Hfuel. unfold getAllIssues.
  destruct (pageLoop_collects jql (if (batchSize =? 0)%nat then 50 else batchSize)
              ltac:(destruct (Nat.eqb_spec batchSize 0); lia) fuel 0 [] w)
    as [w' Hrun]; [lia | lia |].
  exists w'. exact Hrun.
Qed.

End Paging.

Lemma getAllIssues_collects_witness :
  exists w',
    getAllIssues (Scenarios.pagedSearch [1; 2; 3; 4; 5; 6; 7] 3) 8 "project = X" 5 0
    = Some (Returned [1; 2; 3; 4; 5; 6; 7], w').
Proof.
  apply (getAllIssues_collects (Scenarios.pagedSearch [1; 2; 3; 4; 5; 6; 7] 3)
           [1; 2; 3; 4; 5; 6; 7] 3).
  - lia.
  - intros jql from pageSize w. reflexivity.
  - cbn. lia.
Defined.

End JiraClientProps.

(** * githubClient.js *)

Module GitHubClientProps.

Import GitHubClient.

#[local] Open Scope list_scope.

Section Client.
Context {W Blob : Type}.
Variable api : Api W Blob.

(** X23. [findExistingIssue] never throws.  It sends one search; when the
    search fails it warns and answers null, as if nothing had been found;
    when the search answers, it returns the first issue found whose title
    or body holds the key, and null when there is none. *)
Theorem findExistingIssue_never_throws (jiraKey : string) (st : St W) :
  let r := findExistingIssue api jiraKey st in
  let answer := fst (searchIssues api (searchQuery jiraKey) (world st)) in
  exists result,
    fst r = Returned result
    /\ requests (snd r) = requests st ++ [SearchIssues (searchQuery jiraKey)]
    /\ (forall found,
           answer = Returned found ->
           result = List.find (mentions jiraKey) found
           /\ warnings (snd r) = warnings st
           /\ (result = None -> forall issue, In issue found -> mentions jiraKey issue = false))
    /\ (forall e,
           answer = Thrown e ->
           result = None
           /\ warnings (snd r)
              = warnings st ++ [("Error searching for existing issue " ++ jiraKey ++ ": "
                                 ++ Migrator.messageText e)%string])
    /\ (forall issue, result = Some issue -> mentions jiraKey issue = true).
Proof.
  cbv zeta. unfold findExistingIssue, tryCatch, bind, request, warn, ret.
  destruct (searchIssues api (searchQuery jiraKey) (world st)) as [[found | e] w'];
    cbn [fst snd requests warnings].
  - exists (List.find (mentions jiraKey) found).
    split; [reflexivity |]. split; [reflexivity |]. split; [| split].
    + intros found' [= <-]. split; [reflexivity |]. split; [reflexivity |].
      intros Hnone issue Hin. exact (List.find_none _ _ Hnone issue Hin).
    + intros e [=].
    + intros issue Hfound. apply List.find_some in Hfound. apply Hfound.
  - exists None. split; [reflexivity |]. split; [reflexivity |]. split; [| split].
    + intros found [=].
    + intros e' [= <-]. split; reflexivity.
    + intros issue [=].
Qed.

(** X24. [ensureLabelsExist] never throws: it asks for each label once, in
    the order given, whether or not an earlier one failed, and logs one
    warning for each label that failed, none when all succeed. *)
Theorem ensureLabelsExist_never_throws (labelNames : list string) (st : St W) :
  let r := ensureLabelsExist api labelNames st in
  fst r = Returned tt
  /\ requests (snd r)
     = requests st ++ List.map (fun l => CreateLabel l (labelDescription l)) labelNames
  /\ exists ws,
      warnings (snd r) = warnings st ++ ws
      /\ length ws <= length labelNames
      /\ ((forall l d w, fst (createLabel api l d w) = Returned tt) -> ws = []).
Proof.
  cbv zeta. revert st. induction labelNames as [| l rest IH]; intros st.
  - cbn. rewrite app_nil_r. split; [reflexivity |]. split; [reflexivity |].
    exists []. rewrite app_nil_r. cbn. auto.
  - cbn [ensureLabelsExist]. unfold bind, ensureLabel, tryCatch, request, warn.
    pose proof (fun H : forall l d w, fst (createLabel api l d w) = Returned tt =>
                  H l (labelDescription l) (world st)) as Hok.
    destruct (createLabel api l (labelDescription l) (world st)) as [[[] | e] w'];
      cbn [fst snd] in *;
      match goal with |- context [ensureLabelsExist api rest ?s] =>
        destruct (IH s) as (Hr & Hq & ws & Hw & Hlen & Hnone) end;
      cbn [requests warnings] in *;
      (split; [exact Hr |]);
      (split; [rewrite Hq, <- app_assoc; reflexivity |]).
    + exists ws. split; [exact Hw |]. split; [cbn; lia |]. exact Hnone.
    + eexists. split; [rewrite Hw, <- app_assoc; reflexivity |]. split; [cbn; lia |].
      intros H. specialize (Hok H). discriminate.
Qed.

Lemma append_nil_r (s : string) : (s ++ "")%string = s.
Proof.
  induction s as [| c s IH]; [reflexivity |].
  change (String c s ++ "")%string with (String c (s ++ "")%string). rewrite IH. reflexivity.
Qed.

Section Attachments.
Variable jiraKey strategy : string.
Variable jiraClient : bool.

Lemma attachmentLine_returns (a : Attachment) (st : St W) :
  exists line st',
    attachmentLine api jiraKey strategy jiraClient a st = (Returned line, st')
    /\ lineOf api a line
    /\ (String.eqb strategy "upload" && jiraClient = false -> line = linkLine api a /\ st' = st)
    /\ length (warnings st') <= length (warnings st) + 1.
Proof.
  unfold attachmentLine, tryCatch, bind, request, warn, ret, lineOf.
  destruct (String.eqb strategy "upload" && jiraClient).
  - destruct (downloadAttachment api (content a) (filename a) (world st))
      as [[fileContent | e] w1]; cbn [world requests warnings].
    + destruct (uploadReleaseAsset api _ fileContent (filename a) (mimeType a) w1)
        as [[url | e] w2]; cbn [world requests warnings].
      * eexists. eexists. split; [reflexivity |]. cbn [warnings].
        split; [right; right; eauto |]. split; [discriminate | lia].
      * eexists. eexists. split; [reflexivity |]. cbn [warnings].
        split; [right; left; reflexivity |]. split; [discriminate |].
        rewrite length_app. cbn. lia.
    + eexists. eexists. split; [reflexivity |]. cbn [warnings].
      split; [right; left; reflexivity |]. split; [discriminate |].
      rewrite length_app. cbn. lia.
  - exists (linkLine api a), st. split; [reflexivity |].
    split; [left; reflexivity |]. split; [auto | lia].
Qed.

Lemma attachmentLoop_lines (attachments : list Attachment) :
  forall (text : string) (st : St W),
    exists lines st',
      attachmentLoop api jiraKey strategy jiraClient attachments text st
      = (Returned (text ++ JsString.join lines)%string, st')
      /\ Forall2 (lineOf api) attachments lines
      /\ (String.eqb strategy "upload" && jiraClient = false ->
          lines = List.map (linkLine api) attachments /\ st' = st)
      /\ length (warnings st') <= length (warnings st) + length attachments.
Proof.
  induction attachments as [| a rest IH]; intros text st.
  - exists [], st. cbn. rewrite append_nil_r.
    split; [reflexivity |]. split; [constructor |]. split; [auto | lia].
  - cbn [attachmentLoop]. unfold bind.
    destruct (attachmentLine_returns a st) as (line & st1 & -> & Hline & Hlink & Hw).
    destruct (IH (text ++ line)%string st1) as (lines & st2 & -> & Hlines & Hlinks & Hws).
    exists (line :: lines), st2. cbn [JsString.join fold_right].
    fold (JsString.join lines). rewrite JsStringProps.append_assoc.
    split; [reflexivity |]. split; [constructor; assumption |]. split.
    + intros Hmode. destruct (Hlink Hmode) as [-> ->].
      destruct (Hlinks Hmode) as [-> ->]. split; reflexivity.
    + cbn [length]. lia.
Qed.

(** X25. [handleAttachments] never throws and writes one line for each
    attachment, in their order, under one header: the link to Jira, the
    link to the uploaded copy, or, when the download or the upload failed,
    the link to Jira marked as failed.  Unless the strategy is upload and a
    Jira client is given, every line is the plain link to Jira, and nothing
    is requested or logged.  Without attachments the text is empty. *)
Theorem handleAttachments_one_line_each (attachments : list Attachment) (st : St W) :
  let r := handleAttachments api attachments jiraKey strategy jiraClient st in
  exists lines,
    fst r = Returned (match attachments with
                      | [] => ""
                      | _ :: _ => attachmentsHeader ++ JsString.join lines
                      end)%string
    /\ Forall2 (lineOf api) attachments lines
    /\ (String.eqb strategy "upload" && jiraClient = false ->
        lines = List.map (linkLine api) attachments /\ snd r = st)
    /\ length (warnings (snd r)) <= length (warnings st) + length attachments.
Proof.
  cbv zeta. unfold handleAttachments. destruct attachments as [| a rest].
  - exists []. cbn. split; [reflexivity |]. split; [constructor |]. split; [auto | lia].
  - destruct (attachmentLoop_lines (a :: rest) attachmentsHeader st)
      as (lines & st' & -> & Hlines & Hlink & Hw).
    exists lines. cbn [fst snd]. auto.
Qed.

End Attachments.

End Client.

(** ** The retries of [createIssue] *)

Section Retries.
Context {W Blob : Type}.
Variable api : Api W Blob.
Variable rateLimiter : RateLimiter.t.

Let retries : nat := RateLimiter.maxRetries rateLimiter.

(** The loop of [executeWithRetry] throws [undefined] only when it is
    entered past the last attempt with no error yet. *)
Lemma retryLoop_throws_an_error {A : Type} (fn : G A) :
  forall (fuel attempt : nat) (lastError : option JsError) (st st' : St W)
         (evs : list RateLimiter.Event),
    RateLimiter.retryLoop rateLimiter fn fuel attempt lastError st
    = Some (Thrown None, st', evs) ->
    lastError = None /\ retries < attempt.
Proof.
  induction fuel as [| fuel IH]; intros attempt lastError st st' evs; [discriminate |].
  cbn [RateLimiter.retryLoop].
  destruct (attempt <=? RateLimiter.maxRetries rateLimiter)%nat eqn:Hle.
  - destruct (fn st) as [[a | e] st1]; [discriminate |].
    destruct (attempt =? RateLimiter.maxRetries rateLimiter)%nat; [discriminate |].
    destruct (negb (RateLimiter.isRateLimit e) && RateLimiter.statusBelow500 e);
      [discriminate |].
    destruct (RateLimiter.retryLoop rateLimiter fn fuel (S attempt) (Some e) st1)
      as [[[c st2] evs2] |] eqn:Hrun; [| discriminate].
    intros [= -> -> _]. apply IH in Hrun as [Hnone _]. discriminate.
  - intros [= -> -> _]. apply Nat.leb_gt in Hle. auto.
Qed.

(** [retrying] is [executeWithRetry]: the two cases it has no value for do
    not occur. *)
Lemma retrying_executes {A : Type} (fn : G A) (st : St W) :
  exists c st' evs,
    RateLimiter.executeWithRetry rateLimiter fn st = Some (c, st', evs)
    /\ match c with
       | Returned a => retrying rateLimiter fn st = (Returned a, st')
       | Thrown (Some e) => retrying rateLimiter fn st = (Thrown e, st')
       | Thrown None => False
       end.
Proof.
  destruct (RateLimiterProps.executeWithRetry_total rateLimiter fn st)
    as [[[c st'] evs] Hrun].
  exists c, st', evs. split; [exact Hrun |]. unfold retrying. rewrite Hrun.
  destruct c as [a | [e |]]; try reflexivity.
  apply retryLoop_throws_an_error in Hrun as [_ Hlt]. lia.
Qed.

(** An operation that always fails with a transient error is run
    [maxRetries + 1] times. *)
Lemma retrying_transient {A : Type} (fn : G A) (st : St W) :
  (forall s, exists e, fst (fn s) = Thrown e /\ RateLimiter.transient e) ->
  exists e,
    retrying rateLimiter fn st = (Thrown e, RateLimiter.worldAfter fn (S retries) st)
    /\ RateLimiter.transient e.
Proof.
  intros Hfail.
  destruct (RateLimiterProps.retryLoop_transient rateLimiter fn retries
              (S (S retries)) 0 None st)
    as (e & evs & Hrun & Hlast & _); [reflexivity | lia | intros k _; apply Hfail |].
  exists e. unfold retrying, RateLimiter.executeWithRetry. fold retries. rewrite Hrun.
  split; [reflexivity |].
  destruct (Hfail (RateLimiter.worldAfter fn retries st)) as (e' & He' & Ht).
  congruence.
Qed.

(** A count that every run of [fn] raises by [a] is raised by [k * a] over
    [k] runs. *)
Lemma worldAfter_counts {A : Type} (fn : G A) (count : St W -> nat) (a : nat) :
  (forall s, count (snd (fn s)) = count s + a) ->
  forall k st, count (RateLimiter.worldAfter fn k st) = count st + k * a.
Proof.
  intros Hstep. induction k as [| k IH]; intros st; [cbn; lia |].
  rewrite RateLimiterProps.worldAfter_S, IH, Hstep. lia.
Qed.

Hypothesis creation_succeeds :
  forall t b l a w, exists issue, fst (issuesCreate api t b l a w) = Returned issue.
Hypothesis update_fails :
  forall n s w, exists e, fst (issuesUpdate api n s w) = Thrown e /\ RateLimiter.transient e.

Lemma updateIssueState_fails (n : nat) (s : string) (st : St W) :
  exists e st',
    updateIssueState api rateLimiter n s st = (Thrown e, st')
    /\ RateLimiter.transient e
    /\ creations st' = creations st
    /\ updates st' = updates st + S retries.
Proof.
  unfold updateIssueState.
  set (fn := request (IssuesUpdate n s) (issuesUpdate api n s)).
  assert (forall s0, exists e, fst (fn s0) = Thrown e /\ RateLimiter.transient e) as Hfail.
  { intros s0. unfold fn, request. destruct (update_fails n s (world s0)) as (e & He & Ht).
    destruct (issuesUpdate api n s (world s0)) as [c w']. cbn in *. eauto. }
  destruct (retrying_transient fn st Hfail) as (e & -> & Ht).
  exists e. eexists. split; [reflexivity |]. split; [exact Ht |]. split.
  - rewrite (worldAfter_counts fn creations 0); [lia |].
    intros s0. unfold fn, request, creations.
    destruct (issuesUpdate api n s (world s0)) as [c w']. cbn.
    rewrite List.filter_app, length_app. cbn. lia.
  - rewrite (worldAfter_counts fn updates 1); [lia |].
    intros s0. unfold fn, request, updates.
    destruct (issuesUpdate api n s (world s0)) as [c w']. cbn.
    rewrite List.filter_app, length_app. cbn. lia.
Qed.

Lemma createOnce_fails (issueData : IssueData) (st : St W) :
  dataState issueData = Some "closed" ->
  exists e st',
    createOnce api rateLimiter issueData st = (Thrown e, st')
    /\ RateLimiter.transient e
    /\ creations st' = creations st + 1
    /\ updates st' = updates st + S retries.
Proof.
  intros Hclosed. unfold createOnce. cbv zeta. rewrite Hclosed. cbn [default String.eqb].
  unfold bind at 1, request at 1.
  match goal with |- context [issuesCreate api ?t ?b ?l ?a (world st)] =>
    destruct (creation_succeeds t b l a (world st)) as [issue Hissue] end.
  match goal with |- context [issuesCreate api ?t ?b ?l ?a (world st)] =>
    destruct (issuesCreate api t b l a (world st)) as [c w'] end.
  cbn [fst] in Hissue. subst c.
  change (id "closed" =? "closed")%string with true. cbv iota. unfold bind at 1.
  match goal with |- context [updateIssueState api rateLimiter ?n ?s ?s0] =>
    destruct (updateIssueState_fails n s s0) as (e & st' & -> & Ht & Hc & Hu) end.
  exists e, st'. split; [reflexivity |]. split; [exact Ht |].
  rewrite Hc, Hu. unfold creations, updates. cbn [requests].
  rewrite !List.filter_app, !length_app. cbn. lia.
Qed.

(** X26. When an issue is to be created closed and the destination creates
    it but keeps failing the update that closes it with a transient error,
    [createIssue] creates the issue again at every attempt: the retry of
    the update is nested in the retry of the creation, so the issue is
    created [maxRetries + 1] times and its closing is tried
    [(maxRetries + 1) * (maxRetries + 1)] times, 4 and 16 times with the
    retry settings of the client, before the error of the update is
    thrown. *)
Theorem createIssue_creates_again_on_failed_close (issueData : IssueData) (st : St W) :
  dataState issueData = Some "closed" ->
  let r := createIssue api rateLimiter issueData st in
  let attempts := RateLimiter.maxRetries rateLimiter + 1 in
  (exists e, fst r = Thrown e /\ RateLimiter.transient e)
  /\ length (List.filter isIssuesCreate (requests (snd r)))
     = length (List.filter isIssuesCreate (requests st)) + attempts
  /\ length (List.filter isIssuesUpdate (requests (snd r)))
     = length (List.filter isIssuesUpdate (requests st)) + attempts * attempts.
Proof.
  intros Hclosed. cbv zeta. unfold createIssue.
  assert (forall s, exists e, fst (createOnce api rateLimiter issueData s) = Thrown e
                              /\ RateLimiter.transient e) as Hfail.
  { intros s. destruct (createOnce_fails issueData s Hclosed) as (e & s' & -> & Ht & _).
    eauto. }
  destruct (retrying_transient _ st Hfail) as (e & -> & Ht). cbn [fst snd].
  split; [eauto |]. fold retries. split.
  - change (creations (RateLimiter.worldAfter (createOnce api rateLimiter issueData)
                                               (S retries) st)
            = creations st + (retries + 1)).
    rewrite (worldAfter_counts _ creations 1); [lia |].
    intros s. destruct (createOnce_fails issueData s Hclosed) as (e' & s' & -> & _ & Hc & _).
    exact Hc.
  - change (updates (RateLimiter.worldAfter (createOnce api rateLimiter issueData)
                                             (S retries) st)
            = updates st + (retries + 1) * (retries + 1)).
    rewrite (worldAfter_counts _ updates (S retries)); [lia |].
    intros s. destruct (createOnce_fails issueData s Hclosed) as (e' & s' & -> & _ & _ & Hu).
    exact Hu.
Qed.

End Retries.

Lemma createIssue_creates_again_on_failed_close_witness :
  let issueData := mkIssueData "[X-1] A title" "text" ["migrated-from-jira"] (Some "closed")
                               None in
  let r := createIssue Scenarios.neverCloses RateLimiter.default issueData (mkSt 0 [] []) in
  (exists e, fst r = Thrown e /\ RateLimiter.transient e)
  /\ length (List.filter isIssuesCreate (requests (snd r))) = 4
  /\ length (List.filter isIssuesUpdate (requests (snd r))) = 16.
Proof.
  apply (createIssue_creates_again_on_failed_close Scenarios.neverCloses RateLimiter.default).
  - intros t b l a w. eexists. reflexivity.
  - intros n s w. eexists. split; [reflexivity |]. right. exists 503%Z. split; [reflexivity | lia].
  - reflexivity.
Defined.

End GitHubClientProps.
